(** * gometalinter: configuration, path resolution and linter selection

    A shallow embedding of [main.go] (package gometalinter) and of the
    command-line glue (package main), together with the properties of
    the start-up phase of a run: configuration processing, path
    resolution, the choice of linters and the exit status. *)

From Stdlib Require Import ZArith Lia Ascii String.
From stdpp Require Import base strings list gmap sorting.

Local Open Scope Z_scope.

(** ** Go library functions used by the program

    These follow the documented behaviour of Go's [strings] and
    [path/filepath] packages on a Unix system (separator ["/"], no
    volume names). *)

Module strings.

(** [strings.HasPrefix(s, prefix)]. *)
Definition HasPrefix (s pre : string) : bool := String.prefix pre s.

(** [strings.HasSuffix(s, suffix)]:
    [len(s) >= len(suffix) && s[len(s)-len(suffix):] == suffix]. *)
Definition HasSuffix (s suf : string) : bool :=
  (String.length suf <=? String.length s)%nat
  && String.eqb (String.substring (String.length s - String.length suf)
                                  (String.length suf) s) suf.

(** Does the byte [c] occur in [s]? *)
Fixpoint contains_byte (c : ascii) (s : string) : bool :=
  match s with
  | EmptyString => false
  | String d s' => Ascii.eqb c d || contains_byte c s'
  end.

(** [strings.ContainsAny(s, chars)]. *)
Fixpoint ContainsAny (s chars : string) : bool :=
  match s with
  | EmptyString => false
  | String c s' => contains_byte c chars || ContainsAny s' chars
  end.

(** [strings.Join(elems, sep)]. *)
Definition Join (elems : list string) (sep : string) : string :=
  String.concat sep elems.

(** [strings.Split(s, sep)] for a one-byte separator. *)
Fixpoint Split (s : string) (sep : ascii) : list string :=
  match s with
  | EmptyString => [EmptyString]
  | String c s' =>
      if Ascii.eqb c sep then EmptyString :: Split s' sep
      else match Split s' sep with
           | x :: xs => String c x :: xs
           | [] => [String c EmptyString]
           end
  end.

(** The text before and the text after the first occurrence of the
    byte [sep], if there is one. *)
Fixpoint Cut (s : string) (sep : ascii) : option (string * string) :=
  match s with
  | EmptyString => None
  | String c s' =>
      if Ascii.eqb c sep then Some (EmptyString, s')
      else match Cut s' sep with
           | Some (before, after) => Some (String c before, after)
           | None => None
           end
  end.

(** [strings.SplitN(s, sep, 2)] for a one-byte separator: at most
    two substrings, the second being the unsplit remainder. *)
Definition SplitN2 (s : string) (sep : ascii) : list string :=
  match Cut s sep with
  | Some (before, after) => [before; after]
  | None => [s]
  end.

End strings.

Module filepath.

Definition Separator : ascii := "/"%char.

(** One step of [Clean]'s scan over the path elements.  [stk] holds
    the elements written so far, the last one first. An empty element
    and ["."] are dropped; [".."] removes the last real element, is
    dropped at the root, and is kept at the start of a relative path. *)
Definition clean_step (rooted : bool) (stk : list string) (elem : string)
  : list string :=
  if String.eqb elem "" then stk
  else if String.eqb elem "." then stk
  else if String.eqb elem ".." then
    match stk with
    | top :: rest => if String.eqb top ".." then ".." :: stk else rest
    | [] => if rooted then [] else [".."]
    end
  else elem :: stk.

(** [filepath.Clean(path)]. *)
Definition Clean (path : string) : string :=
  if String.eqb path "" then "."
  else
    let rooted := strings.HasPrefix path "/" in
    let stk := fold_left (clean_step rooted) (strings.Split path Separator) [] in
    let body := String.concat "/" (rev stk) in
    if rooted then "/" +:+ body
    else match stk with [] => "." | _ => body end.

(** [filepath.IsAbs(path)]. *)
Definition IsAbs (path : string) : bool := strings.HasPrefix path "/".

(** [filepath.Dir(path)]: everything up to and including the last
    separator, cleaned. *)
Definition Dir (path : string) : string :=
  match strings.Split path Separator with
  | [] | [_] => Clean ""
  | elems => Clean (String.concat "/" (removelast elems) +:+ "/")
  end.

(** Drops the leading empty elements of a list. *)
Fixpoint drop_empty (l : list string) : list string :=
  match l with
  | x :: l' => if String.eqb x "" then drop_empty l' else l
  | [] => []
  end.

(** [filepath.Base(path)]: the last element, trailing separators
    removed; ["."] for the empty path and ["/"] for a path of
    separators only. *)
Definition Base (path : string) : string :=
  if String.eqb path "" then "."
  else match drop_empty (rev (strings.Split path Separator)) with
       | [] => "/"
       | x :: _ => x
       end.

(** [filepath.Join(elem...)]: the elements from the first non-empty
    one on, joined by the separator and cleaned. *)
Definition Join (elem : list string) : string :=
  match drop_empty elem with
  | [] => ""
  | elems => Clean (String.concat "/" elems)
  end.

End filepath.

(** ** Data model

    [Issue], [Severity], [LinterConfig], [Linter] and [Config] are
    declared in files of the package that are not among the sources;
    each is given here with the fields that [main.go] and the command
    line use. *)

(** Severity of an issue. *)
Inductive Severity : Type := Error | Warning.

Definition Severity_eqb (a b : Severity) : bool :=
  match a, b with
  | Error, Error | Warning, Warning => true
  | _, _ => false
  end.

(** An issue reported by a linter. *)
Record Issue : Type := {
  issue_Linter : string;
  issue_Severity : Severity;
  issue_Path : string;
  issue_Line : Z;
  issue_Col : Z;
  issue_Message : string
}.

(** A linter definition as it appears in the configuration. *)
Record LinterConfig : Type := {
  Command : string;
  Pattern : string;
  InstallFrom : string;
  IsFast : bool
}.

(** The zero value, which a Go map lookup yields for a missing key. *)
Definition LinterConfig_zero : LinterConfig :=
  {| Command := ""; Pattern := ""; InstallFrom := ""; IsFast := false |}.

(** A linter: its name and its (embedded) definition. *)
Record Linter : Type := {
  Name : string;
  linterConfig : LinterConfig
}.

(** A parsed output template and a compiled regular expression, each
    represented by the text it was built from. *)
Record Template : Type := { template_text : string }.
Record Regexp : Type := { regexp_text : string }.

(** The fields of [Config] that the functions below read or write. *)
Record Config : Type := {
  Format : string;
  formatTemplate : option Template;
  EnableGC : bool;
  VendoredLinters : bool;
  Install : bool;
  Update : bool;
  Checkstyle : bool;
  JSON : bool;
  Sort : list string;
  Vendor : bool;
  Skip : list string;
  Exclude : list string;
  Include : list string;
  Concurrency : Z;
  Enable : list string;
  EnableAll : bool;
  Linters : gmap string LinterConfig;
  Fast : bool;
  Disable : list string;
  Debug : bool;
  Errors : bool
}.

(** Field updates ([config.X = v]). *)
Definition set_Format (v : string) (c : Config) : Config :=
  Build_Config v (formatTemplate c) (EnableGC c) (VendoredLinters c)
    (Install c) (Update c) (Checkstyle c) (JSON c) (Sort c) (Vendor c) (Skip
    c) (Exclude c) (Include c) (Concurrency c) (Enable c) (EnableAll c)
    (Linters c) (Fast c) (Disable c) (Debug c) (Errors c).
Definition set_formatTemplate (v : option Template) (c : Config) : Config :=
  Build_Config (Format c) v (EnableGC c) (VendoredLinters c) (Install c)
    (Update c) (Checkstyle c) (JSON c) (Sort c) (Vendor c) (Skip c) (Exclude
    c) (Include c) (Concurrency c) (Enable c) (EnableAll c) (Linters c) (Fast
    c) (Disable c) (Debug c) (Errors c).
Definition set_EnableGC (v : bool) (c : Config) : Config :=
  Build_Config (Format c) (formatTemplate c) v (VendoredLinters c) (Install
    c) (Update c) (Checkstyle c) (JSON c) (Sort c) (Vendor c) (Skip c)
    (Exclude c) (Include c) (Concurrency c) (Enable c) (EnableAll c) (Linters
    c) (Fast c) (Disable c) (Debug c) (Errors c).
Definition set_VendoredLinters (v : bool) (c : Config) : Config :=
  Build_Config (Format c) (formatTemplate c) (EnableGC c) v (Install c)
    (Update c) (Checkstyle c) (JSON c) (Sort c) (Vendor c) (Skip c) (Exclude
    c) (Include c) (Concurrency c) (Enable c) (EnableAll c) (Linters c) (Fast
    c) (Disable c) (Debug c) (Errors c).
Definition set_Install (v : bool) (c : Config) : Config :=
  Build_Config (Format c) (formatTemplate c) (EnableGC c) (VendoredLinters
    c) v (Update c) (Checkstyle c) (JSON c) (Sort c) (Vendor c) (Skip c)
    (Exclude c) (Include c) (Concurrency c) (Enable c) (EnableAll c) (Linters
    c) (Fast c) (Disable c) (Debug c) (Errors c).
Definition set_Update (v : bool) (c : Config) : Config :=
  Build_Config (Format c) (formatTemplate c) (EnableGC c) (VendoredLinters
    c) (Install c) v (Checkstyle c) (JSON c) (Sort c) (Vendor c) (Skip c)
    (Exclude c) (Include c) (Concurrency c) (Enable c) (EnableAll c) (Linters
    c) (Fast c) (Disable c) (Debug c) (Errors c).
Definition set_Checkstyle (v : bool) (c : Config) : Config :=
  Build_Config (Format c) (formatTemplate c) (EnableGC c) (VendoredLinters
    c) (Install c) (Update c) v (JSON c) (Sort c) (Vendor c) (Skip c) (Exclude
    c) (Include c) (Concurrency c) (Enable c) (EnableAll c) (Linters c) (Fast
    c) (Disable c) (Debug c) (Errors c).
Definition set_JSON (v : bool) (c : Config) : Config :=
  Build_Config (Format c) (formatTemplate c) (EnableGC c) (VendoredLinters
    c) (Install c) (Update c) (Checkstyle c) v (Sort c) (Vendor c) (Skip c)
    (Exclude c) (Include c) (Concurrency c) (Enable c) (EnableAll c) (Linters
    c) (Fast c) (Disable c) (Debug c) (Errors c).
Definition set_Sort (v : list string) (c : Config) : Config :=
  Build_Config (Format c) (formatTemplate c) (EnableGC c) (VendoredLinters
    c) (Install c) (Update c) (Checkstyle c) (JSON c) v (Vendor c) (Skip c)
    (Exclude c) (Include c) (Concurrency c) (Enable c) (EnableAll c) (Linters
    c) (Fast c) (Disable c) (Debug c) (Errors c).
Definition set_Vendor (v : bool) (c : Config) : Config :=
  Build_Config (Format c) (formatTemplate c) (EnableGC c) (VendoredLinters
    c) (Install c) (Update c) (Checkstyle c) (JSON c) (Sort c) v (Skip c)
    (Exclude c) (Include c) (Concurrency c) (Enable c) (EnableAll c) (Linters
    c) (Fast c) (Disable c) (Debug c) (Errors c).
Definition set_Skip (v : list string) (c : Config) : Config :=
  Build_Config (Format c) (formatTemplate c) (EnableGC c) (VendoredLinters
    c) (Install c) (Update c) (Checkstyle c) (JSON c) (Sort c) (Vendor c) v
    (Exclude c) (Include c) (Concurrency c) (Enable c) (EnableAll c) (Linters
    c) (Fast c) (Disable c) (Debug c) (Errors c).
Definition set_Exclude (v : list string) (c : Config) : Config :=
  Build_Config (Format c) (formatTemplate c) (EnableGC c) (VendoredLinters
    c) (Install c) (Update c) (Checkstyle c) (JSON c) (Sort c) (Vendor c)
    (Skip c) v (Include c) (Concurrency c) (Enable c) (EnableAll c) (Linters
    c) (Fast c) (Disable c) (Debug c) (Errors c).
Definition set_Include (v : list string) (c : Config) : Config :=
  Build_Config (Format c) (formatTemplate c) (EnableGC c) (VendoredLinters
    c) (Install c) (Update c) (Checkstyle c) (JSON c) (Sort c) (Vendor c)
    (Skip c) (Exclude c) v (Concurrency c) (Enable c) (EnableAll c) (Linters
    c) (Fast c) (Disable c) (Debug c) (Errors c).
Definition set_Concurrency (v : Z) (c : Config) : Config :=
  Build_Config (Format c) (formatTemplate c) (EnableGC c) (VendoredLinters
    c) (Install c) (Update c) (Checkstyle c) (JSON c) (Sort c) (Vendor c)
    (Skip c) (Exclude c) (Include c) v (Enable c) (EnableAll c) (Linters c)
    (Fast c) (Disable c) (Debug c) (Errors c).
Definition set_Enable (v : list string) (c : Config) : Config :=
  Build_Config (Format c) (formatTemplate c) (EnableGC c) (VendoredLinters
    c) (Install c) (Update c) (Checkstyle c) (JSON c) (Sort c) (Vendor c)
    (Skip c) (Exclude c) (Include c) (Concurrency c) v (EnableAll c) (Linters
    c) (Fast c) (Disable c) (Debug c) (Errors c).
Definition set_EnableAll (v : bool) (c : Config) : Config :=
  Build_Config (Format c) (formatTemplate c) (EnableGC c) (VendoredLinters
    c) (Install c) (Update c) (Checkstyle c) (JSON c) (Sort c) (Vendor c)
    (Skip c) (Exclude c) (Include c) (Concurrency c) (Enable c) v (Linters c)
    (Fast c) (Disable c) (Debug c) (Errors c).
Definition set_Linters (v : gmap string LinterConfig) (c : Config) : Config :=
  Build_Config (Format c) (formatTemplate c) (EnableGC c) (VendoredLinters
    c) (Install c) (Update c) (Checkstyle c) (JSON c) (Sort c) (Vendor c)
    (Skip c) (Exclude c) (Include c) (Concurrency c) (Enable c) (EnableAll c)
    v (Fast c) (Disable c) (Debug c) (Errors c).
Definition set_Fast (v : bool) (c : Config) : Config :=
  Build_Config (Format c) (formatTemplate c) (EnableGC c) (VendoredLinters
    c) (Install c) (Update c) (Checkstyle c) (JSON c) (Sort c) (Vendor c)
    (Skip c) (Exclude c) (Include c) (Concurrency c) (Enable c) (EnableAll c)
    (Linters c) v (Disable c) (Debug c) (Errors c).
Definition set_Disable (v : list string) (c : Config) : Config :=
  Build_Config (Format c) (formatTemplate c) (EnableGC c) (VendoredLinters
    c) (Install c) (Update c) (Checkstyle c) (JSON c) (Sort c) (Vendor c)
    (Skip c) (Exclude c) (Include c) (Concurrency c) (Enable c) (EnableAll c)
    (Linters c) (Fast c) v (Debug c) (Errors c).
Definition set_Debug (v : bool) (c : Config) : Config :=
  Build_Config (Format c) (formatTemplate c) (EnableGC c) (VendoredLinters
    c) (Install c) (Update c) (Checkstyle c) (JSON c) (Sort c) (Vendor c)
    (Skip c) (Exclude c) (Include c) (Concurrency c) (Enable c) (EnableAll c)
    (Linters c) (Fast c) (Disable c) v (Errors c).
Definition set_Errors (v : bool) (c : Config) : Config :=
  Build_Config (Format c) (formatTemplate c) (EnableGC c) (VendoredLinters
    c) (Install c) (Update c) (Checkstyle c) (JSON c) (Sort c) (Vendor c)
    (Skip c) (Exclude c) (Include c) (Concurrency c) (Enable c) (EnableAll c)
    (Linters c) (Fast c) (Disable c) (Debug c) v.

(** A JSON configuration file after decoding: for each field of
    [Config], the value the document gives it, if any, and the entries
    it adds to [Linters]. *)
Record ConfigDocument : Type := {
  doc_Format : option (string);
  doc_EnableGC : option (bool);
  doc_VendoredLinters : option (bool);
  doc_Install : option (bool);
  doc_Update : option (bool);
  doc_Checkstyle : option (bool);
  doc_JSON : option (bool);
  doc_Sort : option (list string);
  doc_Vendor : option (bool);
  doc_Skip : option (list string);
  doc_Exclude : option (list string);
  doc_Include : option (list string);
  doc_Concurrency : option (Z);
  doc_Enable : option (list string);
  doc_EnableAll : option (bool);
  doc_Fast : option (bool);
  doc_Disable : option (list string);
  doc_Debug : option (bool);
  doc_Errors : option (bool);
  doc_Linters : gmap string LinterConfig
}.

(** What opening and decoding a named configuration file yields. *)
Inductive ConfigFile : Type :=
| CannotOpen (err : string)
| CannotDecode (err : string)
| Decoded (doc : ConfigDocument).

Definition assign_if {A} (v : option A) (set : A -> Config -> Config)
    (c : Config) : Config :=
  match v with Some a => set a c | None => c end.

(** [json.NewDecoder(r).Decode(config)] for a well-formed document: a
    field that is present is overwritten (a slice is replaced), and the
    entries of [Linters] are added to the map. *)
Definition json_Decode (doc : ConfigDocument) (c : Config) : Config :=
  let c := assign_if (doc_Format doc) set_Format c in
  let c := assign_if (doc_EnableGC doc) set_EnableGC c in
  let c := assign_if (doc_VendoredLinters doc) set_VendoredLinters c in
  let c := assign_if (doc_Install doc) set_Install c in
  let c := assign_if (doc_Update doc) set_Update c in
  let c := assign_if (doc_Checkstyle doc) set_Checkstyle c in
  let c := assign_if (doc_JSON doc) set_JSON c in
  let c := assign_if (doc_Sort doc) set_Sort c in
  let c := assign_if (doc_Vendor doc) set_Vendor c in
  let c := assign_if (doc_Skip doc) set_Skip c in
  let c := assign_if (doc_Exclude doc) set_Exclude c in
  let c := assign_if (doc_Include doc) set_Include c in
  let c := assign_if (doc_Concurrency doc) set_Concurrency c in
  let c := assign_if (doc_Enable doc) set_Enable c in
  let c := assign_if (doc_EnableAll doc) set_EnableAll c in
  let c := assign_if (doc_Fast doc) set_Fast c in
  let c := assign_if (doc_Disable doc) set_Disable c in
  let c := assign_if (doc_Debug doc) set_Debug c in
  let c := assign_if (doc_Errors doc) set_Errors c in
  set_Linters (doc_Linters doc ∪ Linters c) c.

(** ** The process state and the effect monad *)

(** What the process does to the outside world, in order. Messages are
    kept as the format string and its arguments. *)
Inductive Event : Type :=
| EvStdout (s : string)
| EvWarning (format : string) (args : list string)
| EvDebug (format : string) (args : list string)
| EvFatal (format : string) (args : list string)
| EvGOMAXPROCS (n : Z)
| EvRegexpCompile (text : string)
| EvRunLinters (linters : gmap string Linter) (paths : list string).

(** A file tree as [os.Lstat] and the directory reads of
    [filepath.Walk] see it: a file, a directory (whose names may be
    unreadable), or a path that cannot be inspected. *)
#[warnings="-register-all"]
Inductive FsNode : Type :=
| FsFile
| FsDir (readable : bool) (entries : list (string * FsNode))
| FsNone (err : string).

Definition FsNode_IsDir (n : FsNode) : bool :=
  match n with FsDir _ _ => true | _ => false end.

(** The state of the process: the package-level [Configuration], the
    environment variables, the file system, the answer of
    [user.Current()] (home directory or error), the configuration files
    and the events so far. *)
Record World : Type := {
  Configuration : Config;
  environ : gmap string string;
  fs : string -> FsNode;
  current_user : string + string;
  config_file : string -> ConfigFile;
  trace : list Event
}.

Definition with_Configuration (c : Config) (w : World) : World :=
  {| Configuration := c; environ := environ w; fs := fs w;
     current_user := current_user w; config_file := config_file w;
     trace := trace w |}.
Definition with_environ (e : gmap string string) (w : World) : World :=
  {| Configuration := Configuration w; environ := e; fs := fs w;
     current_user := current_user w; config_file := config_file w;
     trace := trace w |}.
Definition with_trace (t : list Event) (w : World) : World :=
  {| Configuration := Configuration w; environ := environ w; fs := fs w;
     current_user := current_user w; config_file := config_file w;
     trace := t |}.

(** How a call ends: it returns, the process exits, or it panics. *)
Inductive Outcome (A : Type) : Type :=
| Ret (a : A)
| Exit (status : Z)
| Panic (msg : string).
Arguments Ret {A} a.
Arguments Exit {A} status.
Arguments Panic {A} msg.

Definition M (A : Type) : Type := World -> Outcome A * World.

Definition ret {A} (a : A) : M A := fun w => (Ret a, w).

Definition bind {A B} (m : M A) (k : A -> M B) : M B :=
  fun w =>
    match m w with
    | (Ret a, w') => k a w'
    | (Exit n, w') => (Exit n, w')
    | (Panic s, w') => (Panic s, w')
    end.

#[global] Instance M_ret : MRet M := @ret.
#[global] Instance M_bind : MBind M := fun A B k m => bind m k.

(** Reading a field of [Configuration] and assigning to it. *)
Definition config {A} (field : Config -> A) : M A :=
  fun w => (Ret (field (Configuration w)), w).
Definition assign (upd : Config -> Config) : M unit :=
  fun w => (Ret tt, with_Configuration (upd (Configuration w)) w).

Definition emit (e : Event) : M unit :=
  fun w => (Ret tt, with_trace (trace w ++ [e]) w).

(** [os.Exit] and a panic. *)
Definition os_Exit {A} (status : Z) : M A := fun w => (Exit status, w).
Definition panic {A} (msg : string) : M A := fun w => (Panic msg, w).

(** [os.Getenv]: the empty string for an unset variable. *)
Definition os_Getenv (key : string) : M string :=
  fun w => (Ret (default "" (environ w !! key)), w).

Definition NUL : ascii := Ascii.zero.

(** [os.Setenv]: fails on an empty key, on ["="] or a NUL byte in the
    key, and on a NUL byte in the value. *)
Definition os_Setenv (key value : string) : M (option string) :=
  fun w =>
    if String.eqb key ""
       || strings.contains_byte "="%char key
       || strings.contains_byte NUL key
       || strings.contains_byte NUL value
    then (Ret (Some "invalid argument"), w)
    else (Ret None, with_environ (<[key := value]> (environ w)) w).

Definition os_Lstat (path : string) : M FsNode :=
  fun w => (Ret (fs w path), w).

Definition user_Current : M (string + string) :=
  fun w => (Ret (current_user w), w).

(** [kingpin.Fatalf] and [kingpin.FatalIfError]: report and exit with
    status 1. *)
Definition kingpin_Fatalf {A} (format : string) (args : list string) : M A :=
  emit (EvFatal format args);; os_Exit 1.
Definition kingpin_FatalIfError (err : option string) (format : string)
    (args : list string) : M unit :=
  match err with
  | Some e => kingpin_Fatalf format (args ++ [e])
  | None => ret tt
  end.

(** A [for _, x := range l] loop whose body only has effects. *)
Fixpoint for_each {A} (l : list A) (body : A -> M unit) : M unit :=
  match l with
  | [] => ret tt
  | x :: l' => body x;; for_each l' body
  end.

(** A [range] loop that updates a local variable of type [S]. *)
Fixpoint for_fold {A S} (l : list A) (body : S -> A -> M S) (s : S) : M S :=
  match l with
  | [] => ret s
  | x :: l' => s' ← body s x; for_fold l' body s'
  end.

(** *** [filepath.Walk] *)

(** What a [WalkFunc] returns besides [nil]. *)
Inductive WalkError : Type :=
| SkipDir
| WalkErr (err : string).

Section Walk.
Context {S : Type}.
(** The callback: path, [IsDir()] of the file info ([None] for a nil
    info), the incoming error, and the variables it closes over. *)
Variable walkFn :
  string -> option bool -> option string -> S -> M (option WalkError * S).

(** [walk(path, info, walkFn)]; [node] is what [Lstat] found at
    [path]. The callback is called on a directory before its names
    are read; [SkipDir] from a directory skips it, [SkipDir] from a
    file ends the enclosing directory, any other error ends the
    walk. *)
Fixpoint walk (path : string) (node : FsNode) (s : S) {struct node}
  : M (option WalkError * S) :=
  match node with
  | FsNone err => walkFn path None (Some err) s
  | FsFile => walkFn path (Some false) None s
  | FsDir readable entries =>
      '(err, s) ← walkFn path (Some true) None s;
      match err with
      | Some SkipDir => ret (None, s)
      | Some e => ret (Some e, s)
      | None =>
          if negb readable
          then walkFn path (Some true) (Some "cannot read directory") s
          else
            (fix loop (entries : list (string * FsNode)) (s : S)
               : M (option WalkError * S) :=
               match entries with
               | [] => ret (None, s)
               | (name, child) :: rest =>
                   let filename := filepath.Join [path; name] in
                   '(err, s) ← walk filename child s;
                   match err with
                   | None => loop rest s
                   | Some SkipDir =>
                       match child with
                       | FsFile => ret (Some SkipDir, s)
                       | _ => loop rest s
                       end
                   | Some e => ret (Some e, s)
                   end
               end) entries s
      end
  end.

(** [filepath.Walk(root, walkFn)]. *)
Definition filepath_Walk (root : string) (s : S) : M (option WalkError * S) :=
  node ← os_Lstat root;
  '(err, s) ← walk root node s;
  match err with
  | Some SkipDir => ret (None, s)
  | _ => ret (err, s)
  end.
End Walk.

(** ** Collaborators that live outside [main.go]

    The template and regular-expression parsers, the linter registry,
    the scheduler and the renderers that [main.go] calls. A result
    [(v, err)] of Go is a sum: [inl v] on success, [inr err] on error. *)
Class Externals : Type := {
  (** [template.New("output").Parse(text)]. *)
  template_Parse : string -> Template + string;
  (** [regexp.Compile(text)]. *)
  regexp_Compile : string -> Regexp + string;
  (** [getLinterByName(name, overrideConf)]. *)
  getLinterByName : string -> LinterConfig -> Linter;
  (** [validateLinters(linters, config)]: the error, if any. *)
  validateLinters : gmap string Linter -> Config -> option string;
  (** [runLinters]: the issues and the errors its two channels deliver,
      each in the order received. *)
  runLinters : gmap string Linter -> list string -> Z ->
               option Regexp -> option Regexp -> World ->
               list Issue * list string;
  (** [installLinters()]. *)
  installLinters : M unit;
  (** [issue.String()]. *)
  Issue_String : Issue -> string;
  (** [json.Marshal(issue)]. *)
  json_Marshal : Issue -> string + string;
  (** [outputToCheckstyle(issues)]. *)
  outputToCheckstyle : list Issue -> M Z;
  (** The names in [DefaultLinters], in the order a [range] visits
      them. *)
  DefaultLinters : list string;
  (** [ParseLinterConfigSpec(name, spec)]. *)
  ParseLinterConfigSpec : string -> string -> LinterConfig + string
}.

(** The line feed. *)
Definition LF : string := String (ascii_of_nat 10) EmptyString.

(** [sort.Strings]: ascending byte-wise order. *)
Definition sort_Strings (l : list string) : list string :=
  merge_sort String.le l.

(** The set of strings behind [newStringSet], [add] and [asSlice]
    (stringset.go is not among the sources): an element is in the set
    once, however often it is added, and the slice lists the elements
    in no particular order. [sort.Strings] makes the order
    irrelevant. *)
Definition newStringSet : gset string := ∅.
Definition stringSet_add (s : gset string) (item : string) : gset string :=
  {[item]} ∪ s.
Definition stringSet_asSlice (s : gset string) : list string := elements s.

(** ** [main.go] *)

Section Program.
Context `{Externals}.

(** Locations to look for vendored linters. *)
Definition vendoredSearchPaths : list (list string) :=
  [ ["github.com"; "alecthomas"; "gometalinter"; "_linters"];
    ["gopkg.in"; "alecthomas"; "gometalinter.v1"; "_linters"] ].

Definition debug (format : string) (args : list string) : M unit :=
  d ← config Debug;
  if d : bool then emit (EvDebug format args) else ret tt.

Definition warning (format : string) (args : list string) : M unit :=
  emit (EvWarning format args).

(** [regexp.MustCompile]: panics when the text does not compile. *)
Definition regexp_MustCompile (text : string) : M Regexp :=
  emit (EvRegexpCompile text);;
  match regexp_Compile text with
  | inl re => ret re
  | inr err => panic err
  end.

Definition update_ignored : string :=
  "Linters are now vendored by default, --update ignored. The original
behaviour can be re-enabled with --no-vendored-linters.

To request an update for a vendored linter file an issue at:
https://github.com/alecthomas/gometalinter/issues/new
".

(** [processConfig(config)], with [config] pointing to
    [Configuration] as at its only call; the result is
    [(include, exclude)]. *)
Definition processConfig : M (option Regexp * option Regexp) :=
  format ← config Format;
  match template_Parse format with
  | inr err => kingpin_Fatalf "invalid format %q" [format; err]
  | inl tmpl =>
      assign (set_formatTemplate (Some tmpl));;
      (* Linters are short lived, so disable GC. *)
      enableGC ← config EnableGC;
      (if negb enableGC then _ ← os_Setenv "GOGC" "off"; ret tt else ret tt);;
      vendored ← config VendoredLinters;
      install ← config Install;
      update ← config Update;
      (if vendored && install && update
       then warning update_ignored [];; assign (set_Update false)
       else ret tt);;
      (* Force sorting by path if checkstyle mode is selected; the
         JSON check handles --json --checkstyle --sort=severity. *)
      checkstyle ← config Checkstyle;
      json ← config JSON;
      (if checkstyle && negb json
       then assign (set_Sort ["path"])
       else ret tt);;
      experiment ← os_Getenv "GO15VENDOREXPERIMENT";
      vendor ← config Vendor;
      (if String.eqb experiment "1" || vendor
       then
         err ← os_Setenv "GO15VENDOREXPERIMENT" "1";
         match err with
         | Some e => warning "setenv GO15VENDOREXPERIMENT: %s" [e]
         | None => ret tt
         end;;
         skip ← config Skip;
         assign (set_Skip (skip ++ ["vendor"]));;
         assign (set_Vendor true)
       else ret tt);;
      excludes ← config Exclude;
      exclude ← (if (0 <? length excludes)%nat
                 then re ← regexp_MustCompile (strings.Join excludes "|");
                      ret (Some re)
                 else ret None);
      includes ← config Include;
      include ← (if (0 <? length includes)%nat
                 then re ← regexp_MustCompile (strings.Join includes "|");
                      ret (Some re)
                 else ret None);
      concurrency ← config Concurrency;
      emit (EvGOMAXPROCS concurrency);;
      ret (include, exclude)
  end.

Definition outputToConsole (issues : list Issue) : M Z :=
  for_fold issues (fun status issue =>
    errors ← config Errors;
    if errors && negb (Severity_eqb (issue_Severity issue) Error)
    then ret status
    else emit (EvStdout (Issue_String issue +:+ LF));; ret 1) 0.

Definition outputToJSON (issues : list Issue) : M Z :=
  emit (EvStdout ("[" +:+ LF));;
  status ← for_fold issues (fun status issue =>
    errors ← config Errors;
    if errors && negb (Severity_eqb (issue_Severity issue) Error)
    then ret status
    else
      (if negb (status =? 0)%Z then emit (EvStdout ("," +:+ LF)) else ret tt);;
      match json_Marshal issue with
      | inr err => kingpin_Fatalf "" [err]
      | inl d => emit (EvStdout ("  " +:+ d));; ret 1
      end) 0;
  emit (EvStdout (LF +:+ "]" +:+ LF));;
  ret status.

Definition relativePackagePath (dir : string) : string :=
  if filepath.IsAbs dir || strings.HasPrefix dir "." then dir
  else (* package names must start with a ./ *) "./" +:+ dir.

Definition newPathFilter (skip : list string) : string -> bool :=
  let filter : gmap string bool :=
    fold_left (fun filter name => <[name := true]> filter) skip ∅ in
  fun path =>
    let base := filepath.Base path in
    if default false (filter !! base) || default false (filter !! path)
    then true
    else negb (String.eqb base ".") && negb (String.eqb base "..")
         && strings.ContainsAny (String.substring 0 1 base) "_.".

(** The function literal that [resolvePaths] hands to
    [filepath.Walk]; it closes over [skipPath] and [dirs]. *)
Definition resolvePaths_walkFn (skipPath : string -> bool)
    (p : string) (i : option bool) (err : option string)
    (dirs : gset string) : M (option WalkError * gset string) :=
  match err with
  | Some e =>
      warning "invalid path %q: %s" [p; e];; ret (Some (WalkErr e), dirs)
  | None =>
      match i with
      | None => panic "invalid memory address or nil pointer dereference"
      | Some isDir =>
          let skip := skipPath p in
          if isDir && skip then ret (Some SkipDir, dirs)
          else if negb isDir && negb skip && strings.HasSuffix p ".go"
          then ret (None, stringSet_add dirs
                            (filepath.Clean (filepath.Dir p)))
          else ret (None, dirs)
      end
  end.

Definition resolvePaths (paths skip : list string) : M (list string) :=
  if (length paths =? 0)%nat then ret ["."]
  else
    let skipPath := newPathFilter skip in
    dirs ← for_fold paths (fun dirs path =>
      if strings.HasSuffix path "/..."
      then
        let root := filepath.Dir path in
        '(_, dirs) ← filepath_Walk (resolvePaths_walkFn skipPath) root dirs;
        ret dirs
      else ret (stringSet_add dirs (filepath.Clean path))) newStringSet;
    let out := relativePackagePath <$> stringSet_asSlice dirs in
    let out := sort_Strings out in
    for_each out (fun d => debug "linting path %s" [d]);;
    ret out.

(** The local variables of the loop of [replaceWithMegacheck]. *)
Record megacheckScan : Type := {
  staticcheck : bool;
  gosimple : bool;
  unused : bool;
  revised : list string
}.

Definition megacheck_case (v : megacheckScan) (linter : string)
  : megacheckScan :=
  if String.eqb linter "staticcheck" then
    {| staticcheck := true; gosimple := gosimple v; unused := unused v;
       revised := revised v |}
  else if String.eqb linter "gosimple" then
    {| staticcheck := staticcheck v; gosimple := true; unused := unused v;
       revised := revised v |}
  else if String.eqb linter "unused" then
    {| staticcheck := staticcheck v; gosimple := gosimple v; unused := true;
       revised := revised v |}
  else if String.eqb linter "megacheck" then
    (* Don't add to revised slice, we'll add it later *)
    v
  else
    {| staticcheck := staticcheck v; gosimple := gosimple v;
       unused := unused v; revised := revised v ++ [linter] |}.

(** [replaceWithMegacheck] checks enabled linters if they duplicate
    megacheck and returns either a revised list removing those and
    adding megacheck or an unchanged slice. *)
Definition replaceWithMegacheck (enabled : list string) (enableAll : bool)
  : M (list string) :=
  let v := fold_left megacheck_case enabled
             {| staticcheck := false; gosimple := false; unused := false;
                revised := [] |} in
  if staticcheck v && gosimple v && unused v
  then
    (if negb enableAll
     then warning
            "staticcheck, gosimple and unused are all set, using megacheck instead"
            []
     else ret tt);;
    ret (revised v ++ ["megacheck"])
  else ret enabled.

(** [LinterConfig(config.Linters[name])]. *)
Definition Linters_at (linters : gmap string LinterConfig) (name : string)
  : LinterConfig :=
  default LinterConfig_zero (linters !! name).

Definition lintersFromConfig : M (gmap string Linter) :=
  enable ← config Enable;
  enableAll ← config EnableAll;
  enable ← replaceWithMegacheck enable enableAll;
  assign (set_Enable enable);;
  enable ← config Enable;
  overrides ← config Linters;
  fast ← config Fast;
  let out : gmap string Linter :=
    fold_left (fun out name =>
      let linter := getLinterByName name (Linters_at overrides name) in
      if fast && negb (IsFast (linterConfig linter)) then out
      else <[name := linter]> out) enable ∅ in
  disable ← config Disable;
  let out := fold_left (fun out linter => delete linter out) disable out in
  ret out.

(** [os.PathListSeparator]. *)
Definition PathListSeparator : ascii := ":"%char.

(** Go 1.8 compatible GOPATH. *)
Definition getGoPath : M string :=
  path ← os_Getenv "GOPATH";
  if String.eqb path ""
  then
    user ← user_Current;
    match user with
    | inr err => kingpin_Fatalf "" [err]
    | inl homeDir => ret (filepath.Join [homeDir; "go"])
    end
  else ret path.

Definition getGoPathList : M (list string) :=
  path ← getGoPath;
  ret (strings.Split path PathListSeparator).

(** [os.Stat(path)] succeeds. *)
Definition os_Stat_ok (path : string) : M bool :=
  node ← os_Lstat path;
  ret (match node with FsNone _ => false | _ => true end).

Fixpoint first_existing (candidates : list string) : M string :=
  match candidates with
  | [] => ret ""
  | vendorRoot :: rest =>
      ok ← os_Stat_ok vendorRoot;
      if ok : bool then ret vendorRoot else first_existing rest
  end.

Definition findVendoredLinters : M string :=
  gopaths ← getGoPathList;
  first_existing
    (concat (map (fun home =>
               map (fun p => filepath.Join ([p; "src"] ++ home)) gopaths)
             vendoredSearchPaths)).

(** [addPath] appends path to paths if path does not already exist in
    paths. *)
Definition addPath (paths : list string) (path : string) : list string :=
  if existsb (String.eqb path) paths then paths else paths ++ [path].

Definition setEnv (key value : string) : M unit :=
  err ← os_Setenv key value;
  match err with
  | Some e => warning "setenv %s: %s" [key; e]
  | None => ret tt
  end.

Definition debugPrintEnv : M unit :=
  v ← os_Getenv "PATH"; debug "PATH=%s" [v];;
  v ← os_Getenv "GOPATH"; debug "GOPATH=%s" [v];;
  v ← os_Getenv "GOBIN"; debug "GOBIN=%s" [v].

Definition addGoBinsToPath (gopaths : list string) : M (list string) :=
  path ← os_Getenv "PATH";
  let paths := strings.Split path PathListSeparator in
  let paths :=
    fold_left (fun paths p => addPath paths (filepath.Join [p; "bin"]))
              gopaths paths in
  gobin ← os_Getenv "GOBIN";
  ret (if negb (String.eqb gobin "") then addPath paths gobin else paths).

(** [configureEnvironment] adds all [bin/] directories from $GOPATH
    to $PATH. *)
Definition configureEnvironment : M unit :=
  gopaths ← getGoPathList;
  paths ← addGoBinsToPath gopaths;
  setEnv "PATH" (strings.Join paths ":");;
  debugPrintEnv.

(** [configureEnvironmentForInstall] sets GOPATH and GOBIN so that
    vendored linters can be installed. *)
Definition configureEnvironmentForInstall : M unit :=
  gopaths ← getGoPathList;
  vendorRoot ← findVendoredLinters;
  (if String.eqb vendorRoot ""
   then gopath ← getGoPath;
        kingpin_Fatalf "could not find vendored linters in GOPATH=%q" [gopath]
   else ret tt);;
  debug "found vendored linters at %s, updating environment" [vendorRoot];;
  gobin ← os_Getenv "GOBIN";
  let gobin := if String.eqb gobin ""
               then filepath.Join [hd "" gopaths; "bin"] else gobin in
  setEnv "GOBIN" gobin;;
  setEnv "GOPATH" vendorRoot;;
  debugPrintEnv.

(** Lines 54 to 62 of [Run]: everything that happens before the
    linters are started. *)
Definition Run_startup (paths : list string)
  : M (gmap string Linter * list string * option Regexp * option Regexp) :=
  configureEnvironment;;
  '(include, exclude) ← processConfig;
  skip ← config Skip;
  resolvedPaths ← resolvePaths paths skip;
  linters ← lintersFromConfig;
  cfg ← config id;
  kingpin_FatalIfError (validateLinters linters cfg) "" [];;
  ret (linters, resolvedPaths, exclude, include).

(** Lines 64 to 79 of [Run]: the linters run, the issues are
    rendered, the errors are reported and the process exits. Each of
    the two channels is read until it is closed. *)
Definition Run_report
    (args : gmap string Linter * list string * option Regexp * option Regexp)
  : M unit :=
  let '(linters, resolvedPaths, exclude, include) := args in
  concurrency ← config Concurrency;
  emit (EvRunLinters linters resolvedPaths);;
  '(issues, errch) ← (fun w =>
     (Ret (runLinters linters resolvedPaths concurrency exclude include w),
      w));
  json ← config JSON;
  checkstyle ← config Checkstyle;
  rendered ← (if json : bool then outputToJSON issues
              else if checkstyle : bool then outputToCheckstyle issues
              else outputToConsole issues);
  let status := Z.lor 0 rendered in
  status ← for_fold errch (fun status err =>
              warning "%s" [err];; ret (Z.lor status 2)) status;
  debug "total elapsed time %s" [];;
  os_Exit status.

Definition Run (paths : list string) : M unit :=
  install ← config Install;
  if install : bool
  then
    vendored ← config VendoredLinters;
    (if vendored : bool then configureEnvironmentForInstall else ret tt);;
    installLinters
  else
    args ← Run_startup paths;
    Run_report args.

End Program.

(** ** The command line (package main) *)

Module Main.

Definition sortKeys : list string :=
  ["none"; "path"; "line"; "column"; "severity"; "message"; "linter"].

(** The boolean flags bound to a field of [Configuration]. *)
Inductive BoolFlag : Type :=
| vendored_linters | fast | install | update | debug | vendor
| errors | json | checkstyle | enable_gc.

(** One occurrence of a flag on the command line, with its value.
    Only the flags that reach the fields of [Config] modelled here
    are listed. *)
Inductive Flag : Type :=
| flag_config (file : string)
| flag_disable (linter : string)
| flag_enable (linter : string)
| flag_linter (value : string)
| flag_disable_all
| flag_enable_all
| flag_format (v : string)
| flag_bool (f : BoolFlag) (v : bool)
| flag_concurrency (v : Z)
| flag_exclude (v : string)
| flag_include (v : string)
| flag_skip (v : string)
| flag_sort (v : string).

(** A command-line argument: a flag or a path. *)
Inductive Arg : Type :=
| arg_flag (f : Flag)
| arg_path (path : string).

Definition set_BoolFlag (f : BoolFlag) : bool -> Config -> Config :=
  match f with
  | vendored_linters => set_VendoredLinters
  | fast => set_Fast
  | install => set_Install
  | update => set_Update
  | debug => set_Debug
  | vendor => set_Vendor
  | errors => set_Errors
  | json => set_JSON
  | checkstyle => set_Checkstyle
  | enable_gc => set_EnableGC
  end.

(** [EnumsVar(target, options...)]: a value among the options is
    appended to the target, any other value is an error. *)
Definition enums_Set (options : list string) (value : string)
    (target : list string) : list string + string :=
  if existsb (String.eqb value) options
  then inl (target ++ [value])
  else inr ("enum value must be one of " +:+ strings.Join options ","
            +:+ ", got '" +:+ value +:+ "'").

(** Storing the value of one flag occurrence in the variable that
    [setupFlags] binds the flag to. The flags with an action keep
    their value in a variable of their own. *)
Definition set_value (f : Flag) (c : Config) : Config + string :=
  match f with
  | flag_config _ | flag_disable _ | flag_enable _
  | flag_disable_all | flag_enable_all => inl c
  | flag_linter v =>
      (* [StringMap()]: the value is split at the first [":"] or
         ["="] and kept in a map of the flag's own. *)
      if strings.contains_byte ":"%char v || strings.contains_byte "="%char v
      then inl c
      else inr ("expected KEY=VALUE got '" +:+ v +:+ "'")
  | flag_format v => inl (set_Format v c)
  | flag_bool b v => inl (set_BoolFlag b v c)
  | flag_concurrency v => inl (set_Concurrency v c)
  | flag_exclude v => inl (set_Exclude (Exclude c ++ [v]) c)
  | flag_include v => inl (set_Include (Include c ++ [v]) c)
  | flag_skip v => inl (set_Skip (Skip c ++ [v]) c)
  | flag_sort v =>
      match enums_Set sortKeys v (Sort c) with
      | inl keys => inl (set_Sort keys c)
      | inr err => inr err
      end
  end.

(** Removes the first occurrence of [x], as the inner loop of
    [loadConfig] does. *)
Fixpoint remove_first (x : string) (l : list string) : list string :=
  match l with
  | [] => []
  | y :: l' => if String.eqb y x then l' else y :: remove_first x l'
  end.

Section Actions.
Context `{Externals}.

(** [cliLinterOverrides], the action of [--linter]; the expected
    input structure is [<name>:<command-spec>]. The map
    [Configuration.Linters] is allocated, as the tests of the flag
    have it. *)
Definition cliLinterOverrides (value : string) : M (option string) :=
  let parts := strings.SplitN2 value ":"%char in
  if (length parts <? 2)%nat
  then ret (Some ("incorrectly formatted input: " +:+ value))
  else
    let name := nth 0 parts "" in
    let spec := nth 1 parts "" in
    match ParseLinterConfigSpec name spec with
    | inr _ => ret (Some ("incorrectly formatted input: " +:+ value))
    | inl conf =>
        linters ← config Linters;
        assign (set_Linters (<[name := conf]> linters));;
        ret None
    end.

Definition loadConfig (file : string) : M (option string) :=
  fun w =>
    match config_file w file with
    | CannotOpen err => (Ret (Some err), w)
    | CannotDecode err => (Ret (Some err), w)
    | Decoded doc =>
        let c := json_Decode doc (Configuration w) in
        let enable :=
          fold_left (fun enable disable => remove_first disable enable)
                    (Disable c) (Enable c) in
        (Ret None, with_Configuration (set_Enable enable c) w)
    end.

Definition disableAction (value : string) : M (option string) :=
  enable ← config Enable;
  assign (set_Enable
            (filter (fun linter => linter ≠ value) enable));;
  ret None.

Definition enableAction (value : string) : M (option string) :=
  enable ← config Enable;
  assign (set_Enable (enable ++ [value]));;
  ret None.

Definition disableAllAction : M (option string) :=
  assign (set_Enable []);; ret None.

Definition enableAllAction : M (option string) :=
  for_each DefaultLinters (fun linter =>
    enable ← config Enable;
    assign (set_Enable (enable ++ [linter])));;
  assign (set_EnableAll true);;
  ret None.

(** The action that [setupFlags] attaches to a flag. *)
Definition action (f : Flag) : M (option string) :=
  match f with
  | flag_config file => loadConfig file
  | flag_disable v => disableAction v
  | flag_enable v => enableAction v
  | flag_linter v => cliLinterOverrides v
  | flag_disable_all => disableAllAction
  | flag_enable_all => enableAllAction
  | _ => ret None
  end.

(** The values of all flags are stored, in command-line order. *)
Fixpoint set_values (flags : list Flag) (c : Config) : Config + string :=
  match flags with
  | [] => inl c
  | f :: rest =>
      match set_value f c with
      | inl c' => set_values rest c'
      | inr err => inr err
      end
  end.

(** The actions run in command-line order, up to the first error. *)
Fixpoint run_actions (flags : list Flag) : M (option string) :=
  match flags with
  | [] => ret None
  | f :: rest =>
      err ← action f;
      match err with
      | Some e => ret (Some e)
      | None => run_actions rest
      end
  end.

Definition flags_of (args : list Arg) : list Flag :=
  omap (fun a => match a with arg_flag f => Some f | _ => None end) args.
Definition paths_of (args : list Arg) : list string :=
  omap (fun a => match a with arg_path p => Some p | _ => None end) args.

(** [app.Parse(args)] of kingpin: the values of the flags are
    stored first, then the actions of the flags run, both in
    command-line order; the result is the error, if any. *)
Definition Parse (args : list Arg) : M (option string) :=
  c ← config id;
  match set_values (flags_of args) c with
  | inr err => ret (Some err)
  | inl c' => assign (fun _ => c');; run_actions (flags_of args)
  end.

(** [main]: [kingpin.Parse()] is fatal on a parse error; then the
    linters run on the path arguments. *)
Definition main (args : list Arg) : M unit :=
  err ← Parse args;
  match err with
  | Some e => kingpin_Fatalf "%s, try --help" [e]
  | None => Run (paths_of args)
  end.
End Actions.

End Main.

(** ** Definitions used to state the properties *)

Section Statements.
Context `{Externals}.

(** The three linters that megacheck combines, and megacheck. *)
Definition megacheck_family : list string :=
  ["staticcheck"; "gosimple"; "unused"; "megacheck"].

(** The list of enabled linters after the substitution. *)
Definition megacheck_revision (enabled : list string) : list string :=
  if decide ("staticcheck" ∈ enabled ∧ "gosimple" ∈ enabled
             ∧ "unused" ∈ enabled)
  then filter (λ x, x ∉ megacheck_family) enabled ++ ["megacheck"]
  else enabled.

(** The body of the first loop of [lintersFromConfig]. *)
Definition add_linter (overrides : gmap string LinterConfig) (fast : bool)
    (out : gmap string Linter) (name : string) : gmap string Linter :=
  let linter := getLinterByName name (Linters_at overrides name) in
  if fast && negb (IsFast (linterConfig linter)) then out
  else <[name := linter]> out.

(** A list of patterns is empty or its alternation compiles. *)
Definition pattern_ok (patterns : list string) : bool :=
  match patterns with
  | [] => true
  | _ => match regexp_Compile (strings.Join patterns "|") with
         | inl _ => true
         | inr _ => false
         end
  end.

(** The regular expression for a list of patterns: none for the
    empty list, else the compiled alternation. *)
Definition compiled (patterns : list string) : option Regexp :=
  match patterns with
  | [] => None
  | _ => match regexp_Compile (strings.Join patterns "|") with
         | inl re => Some re
         | inr _ => None
         end
  end.

(** The texts compiled for a list of patterns. *)
Definition compilations_of (patterns : list string) : list string :=
  match patterns with [] => [] | _ => [strings.Join patterns "|"] end.

(** The texts handed to the regular-expression compiler, in order. *)
Definition regexp_compilations (evs : list Event) : list string :=
  omap (λ e, match e with EvRegexpCompile text => Some text | _ => None end)
       evs.

(** [Configuration] after a successful [processConfig]; [experiment]
    is the value of GO15VENDOREXPERIMENT. *)
Definition after_processConfig (tmpl : Template) (experiment : string)
    (c : Config) : Config :=
  let c := set_formatTemplate (Some tmpl) c in
  let c := if VendoredLinters c && Install c && Update c
           then set_Update false c else c in
  let c := if Checkstyle c && negb (JSON c) then set_Sort ["path"] c else c in
  if String.eqb experiment "1" || Vendor c
  then set_Vendor true (set_Skip (Skip c ++ ["vendor"]) c)
  else c.

(** Did the linters start among these events? *)
Definition jobs_started (evs : list Event) : bool :=
  existsb (λ e, match e with EvRunLinters _ _ => true | _ => false end) evs.

End Statements.

(** The events of [w'] are those of [w] and further ones, none of
    which starts the linters. *)
Definition trace_step (w w' : World) : Prop :=
  ∃ evs, trace w' = trace w ++ evs ∧ jobs_started evs = false.

(** As [trace_step], and [Configuration] is unchanged. *)
Definition quiet_step (w w' : World) : Prop :=
  Configuration w' = Configuration w ∧ trace_step w w'.

(** A directory found by the recursive expansion: the cleaned
    directory of a Go file that the path filter does not skip. *)
Definition discovered (skipPath : string → bool) (d : string) : Prop :=
  ∃ f, skipPath f = false ∧ strings.HasSuffix f ".go" = true
       ∧ d = filepath.Clean (filepath.Dir f).

(** A directory listed explicitly among [paths], cleaned. *)
Definition listed (paths : list string) (d : string) : Prop :=
  ∃ p, p ∈ paths ∧ strings.HasSuffix p "/..." = false
       ∧ d = filepath.Clean p.

(** An element that [filepath.Clean] keeps: not empty, not ["."], and
    free of separators. *)
Definition elem_ok (e : string) : Prop :=
  e ≠ "" ∧ e ≠ "." ∧ strings.contains_byte "/" e = false.

(** The invariant of the loop over [paths] in [resolvePaths]: the set
    holds the listed directories seen so far, and besides them only
    discovered ones. *)
Definition dirs_invariant (skipPath : string → bool) (seen : list string)
    (dirs : gset string) : Prop :=
  (∀ d, listed seen d → d ∈ dirs)
  ∧ (∀ d, d ∈ dirs → listed seen d ∨ discovered skipPath d).

(** The error of [getGoPath], if any: GOPATH is unset or empty and the
    current user cannot be determined. *)
Definition gopath_error (w : World) : option string :=
  if String.eqb (default "" (environ w !! "GOPATH")) ""
  then match current_user w with inr err => Some err | inl _ => None end
  else None.

(** The result [r] of a call started in [w] ends in [out], and no
    linter was started on the way. *)
Definition ends_before_jobs {A} (w : World) (r : Outcome A * World)
    (out : Outcome A) : Prop :=
  ∃ w', r = (out, w') ∧ trace_step w w'.

Section Rendering.
Context `{Externals}.

(** Is the issue printed, given the [Errors] option? *)
Definition shown (c : Config) (issue : Issue) : bool :=
  negb (Errors c && negb (Severity_eqb (issue_Severity issue) Error)).

(** The renderer that [Run] selects. *)
Definition renderer (c : Config) (issues : list Issue) : M Z :=
  if JSON c then outputToJSON issues
  else if Checkstyle c then outputToCheckstyle issues
  else outputToConsole issues.

(** The status a renderer of [main.go] returns: 1 when an issue was
    printed. *)
Definition rendered_bit (c : Config) (issues : list Issue) : Z :=
  if existsb (shown c) issues then 1 else 0.

(** The lines that [outputToConsole] prints. *)
Definition console_lines (c : Config) (issues : list Issue) : list Event :=
  (λ issue, EvStdout (Issue_String issue +:+ LF))
    <$> List.filter (shown c) issues.

(** The warnings that [Run] prints for the linter errors. *)
Definition error_warnings (errs : list string) : list Event :=
  (λ err, EvWarning "%s" [err]) <$> errs.

(** The world in which the linters have just been started. *)
Definition started (linters : gmap string Linter) (paths : list string)
    (w : World) : World :=
  with_trace (trace w ++ [EvRunLinters linters paths]) w.

(** The contribution of the linter errors to the exit status. *)
Definition diagnostics_bit (errs : list string) : Z :=
  match errs with [] => 0 | _ => 2 end.
End Rendering.

Section Startup.
Context `{Externals}.

(** How the start-up of [Run] ends: with the error of [getGoPath],
    with the failure of [processConfig], or with the verdict of
    [validateLinters] on the linters built. *)
Inductive startup_result (paths : list string) (w : World)
  : Outcome (gmap string Linter * list string * option Regexp * option Regexp)
    → World → Prop :=
| startup_gopath err :
    gopath_error w = Some err →
    startup_result paths w (Exit 1)
      (with_trace (trace w ++ [EvFatal "" [err]]) w)
| startup_processConfig w1 out w2 :
    configureEnvironment w = (Ret tt, w1) → quiet_step w w1 →
    processConfig w1 = (out, w2) → (∀ r, out ≠ Ret r) →
    startup_result paths w
      (match out with Ret _ => Exit 0 | Exit n => Exit n | Panic s => Panic s end)
      w2
| startup_validate w1 include exclude w2 resolved w3 linters w4 :
    configureEnvironment w = (Ret tt, w1) → quiet_step w w1 →
    processConfig w1 = (Ret (include, exclude), w2) →
    resolvePaths paths (Skip (Configuration w2)) w2 = (Ret resolved, w3) →
    quiet_step w2 w3 →
    lintersFromConfig w3 = (Ret linters, w4) →
    startup_result paths w
      (match validateLinters linters (Configuration w4) with
       | Some err => Exit 1
       | None => Ret (linters, resolved, exclude, include)
       end)
      (match validateLinters linters (Configuration w4) with
       | Some err => with_trace (trace w4 ++ [EvFatal "" [err]]) w4
       | None => w4
       end).

End Startup.

(** ** A concrete installation

    A small linter registry, a file tree and a few configurations, on
    which the program can be run. *)

Module Scenario.

Definition fast_linters : list string := ["golint"; "vet"; "gofmt"].

Definition known_linters : list string :=
  fast_linters ++
  ["errcheck"; "staticcheck"; "gosimple"; "unused"; "megacheck"].

(** A template with an unclosed action does not parse. *)
Definition parse_template (text : string) : Template + string :=
  if strings.HasSuffix text "{{" then inr "template: output:1: unclosed action"
  else inl {| template_text := text |}.

(** A pattern that ends in an open parenthesis does not compile. *)
Definition compile_regexp (text : string) : Regexp + string :=
  if strings.HasSuffix text "(" then inr "error parsing regexp: missing closing )"
  else inl {| regexp_text := text |}.

Definition linter_by_name (name : string) (override : LinterConfig) : Linter :=
  {| Name := name;
     linterConfig :=
       {| Command := if String.eqb (Command override) ""
                     then name else Command override;
          Pattern := Pattern override;
          InstallFrom := InstallFrom override;
          IsFast := bool_decide (name ∈ fast_linters) |} |}.

(** Linters that are neither known nor defined in the configuration
    are rejected. *)
Definition validate (linters : gmap string Linter) (c : Config)
  : option string :=
  match filter (λ name, (name ∉ known_linters) ∧ Linters c !! name = None)
               (elements (dom linters)) with
  | [] => None
  | unknown => Some ("unknown linters: " +:+ strings.Join unknown ", ")
  end.

(** golint reports a warning and vet an error on every path;
    errcheck cannot be started. *)
Definition run (linters : gmap string Linter) (paths : list string)
    (concurrency : Z) (exclude include : option Regexp) (w : World)
  : list Issue * list string :=
  (flat_map (λ path,
     (if bool_decide (is_Some (linters !! "golint"))
      then [ {| issue_Linter := "golint"; issue_Severity := Warning;
                issue_Path := path; issue_Line := 3; issue_Col := 1;
                issue_Message := "exported function should have comment" |} ]
      else []) ++
     (if bool_decide (is_Some (linters !! "vet"))
      then [ {| issue_Linter := "vet"; issue_Severity := Error;
                issue_Path := path; issue_Line := 7; issue_Col := 0;
                issue_Message := "unreachable code" |} ]
      else [])) paths,
   if bool_decide (is_Some (linters !! "errcheck"))
   then ["errcheck: executable file not found in $PATH"] else []).

(** A definition [command:pattern]. *)
Definition parse_linter_spec (name spec : string) : LinterConfig + string :=
  match strings.Cut spec ":"%char with
  | Some (command, pattern) =>
      inl {| Command := command; Pattern := pattern; InstallFrom := "";
             IsFast := false |}
  | None => inr ("linter definition of " +:+ name +:+ " has no pattern")
  end.

Definition issue_string (issue : Issue) : string :=
  issue_Path issue +:+ ": " +:+ issue_Message issue
  +:+ " (" +:+ issue_Linter issue +:+ ")".

#[export] Instance externals : Externals := {|
  template_Parse := parse_template;
  regexp_Compile := compile_regexp;
  getLinterByName := linter_by_name;
  validateLinters := validate;
  runLinters := run;
  installLinters := ret tt;
  Issue_String := issue_string;
  json_Marshal := λ issue, inl ("{" +:+ issue_string issue +:+ "}");
  outputToCheckstyle := λ issues,
    emit (EvStdout "<checkstyle></checkstyle>");;
    ret (match issues with [] => 0 | _ => 1 end);
  DefaultLinters := known_linters;
  ParseLinterConfigSpec := parse_linter_spec
|}.

(** The same installation with a [validateLinters] that accepts
    every linter set. *)
Definition lenient : Externals := {|
  template_Parse := parse_template;
  regexp_Compile := compile_regexp;
  getLinterByName := linter_by_name;
  validateLinters := λ _ _, None;
  runLinters := run;
  installLinters := ret tt;
  Issue_String := issue_string;
  json_Marshal := λ issue, inl ("{" +:+ issue_string issue +:+ "}");
  outputToCheckstyle := λ issues,
    emit (EvStdout "<checkstyle></checkstyle>");;
    ret (match issues with [] => 0 | _ => 1 end);
  DefaultLinters := known_linters;
  ParseLinterConfigSpec := parse_linter_spec
|}.

(** The default configuration. *)
Definition config0 : Config := {|
  Format := "{{.Path}}:{{.Line}}:{{.Col}}:{{.Severity}}: {{.Message}}";
  formatTemplate := None;
  EnableGC := false;
  VendoredLinters := true;
  Install := false;
  Update := false;
  Checkstyle := false;
  JSON := false;
  Sort := ["none"];
  Vendor := false;
  Skip := [];
  Exclude := [];
  Include := [];
  Concurrency := 4;
  Enable := ["golint"; "vet"; "errcheck"];
  EnableAll := false;
  Linters := ∅;
  Fast := false;
  Disable := [];
  Debug := false;
  Errors := false
|}.

Definition gofile : string * FsNode := ("file.go", FsFile).

Definition package (name : string) (entries : list (string * FsNode))
  : string * FsNode :=
  (name, FsDir true (gofile :: entries)).

(** The tree of [TestResolvePathsWithExpands]. *)
Definition tree : FsNode :=
  FsDir true
    [ package ".exclude" []; package "_exclude" []; package "duplicate" [];
      package "exclude" []; gofile;
      package "include"
        [package ".exclude" []; package "_exclude" []; package "foo" []];
      ("other", FsDir true [package "exclude" []]) ].

Definition empty_document : ConfigDocument := {|
  doc_Format := None; doc_EnableGC := None; doc_VendoredLinters := None;
  doc_Install := None; doc_Update := None; doc_Checkstyle := None;
  doc_JSON := None; doc_Sort := None; doc_Vendor := None; doc_Skip := None;
  doc_Exclude := None; doc_Include := None; doc_Concurrency := None;
  doc_Enable := None; doc_EnableAll := None; doc_Fast := None;
  doc_Disable := None; doc_Debug := None; doc_Errors := None;
  doc_Linters := ∅
|}.

(** The document [{"Sort": ["bogus"]}]. *)
Definition bogus_sort_document : ConfigDocument := {|
  doc_Format := None; doc_EnableGC := None; doc_VendoredLinters := None;
  doc_Install := None; doc_Update := None; doc_Checkstyle := None;
  doc_JSON := None; doc_Sort := Some ["bogus"]; doc_Vendor := None;
  doc_Skip := None;
  doc_Exclude := None; doc_Include := None; doc_Concurrency := None;
  doc_Enable := None; doc_EnableAll := None; doc_Fast := None;
  doc_Disable := None; doc_Debug := None; doc_Errors := None;
  doc_Linters := ∅
|}.

(** A process with configuration [c], started in the root of [tree]
    with GOPATH set. *)
Definition world (c : Config) : World := {|
  Configuration := c;
  environ := {[ "GOPATH" := "/go"; "PATH" := "/usr/bin" ]};
  fs := λ path, if String.eqb path "." then tree
                else FsNone "no such file or directory";
  current_user := inl "/home/gopher";
  config_file := λ file,
    if String.eqb file "conf.json" then Decoded bogus_sort_document
    else CannotOpen "no such file or directory";
  trace := []
|}.

(** The same process without GOPATH and without a user database. *)
Definition homeless_world (c : Config) : World := {|
  Configuration := c;
  environ := {[ "PATH" := "/usr/bin" ]};
  fs := fs (world c);
  current_user := inr "user: Current not implemented on linux/amd64";
  config_file := config_file (world c);
  trace := []
|}.

(** The processes used below. *)
Definition plain : World := world config0.
Definition homeless : World := homeless_world config0.
Definition checkstyle_json : World :=
  world (set_Sort ["severity"] (set_JSON true (set_Checkstyle true config0))).
Definition checkstyle_only : World :=
  world (set_Sort ["severity"] (set_Checkstyle true config0)).
Definition bad_format : World :=
  world (set_Format "{{.Path}}: {{" config0).
Definition with_patterns : World :=
  world (set_Include ["unreachable"]
           (set_Exclude ["comment"; "generated"] config0)).
Definition fast_only : World := world (set_Fast true config0).
Definition vet_disabled : World := world (set_Disable ["vet"] config0).

(** The command line [--config conf.json .]. *)
Definition command_line : list Main.Arg :=
  [Main.arg_flag (Main.flag_config "conf.json"); Main.arg_path "."].

End Scenario.

(** ** Further definitions used to state properties *)

(** Everything written to standard output, in order. *)
Definition stdout_text (evs : list Event) : string :=
  foldr String.append ""
    (omap (λ e, match e with EvStdout s => Some s | _ => None end) evs).

(** The warnings among the events. *)
Definition warnings_of (evs : list Event) : list (string * list string) :=
  omap (λ e, match e with EvWarning f a => Some (f, a) | _ => None end) evs.

(** The candidates of [findVendoredLinters], in the order tried. *)
Definition vendor_candidates (gopaths : list string) : list string :=
  concat (map (fun home =>
            map (fun p => filepath.Join ([p; "src"] ++ home)) gopaths)
          vendoredSearchPaths).

(** The path exists, as [os.Stat] sees it. *)
Definition exists_in (w : World) (path : string) : bool :=
  match fs w path with FsNone _ => false | _ => true end.

(** An outcome that is not a return. *)
Definition ends_process {A} (o : Outcome A) : Prop :=
  match o with Ret _ => False | _ => True end.

(** [w'] differs from [w] in its events only. *)
Definition same_but_trace (w w' : World) : Prop :=
  Configuration w' = Configuration w ∧ environ w' = environ w
  ∧ fs w' = fs w ∧ current_user w' = current_user w
  ∧ config_file w' = config_file w.

(** The process of [Scenario.plain] with the vendored linters
    installed below the GOPATH entry /go. *)
Definition vendored_world : World := {|
  Configuration := Scenario.config0;
  environ := {[ "GOPATH" := "/go"; "PATH" := "/usr/bin"; "GOBIN" := "/opt/bin" ]};
  fs := λ path,
    if String.eqb path "/go/src/gopkg.in/alecthomas/gometalinter.v1/_linters"
    then FsDir true []
    else FsNone "no such file or directory";
  current_user := inl "/home/gopher";
  config_file := λ _, CannotOpen "no such file or directory";
  trace := []
|}.

Section JSONOutput.
Context `{Externals}.

(** The text that [json.Marshal] yields for an issue (empty when it
    fails). *)
Definition marshalled (issue : Issue) : string :=
  match json_Marshal issue with inl d => d | inr _ => "" end.

(** The elements of the array that [outputToJSON] prints. *)
Definition json_items (c : Config) (issues : list Issue) : list string :=
  (λ issue, "  " +:+ marshalled issue) <$> List.filter (shown c) issues.
End JSONOutput.

Section Switches.
Context `{Externals}.

(** What one flag says about the linter [v]: enabled, disabled, or
    nothing. *)
Definition mention (v : string) (f : Main.Flag) : option bool :=
  match f with
  | Main.flag_enable x => if String.eqb x v then Some true else None
  | Main.flag_disable x => if String.eqb x v then Some false else None
  | Main.flag_disable_all => Some false
  | Main.flag_enable_all =>
      if bool_decide (v ∈ DefaultLinters) then Some true else None
  | _ => None
  end.

(** What the last flag of a command line that says something about
    the linter [v] says. *)
Fixpoint last_mention (v : string) (flags : list Main.Flag) : option bool :=
  match flags with
  | [] => None
  | f :: rest =>
      match last_mention v rest with
      | Some b => Some b
      | None => mention v f
      end
  end.

(** The flag is not a [--linter] whose action fails: the value of a
    [--linter] is [<name>:<spec>], split at the first colon, with a
    definition that [ParseLinterConfigSpec] accepts. *)
Definition linter_flag_ok (f : Main.Flag) : bool :=
  match f with
  | Main.flag_linter value =>
      match strings.Cut value ":"%char with
      | Some (name, spec) =>
          match ParseLinterConfigSpec name spec with
          | inl _ => true
          | inr _ => false
          end
      | None => false
      end
  | _ => true
  end.
End Switches.

(** The flag is [--config]. *)
Definition is_config (f : Main.Flag) : bool :=
  match f with Main.flag_config _ => true | _ => false end.

(** How often [name] occurs in a list. *)
Definition occurrences (name : string) (l : list string) : nat :=
  length (filter (λ x, x = name) l).

(** An installation whose [json.Marshal] fails on issues without a
    path. *)
Definition strict_json : Externals := {|
  template_Parse := Scenario.parse_template;
  regexp_Compile := Scenario.compile_regexp;
  getLinterByName := Scenario.linter_by_name;
  validateLinters := Scenario.validate;
  runLinters := Scenario.run;
  installLinters := ret tt;
  Issue_String := Scenario.issue_string;
  json_Marshal := λ issue,
    if String.eqb (issue_Path issue) ""
    then inr "json: error calling MarshalJSON for type *gometalinter.Issue"
    else inl ("{" +:+ Scenario.issue_string issue +:+ "}");
  outputToCheckstyle := λ issues, ret 0;
  DefaultLinters := Scenario.known_linters;
  ParseLinterConfigSpec := Scenario.parse_linter_spec
|}.

(** Two issues, the second without a path. *)
Definition issue_vet : Issue :=
  {| issue_Linter := "vet"; issue_Severity := Error;
     issue_Path := "main.go"; issue_Line := 7; issue_Col := 0;
     issue_Message := "unreachable code" |}.
Definition issue_nowhere : Issue :=
  {| issue_Linter := "golint"; issue_Severity := Warning;
     issue_Path := ""; issue_Line := 3; issue_Col := 1;
     issue_Message := "exported function should have comment" |}.

(** A configuration file that enables vet twice and disables vet and
    golint. *)
Definition switches_document : ConfigDocument := {|
  doc_Format := None; doc_EnableGC := None; doc_VendoredLinters := None;
  doc_Install := None; doc_Update := None; doc_Checkstyle := None;
  doc_JSON := None; doc_Sort := None; doc_Vendor := None; doc_Skip := None;
  doc_Exclude := None; doc_Include := None; doc_Concurrency := None;
  doc_Enable := Some ["vet"; "gofmt"; "vet"]; doc_EnableAll := None;
  doc_Fast := None; doc_Disable := Some ["vet"; "golint"];
  doc_Debug := None; doc_Errors := None; doc_Linters := ∅
|}.

(** The process of [Scenario.plain] with that file as [linters.json]. *)
Definition switches_world : World := {|
  Configuration := Scenario.config0;
  environ := environ Scenario.plain;
  fs := fs Scenario.plain;
  current_user := current_user Scenario.plain;
  config_file := λ file,
    if String.eqb file "linters.json" then Decoded switches_document
    else CannotOpen "no such file or directory";
  trace := []
|}.

(** Processes with vendoring support requested, with an installation
    of vendored linters requested, with an update of them requested,
    and with an installation of linters that are not vendored and a
    format that does not parse. *)
Definition vendoring : World := Scenario.world (set_Vendor true Scenario.config0).
Definition installing : World :=
  Scenario.world (set_Install true Scenario.config0).
Definition updating : World :=
  Scenario.world (set_Update true (set_Install true Scenario.config0)).
Definition installing_bad_format : World :=
  Scenario.world
    (set_VendoredLinters false
       (set_Install true (set_Format "{{.Path}}: {{" Scenario.config0))).

(** The command line
    [--disable vet --enable vet --linter vet:go tool vet:PATH:LINE:MESSAGE
     --disable-all --enable gofmt --linter golint=golint --enable vet]. *)
Definition switches : list Main.Flag :=
  [Main.flag_disable "vet"; Main.flag_enable "vet";
   Main.flag_linter "vet:go tool vet:PATH:LINE:MESSAGE";
   Main.flag_disable_all; Main.flag_enable "gofmt";
   Main.flag_linter "golint=golint"; Main.flag_enable "vet"].

(** ** Properties *)

Ltac go_unfold :=
  unfold mbind, M_bind, bind, config, assign, emit, ret,
    os_Exit, panic, kingpin_Fatalf, kingpin_FatalIfError, os_Getenv,
    os_Setenv, os_Lstat, user_Current in *.

Section Linters.
Context `{Externals}.

(** *** The combined-linter substitution *)

Lemma megacheck_scan (l : list string) (v : megacheckScan) :
  let v' := fold_left megacheck_case l v in
  (staticcheck v' = true ↔ staticcheck v = true ∨ "staticcheck" ∈ l)
  ∧ (gosimple v' = true ↔ gosimple v = true ∨ "gosimple" ∈ l)
  ∧ (unused v' = true ↔ unused v = true ∨ "unused" ∈ l)
  ∧ revised v' = revised v ++ filter (λ x, x ∉ megacheck_family) l.
Proof.
  revert v. induction l as [|x l IH]; intros v; simpl.
  - rewrite app_nil_r, !elem_of_nil. tauto.
  - specialize (IH (megacheck_case v x)). simpl in IH.
    destruct IH as (H1 & H2 & H3 & H4).
    rewrite H1, H2, H3, H4. clear H1 H2 H3 H4.
    unfold megacheck_case, megacheck_family.
    rewrite !elem_of_cons.
    destruct (String.eqb_spec x "staticcheck") as [->|N1]; simpl.
    { rewrite filter_cons_False by (rewrite !elem_of_cons; tauto).
      intuition congruence. }
    destruct (String.eqb_spec x "gosimple") as [->|N2]; simpl.
    { rewrite filter_cons_False by (rewrite !elem_of_cons; tauto).
      intuition congruence. }
    destruct (String.eqb_spec x "unused") as [->|N3]; simpl.
    { rewrite filter_cons_False by (rewrite !elem_of_cons; tauto).
      intuition congruence. }
    destruct (String.eqb_spec x "megacheck") as [->|N4]; simpl.
    { rewrite filter_cons_False by (rewrite !elem_of_cons; tauto).
      intuition congruence. }
    rewrite filter_cons_True
      by (rewrite !elem_of_cons, elem_of_nil; tauto).
    rewrite <- app_assoc. simpl.
    intuition congruence.
Qed.

(** [replaceWithMegacheck] always returns; it only adds events. *)
Lemma replaceWithMegacheck_run (enabled : list string) (enableAll : bool)
    (w : World) :
  ∃ evs, replaceWithMegacheck enabled enableAll w =
         (Ret (megacheck_revision enabled), with_trace (trace w ++ evs) w)
         ∧ jobs_started evs = false.
Proof.
  unfold replaceWithMegacheck, megacheck_revision.
  pose proof (megacheck_scan enabled
    {| staticcheck := false; gosimple := false; unused := false;
       revised := [] |}) as (H1 & H2 & H3 & H4).
  simpl in *.
  set (v := fold_left _ _ _) in *.
  destruct (decide _) as [(I1 & I2 & I3)|N].
  - assert (staticcheck v = true) as -> by tauto.
    assert (gosimple v = true) as -> by tauto.
    assert (unused v = true) as -> by tauto.
    rewrite H4. simpl. destruct enableAll; simpl.
    + exists []. destruct w. unfold with_trace. simpl.
      by rewrite app_nil_r.
    + eexists. unfold warning. go_unfold. simpl. split; reflexivity.
  - assert (staticcheck v && gosimple v && unused v = false) as ->.
    { destruct (staticcheck v) eqn:E1, (gosimple v) eqn:E2,
        (unused v) eqn:E3; simpl; try reflexivity.
      exfalso. apply N. intuition congruence. }
    exists []. destruct w. unfold with_trace, ret. simpl.
    by rewrite app_nil_r.
Qed.

(** C6: if and only if the enabled list contains staticcheck,
    gosimple and unused, [replaceWithMegacheck] returns the list
    without these three and without megacheck, followed by one
    megacheck; otherwise it returns the enabled list unchanged.
    [lintersFromConfig] evaluates it once and stores the result in
    [config.Enable]. *)
Theorem replaceWithMegacheck_result (enabled : list string)
    (enableAll : bool) (w : World) :
  fst (replaceWithMegacheck enabled enableAll w) =
    Ret (if decide ("staticcheck" ∈ enabled ∧ "gosimple" ∈ enabled
                    ∧ "unused" ∈ enabled)
         then filter (λ x, x ∉ megacheck_family) enabled ++ ["megacheck"]
         else enabled)
  ∧ Enable (Configuration (snd (lintersFromConfig w))) =
      megacheck_revision (Enable (Configuration w)).
Proof.
  split.
  - destruct (replaceWithMegacheck_run enabled enableAll w) as (evs & -> & _).
    reflexivity.
  - unfold lintersFromConfig.
    destruct (replaceWithMegacheck_run (Enable (Configuration w))
                (EnableAll (Configuration w)) w) as (evs & E & _).
    go_unfold. simpl. rewrite E. reflexivity.
Qed.

(** *** The linters to run *)

Lemma lintersFromConfig_run (w : World) :
  let c := Configuration w in
  let enable := megacheck_revision (Enable c) in
  ∃ evs,
    lintersFromConfig w =
    (Ret (fold_left (λ out linter, delete linter out) (Disable c)
            (fold_left (add_linter (Linters c) (Fast c)) enable ∅)),
     with_trace (trace w ++ evs)
       (with_Configuration (set_Enable enable c) w))
    ∧ jobs_started evs = false.
Proof.
  intros c enable. unfold lintersFromConfig.
  destruct (replaceWithMegacheck_run (Enable c) (EnableAll c) w)
    as (evs & E & J).
  exists evs. split; [|done].
  go_unfold. simpl. fold c. rewrite E. simpl. reflexivity.
Qed.

Lemma add_linter_fold overrides fast (l : list string)
    (m : gmap string Linter) name linter :
  fold_left (add_linter overrides fast) l m !! name = Some linter →
  m !! name = Some linter
  ∨ (name ∈ l
     ∧ linter = getLinterByName name (Linters_at overrides name)
     ∧ (fast = true → IsFast (linterConfig linter) = true)).
Proof.
  revert m. induction l as [|x l IH]; intros m; simpl; [by left|].
  intros Hl. apply IH in Hl as [Hm | (? & ? & ?)].
  - unfold add_linter in Hm.
    destruct (fast && _) eqn:E; [by left|].
    destruct (decide (x = name)) as [->|Hne].
    + rewrite lookup_insert_eq in Hm. injection Hm as <-.
      right. split; [left|split; [done|]].
      intros ->. simpl in E. by apply negb_false_iff in E.
    + rewrite lookup_insert_ne in Hm by done. by left.
  - right. split; [by right|done].
Qed.

Lemma delete_fold (l : list string) (m : gmap string Linter) name :
  fold_left (λ out linter, delete linter out) l m !! name =
  if decide (name ∈ l) then None else m !! name.
Proof.
  revert m. induction l as [|x l IH]; intros m; cbn [fold_left].
  - case_decide as Hin; [by apply elem_of_nil in Hin|done].
  - rewrite IH. rewrite (lookup_delete m x name).
    repeat case_decide; try done; subst; exfalso;
      rewrite elem_of_cons in *; intuition congruence.
Qed.

(** What [lintersFromConfig] returns, entry by entry. *)
Lemma lintersFromConfig_entry (w : World) out w' name linter :
  lintersFromConfig w = (Ret out, w') →
  out !! name = Some linter →
  (name ∉ Disable (Configuration w))
  ∧ name ∈ megacheck_revision (Enable (Configuration w))
  ∧ linter = getLinterByName name
               (Linters_at (Linters (Configuration w)) name)
  ∧ (Fast (Configuration w) = true → IsFast (linterConfig linter) = true).
Proof.
  intros Hrun Hlook.
  destruct (lintersFromConfig_run w) as (evs & E & _).
  rewrite E in Hrun. injection Hrun as <- _.
  rewrite delete_fold in Hlook. case_decide; [done|].
  apply add_linter_fold in Hlook as [Hlook|?]; [|done].
  by rewrite lookup_empty in Hlook.
Qed.

(** C7: with the fast-only option set, [lintersFromConfig] returns
    only linters marked fast; a linter whose definition is not marked
    fast is not in the returned set. *)
Theorem fast_only_linters (w : World) :
  Fast (Configuration w) = true →
  ∃ out w',
    lintersFromConfig w = (Ret out, w')
    ∧ (∀ name linter,
         out !! name = Some linter → IsFast (linterConfig linter) = true)
    ∧ (∀ name,
         IsFast (linterConfig
                   (getLinterByName name
                      (Linters_at (Linters (Configuration w)) name)))
           = false →
         out !! name = None).
Proof.
  intros Hfast.
  destruct (lintersFromConfig_run w) as (evs & E & _).
  eexists _, _. split; [exact E|]. split.
  - intros name linter Hl.
    destruct (lintersFromConfig_entry w _ _ name linter E Hl)
      as (_ & _ & _ & Hf).
    by apply Hf.
  - intros name Hslow.
    match goal with |- ?m !! name = None => destruct (m !! name) as [linter|] eqn:Hl end;
      [|done].
    destruct (lintersFromConfig_entry w _ _ name linter E Hl)
      as (_ & _ & -> & Hf).
    rewrite Hf in Hslow by done. discriminate.
Qed.

(** C10: Disable takes precedence over Enable: the map returned by
    [lintersFromConfig] has no linter whose name is in
    [config.Disable], whether or not the name is enabled. *)
Theorem disable_takes_precedence (w : World) (name : string) :
  name ∈ Disable (Configuration w) →
  ∃ out w', lintersFromConfig w = (Ret out, w') ∧ out !! name = None.
Proof.
  intros Hdis.
  destruct (lintersFromConfig_run w) as (evs & E & _).
  eexists _, _. split; [exact E|].
  rewrite delete_fold. by rewrite decide_True.
Qed.

End Linters.

Section ProcessConfig.
Context `{Externals}.

Ltac split_world w :=
  destruct w as [c env fs0 user files tr];
  destruct c as [fmt ft gc vl ins upd cs js srt vnd skp exc inc conc
                 en ena lnt fst0 dis dbg errs];
  cbn [Configuration Format Exclude Include Checkstyle JSON Sort environ
       trace] in *.

Ltac run_processConfig :=
  unfold processConfig, after_processConfig, regexp_MustCompile, warning;
  go_unfold;
  cbn -[strings.Join lookup];
  match goal with
  | Ht : template_Parse _ = _ |- _ => rewrite Ht
  end;
  cbn -[strings.Join lookup];
  try match goal with
    | |- context [if negb ?gc then _ else _] => destruct gc
    end;
  cbn -[strings.Join lookup];
  try match goal with
    | |- context [if ?vl && ?ins && ?upd then _ else _] =>
        destruct (vl && ins && upd)
    end;
  cbn -[strings.Join lookup];
  try match goal with
    | |- context [if ?cs && negb ?js then _ else _] =>
        destruct (cs && negb js) eqn:?
    end;
  cbn -[strings.Join lookup];
  try rewrite lookup_insert_ne by done;
  try match goal with
    | |- context [default "" (?env !! "GO15VENDOREXPERIMENT")] =>
        generalize (default "" (env !! "GO15VENDOREXPERIMENT"));
        intros experiment
    end;
  try match goal with
    | |- context [if String.eqb ?e "1" || ?vnd then _ else _] =>
        destruct (String.eqb e "1" || vnd)
    end;
  cbn -[strings.Join lookup].

Ltac use_compile_results :=
  repeat (go_unfold; cbn -[strings.Join lookup];
          match goal with
          | H : regexp_Compile _ = _ |- _ => rewrite H
          end);
  go_unfold; cbn -[strings.Join lookup].

Ltac split_pattern_ok :=
  repeat match goal with
    | H : match ?x with inl _ => _ | inr _ => _ end = true |- _ =>
        destruct x eqn:?; [|discriminate]
    end.

(** A valid configuration: [processConfig] returns the compiled
    patterns and leaves [Configuration] as [after_processConfig]
    says. *)
Lemma processConfig_ok (w : World) (tmpl : Template) :
  let c := Configuration w in
  template_Parse (Format c) = inl tmpl →
  pattern_ok (Exclude c) = true →
  pattern_ok (Include c) = true →
  ∃ w' evs,
    processConfig w = (Ret (compiled (Include c), compiled (Exclude c)), w')
    ∧ Configuration w' =
        after_processConfig tmpl
          (default "" (environ w !! "GO15VENDOREXPERIMENT")) c
    ∧ trace w' = trace w ++ evs
    ∧ regexp_compilations evs =
        compilations_of (Exclude c) ++ compilations_of (Include c)
    ∧ jobs_started evs = false.
Proof.
  split_world w. intros Ht He Hi.
  run_processConfig.
  all: destruct exc as [|e0 exc]; cbn -[strings.Join lookup] in *.
  all: destruct inc as [|i0 inc]; cbn -[strings.Join lookup] in *.
  all: split_pattern_ok.
  all: use_compile_results.
  all: eexists; eexists; split; [reflexivity|].
  all: cbn; split; [reflexivity|];
    split; [rewrite <- ?app_assoc; reflexivity|].
  all: split; reflexivity.
Qed.

(** A format that does not parse is fatal. *)
Lemma processConfig_bad_template (w : World) (err : string) :
  let c := Configuration w in
  template_Parse (Format c) = inr err →
  processConfig w =
    (Exit 1,
     with_trace (trace w ++ [EvFatal "invalid format %q" [Format c; err]]) w).
Proof.
  intros c Ht. unfold processConfig. go_unfold. cbn. fold c. rewrite Ht.
  reflexivity.
Qed.

(** An exclude pattern that does not compile ends in a panic. *)
Lemma processConfig_bad_exclude (w : World) (tmpl : Template) (err : string) :
  let c := Configuration w in
  template_Parse (Format c) = inl tmpl →
  Exclude c ≠ [] →
  regexp_Compile (strings.Join (Exclude c) "|") = inr err →
  ∃ w' evs,
    processConfig w = (Panic err, w')
    ∧ trace w' = trace w ++ evs ∧ jobs_started evs = false.
Proof.
  split_world w. intros Ht Hne He.
  run_processConfig.
  all: destruct exc as [|e0 exc]; [done|].
  all: use_compile_results.
  all: eexists; eexists; split; [reflexivity|].
  all: cbn; split; [rewrite <- ?app_assoc; reflexivity|reflexivity].
Qed.

(** An include pattern that does not compile ends in a panic. *)
Lemma processConfig_bad_include (w : World) (tmpl : Template) (err : string) :
  let c := Configuration w in
  template_Parse (Format c) = inl tmpl →
  pattern_ok (Exclude c) = true →
  Include c ≠ [] →
  regexp_Compile (strings.Join (Include c) "|") = inr err →
  ∃ w' evs,
    processConfig w = (Panic err, w')
    ∧ trace w' = trace w ++ evs ∧ jobs_started evs = false.
Proof.
  split_world w. intros Ht He Hne Hi.
  run_processConfig.
  all: destruct inc as [|i0 inc]; [done|].
  all: destruct exc as [|e0 exc]; cbn -[strings.Join lookup] in *.
  all: split_pattern_ok.
  all: use_compile_results.
  all: eexists; eexists; split; [reflexivity|].
  all: cbn; split; [rewrite <- ?app_assoc; reflexivity|reflexivity].
Qed.

(** [processConfig] returns exactly for a valid configuration. *)
Lemma processConfig_returns (w : World) r w' :
  processConfig w = (Ret r, w') →
  let c := Configuration w in
  ∃ tmpl, template_Parse (Format c) = inl tmpl
          ∧ pattern_ok (Exclude c) = true ∧ pattern_ok (Include c) = true.
Proof.
  intros Hrun c.
  destruct (template_Parse (Format c)) as [tmpl|err] eqn:Ht.
  2:{ rewrite (processConfig_bad_template w err Ht) in Hrun. discriminate. }
  exists tmpl. split; [done|].
  destruct (pattern_ok (Exclude c)) eqn:He.
  2:{ unfold pattern_ok in He.
      destruct (Exclude c) as [|e0 exc] eqn:Hex; [discriminate|].
      destruct (regexp_Compile _) as [|err] eqn:Hc; [discriminate|].
      rewrite <- Hex in Hc.
      destruct (processConfig_bad_exclude w tmpl err Ht) as (? & ? & E & _);
        [by fold c; rewrite Hex|exact Hc|].
      rewrite E in Hrun. discriminate. }
  split; [done|].
  destruct (pattern_ok (Include c)) eqn:Hi; [done|].
  unfold pattern_ok in Hi.
  destruct (Include c) as [|i0 inc] eqn:Hin; [discriminate|].
  destruct (regexp_Compile _) as [|err] eqn:Hc; [discriminate|].
  rewrite <- Hin in Hc.
  destruct (processConfig_bad_include w tmpl err Ht He) as (? & ? & E & _);
    [by fold c; rewrite Hin|exact Hc|].
  rewrite E in Hrun. discriminate.
Qed.

(** C1 (amended): when checkstyle is selected and JSON is not,
    [processConfig] forces the sort keys to ["path"] alone, whatever
    the user configured: whenever it returns, [config.Sort] is
    [["path"]], and it returns for every configuration whose format
    and patterns are valid. *)
Theorem checkstyle_forces_path_sort (w : World) :
  Checkstyle (Configuration w) = true →
  JSON (Configuration w) = false →
  (∀ r w', processConfig w = (Ret r, w') →
           Sort (Configuration w') = ["path"])
  ∧ (∀ tmpl,
       template_Parse (Format (Configuration w)) = inl tmpl →
       pattern_ok (Exclude (Configuration w)) = true →
       pattern_ok (Include (Configuration w)) = true →
       ∃ r w', processConfig w = (Ret r, w')
               ∧ Sort (Configuration w') = ["path"]).
Proof.
  intros Hcs Hjs.
  assert (∀ tmpl,
       template_Parse (Format (Configuration w)) = inl tmpl →
       pattern_ok (Exclude (Configuration w)) = true →
       pattern_ok (Include (Configuration w)) = true →
       ∃ r w', processConfig w = (Ret r, w')
               ∧ Sort (Configuration w') = ["path"]) as Hok.
  { intros tmpl Ht He Hi.
    destruct (processConfig_ok w tmpl Ht He Hi) as (w' & evs & E & C & _).
    eexists _, w'. split; [exact E|].
    rewrite C. clear E C. split_world w. subst cs js.
    unfold after_processConfig. cbn.
    destruct (vl && ins && upd); cbn;
      by destruct (String.eqb _ "1" || vnd). }
  split; [|exact Hok].
  intros r w' Hrun.
  destruct (processConfig_returns w r w' Hrun) as (tmpl & Ht & He & Hi).
  destruct (Hok tmpl Ht He Hi) as (r' & w'' & E & S).
  rewrite E in Hrun. by injection Hrun as _ <-.
Qed.

(** C5: [processConfig] compiles the include and exclude patterns,
    each list once: a non-empty list is joined by ["|"] and compiled
    into one regular expression, which is returned; for an empty list
    nothing is compiled and the returned expression is absent. *)
Theorem patterns_compiled_once (w : World) (tmpl : Template) :
  template_Parse (Format (Configuration w)) = inl tmpl →
  pattern_ok (Exclude (Configuration w)) = true →
  pattern_ok (Include (Configuration w)) = true →
  ∃ include exclude w' evs,
    processConfig w = (Ret (include, exclude), w')
    ∧ trace w' = trace w ++ evs
    ∧ regexp_compilations evs =
        match Exclude (Configuration w) with
        | [] => []
        | patterns => [strings.Join patterns "|"]
        end ++
        match Include (Configuration w) with
        | [] => []
        | patterns => [strings.Join patterns "|"]
        end
    ∧ match Exclude (Configuration w) with
      | [] => exclude = None
      | patterns =>
          ∃ re, regexp_Compile (strings.Join patterns "|") = inl re
                ∧ exclude = Some re
      end
    ∧ match Include (Configuration w) with
      | [] => include = None
      | patterns =>
          ∃ re, regexp_Compile (strings.Join patterns "|") = inl re
                ∧ include = Some re
      end.
Proof.
  intros Ht He Hi.
  destruct (processConfig_ok w tmpl Ht He Hi) as (w' & evs & E & _ & T & R & _).
  exists (compiled (Include (Configuration w))),
    (compiled (Exclude (Configuration w))), w', evs.
  split; [exact E|]. split; [exact T|].
  split.
  { rewrite R. unfold compilations_of.
    by destruct (Exclude (Configuration w)), (Include (Configuration w)). }
  unfold pattern_ok, compiled in *.
  split.
  - destruct (Exclude (Configuration w)) as [|e0 exc]; [done|].
    destruct (regexp_Compile (strings.Join (e0 :: exc) "|")) as [re|];
      [|discriminate].
    by exists re.
  - destruct (Include (Configuration w)) as [|i0 inc]; [done|].
    destruct (regexp_Compile (strings.Join (i0 :: inc) "|")) as [re|];
      [|discriminate].
    by exists re.
Qed.

End ProcessConfig.

Section Paths.

Lemma quiet_step_refl w : quiet_step w w.
Proof. split; [done|]. exists []. by rewrite app_nil_r. Qed.

Lemma jobs_started_app a b :
  jobs_started (a ++ b) = jobs_started a || jobs_started b.
Proof. apply existsb_app. Qed.

Lemma trace_step_trans w1 w2 w3 :
  trace_step w1 w2 → trace_step w2 w3 → trace_step w1 w3.
Proof.
  intros (e1 & T1 & J1) (e2 & T2 & J2).
  exists (e1 ++ e2).
  rewrite T2, T1, app_assoc, jobs_started_app, J1, J2. done.
Qed.

Lemma quiet_step_trans w1 w2 w3 :
  quiet_step w1 w2 → quiet_step w2 w3 → quiet_step w1 w3.
Proof.
  intros (C1 & S1) (C2 & S2).
  split; [congruence|by eapply trace_step_trans].
Qed.

Lemma bind_Ret {A B} (m : M A) (k : A → M B) w a w' :
  m w = (Ret a, w') → (m ≫= k) w = k a w'.
Proof. intros E. unfold mbind, M_bind, bind. by rewrite E. Qed.

Lemma bind_Getenv {B} key (k : string → M B) w :
  (os_Getenv key ≫= k) w = k (default "" (environ w !! key)) w.
Proof. reflexivity. Qed.

Lemma bind_config {A B} (field : Config → A) (k : A → M B) w :
  (config field ≫= k) w = k (field (Configuration w)) w.
Proof. reflexivity. Qed.

Lemma debug_quiet format args w :
  ∃ w', debug format args w = (Ret tt, w') ∧ quiet_step w w'.
Proof.
  unfold debug. go_unfold. destruct (Debug (Configuration w)).
  - eexists. split; [reflexivity|]. split; [done|]. by eexists.
  - eexists. split; [reflexivity|]. apply quiet_step_refl.
Qed.

Lemma warning_quiet format args w :
  ∃ w', warning format args w = (Ret tt, w') ∧ quiet_step w w'.
Proof.
  unfold warning. go_unfold.
  eexists. split; [reflexivity|]. split; [done|]. by eexists.
Qed.

Lemma for_each_quiet {A} (l : list A) (body : A → M unit) :
  (∀ x w, ∃ w', body x w = (Ret tt, w') ∧ quiet_step w w') →
  ∀ w, ∃ w', for_each l body w = (Ret tt, w') ∧ quiet_step w w'.
Proof.
  intros Hbody. induction l as [|x l IH]; intros w; simpl.
  - exists w. split; [done|apply quiet_step_refl].
  - destruct (Hbody x w) as (w1 & E1 & Q1).
    destruct (IH w1) as (w2 & E2 & Q2).
    exists w2. split; [|by eapply quiet_step_trans].
    by rewrite (bind_Ret _ _ _ _ _ E1).
Qed.

Section WalkInvariant.
Context {S : Type} (walkFn : string → option bool → option string → S →
                             M (option WalkError * S)).
Context (P : S → Prop).
Hypothesis walkFn_ok : ∀ p i err s w,
  (i = None → is_Some err) → P s →
  ∃ r s' w', walkFn p i err s w = (Ret (r, s'), w')
             ∧ P s' ∧ quiet_step w w'.

Lemma walk_invariant : ∀ node path s w,
  P s →
  ∃ r s' w', walk walkFn path node s w = (Ret (r, s'), w')
             ∧ P s' ∧ quiet_step w w'.
Proof.
  fix IH 1. intros [|readable entries|err] path s w Hs.
  - simpl. apply walkFn_ok; [done|done].
  - cbn [walk].
    destruct (walkFn_ok path (Some true) None s w) as (r & s1 & w1 & E1 & P1 & Q1);
      [done|done|].
    rewrite (bind_Ret _ _ _ _ _ E1).
    destruct r as [[|e]|].
    + eexists _, _, _. split; [reflexivity|]. done.
    + eexists _, _, _. split; [reflexivity|]. done.
    + destruct readable; cbn [negb].
      2:{ destruct (walkFn_ok path (Some true) (Some "cannot read directory") s1 w1)
            as (r & s2 & w2 & E2 & P2 & Q2); [done|done|].
          eexists _, _, _. split; [exact E2|]. split; [done|].
          by eapply quiet_step_trans. }
      clear E1. revert s1 w1 P1 Q1.
      induction entries as [|[name child] rest IHrest]; intros s1 w1 P1 Q1.
      * eexists _, _, _. split; [reflexivity|]. done.
      * destruct (IH child (filepath.Join [path; name]) s1 w1 P1)
          as (r & s2 & w2 & E2 & P2 & Q2).
        rewrite (bind_Ret _ _ _ _ _ E2).
        assert (quiet_step w w2) as Q12 by (by eapply quiet_step_trans).
        destruct r as [[|e]|].
        -- destruct child.
           ++ eexists _, _, _. split; [reflexivity|]. done.
           ++ apply IHrest; done.
           ++ apply IHrest; done.
        -- eexists _, _, _. split; [reflexivity|]. done.
        -- apply IHrest; done.
  - simpl. apply walkFn_ok; [|done]. intros _. by eexists.
Qed.

Lemma filepath_Walk_invariant root s w :
  P s →
  ∃ r s' w', filepath_Walk walkFn root s w = (Ret (r, s'), w')
             ∧ P s' ∧ quiet_step w w'.
Proof.
  intros Hs. unfold filepath_Walk.
  change ((os_Lstat root ≫= (λ node, '(err, s0) ← walk walkFn root node s; match err with Some SkipDir => ret (None, s0) | _ => ret (err, s0) end)) w)
    with (('(err, s0) ← walk walkFn root (fs w root) s; match err with Some SkipDir => ret (None, s0) | _ => ret (err, s0) end) w).
  destruct (walk_invariant (fs w root) root s w Hs) as (r & s1 & w1 & E & P1 & Q1).
  rewrite (bind_Ret _ _ _ _ _ E).
  destruct r as [[|e]|]; eexists _, _, _; (split; [reflexivity|done]).
Qed.
End WalkInvariant.

(** *** [filepath.Clean] never yields a path that starts with ["./"] *)

Lemma Split_nonempty s sep : strings.Split s sep ≠ [].
Proof.
  destruct s as [|c s]; simpl; [done|].
  destruct (Ascii.eqb c sep); [done|]. by destruct (strings.Split s sep).
Qed.

Lemma Split_no_separator s sep :
  Forall (λ e, strings.contains_byte sep e = false) (strings.Split s sep).
Proof.
  induction s as [|c s IH]; simpl.
  - by repeat constructor.
  - destruct (Ascii.eqb c sep) eqn:E.
    + by constructor.
    + destruct (strings.Split s sep) as [|x xs].
      * repeat constructor. simpl. rewrite Ascii.eqb_sym, E. done.
      * inversion IH; subst. constructor; [|done].
        simpl. rewrite Ascii.eqb_sym, E. done.
Qed.

Lemma clean_step_ok rooted stk e :
  Forall elem_ok stk → strings.contains_byte "/" e = false →
  Forall elem_ok (filepath.clean_step rooted stk e).
Proof.
  intros Hstk He. unfold filepath.clean_step.
  destruct (String.eqb_spec e ""); [done|].
  destruct (String.eqb_spec e "."); [done|].
  destruct (String.eqb_spec e "..") as [->|].
  - destruct stk as [|top rest].
    + destruct rooted; [done|]. by repeat constructor.
    + destruct (String.eqb top "..").
      * constructor; [by repeat split|done].
      * by inversion Hstk.
  - by constructor.
Qed.

Lemma clean_fold_ok rooted elems stk :
  Forall elem_ok stk →
  Forall (λ e, strings.contains_byte "/" e = false) elems →
  Forall elem_ok (fold_left (filepath.clean_step rooted) elems stk).
Proof.
  revert stk. induction elems as [|e elems IH]; intros stk Hs He; simpl.
  - done.
  - inversion He; subst. apply IH; [|done]. by apply clean_step_ok.
Qed.

Lemma concat_no_dot_slash e l :
  elem_ok e → String.prefix "./" (String.concat "/" (e :: l)) = false.
Proof.
  intros (Hne & Hnd & Hns).
  assert (∀ rest, String.prefix "./" (e +:+ rest) = false) as Hgen.
  { intros rest.
    destruct (String.prefix "./" (e +:+ rest)) eqn:E; [|done].
    apply String.prefix_correct in E.
    destruct e as [|c e1]; [done|].
    destruct e1 as [|d e2]; simpl in E.
    - injection E as -> _. done.
    - injection E as -> ->. simpl in Hns. discriminate. }
  simpl. destruct l.
  - specialize (Hgen ""). revert Hgen. clear.
    assert (e +:+ "" = e) as ->; [|done].
    clear. induction e as [|c e IH]; [done|].
    change (String c (e +:+ "") = String c e). by rewrite IH.
  - apply Hgen.
Qed.

Lemma Clean_no_dot_slash (path : string) :
  strings.HasPrefix (filepath.Clean path) "./" = false.
Proof.
  unfold filepath.Clean. unfold strings.HasPrefix.
  destruct (String.eqb path ""); [done|].
  set (rooted := String.prefix "/" path).
  pose proof (clean_fold_ok rooted (strings.Split path filepath.Separator) []
                (Forall_nil_2 _) (Split_no_separator _ _)) as Hok.
  destruct rooted; [reflexivity|].
  destruct (fold_left _ _ _) as [|top rest] eqn:E; [done|].
  apply Forall_rev in Hok.
  destruct (rev (top :: rest)) as [|e l] eqn:R.
  { apply (f_equal length) in R. rewrite length_rev in R. done. }
  apply concat_no_dot_slash. by inversion Hok.
Qed.

Lemma dot_slash_prefix (d : string) : String.prefix "./" ("./" +:+ d) = true.
Proof. apply String.prefix_correct. by destruct d. Qed.

Lemma relativePackagePath_inj (d1 d2 : string) :
  strings.HasPrefix d1 "./" = false →
  strings.HasPrefix d2 "./" = false →
  relativePackagePath d1 = relativePackagePath d2 → d1 = d2.
Proof.
  unfold relativePackagePath, strings.HasPrefix.
  intros H1 H2.
  destruct (filepath.IsAbs d1 || String.prefix "." d1),
    (filepath.IsAbs d2 || String.prefix "." d2); intros E.
  - done.
  - subst d1. by rewrite dot_slash_prefix in H1.
  - subst d2. by rewrite dot_slash_prefix in H2.
  - by apply (inj (String.append "./")) in E.
Qed.

Lemma relativePackagePath_shape (d : string) :
  filepath.IsAbs (relativePackagePath d) = true
  ∨ strings.HasPrefix (relativePackagePath d) "." = true
  ∨ strings.HasPrefix (relativePackagePath d) "./" = true.
Proof.
  unfold relativePackagePath.
  destruct (filepath.IsAbs d || strings.HasPrefix d ".") eqn:E.
  - apply orb_true_iff in E as [?|?]; auto.
  - right. by left.
Qed.

(** *** [resolvePaths] *)

Lemma for_fold_invariant {A S} (P : list A → S → Prop)
    (body : S → A → M S) :
  (∀ seen x s w, P seen s →
     ∃ s' w', body s x w = (Ret s', w') ∧ P (seen ++ [x]) s'
              ∧ quiet_step w w') →
  ∀ l seen s w, P seen s →
    ∃ s' w', for_fold l body s w = (Ret s', w') ∧ P (seen ++ l) s'
             ∧ quiet_step w w'.
Proof.
  intros Hbody. induction l as [|x l IH]; intros seen s w Hs; simpl.
  - exists s, w. rewrite app_nil_r. split; [done|].
    split; [done|apply quiet_step_refl].
  - destruct (Hbody seen x s w Hs) as (s1 & w1 & E1 & P1 & Q1).
    destruct (IH (seen ++ [x]) s1 w1 P1) as (s2 & w2 & E2 & P2 & Q2).
    exists s2, w2. rewrite (bind_Ret _ _ _ _ _ E1).
    split; [done|]. rewrite <- app_assoc in P2.
    split; [done|by eapply quiet_step_trans].
Qed.

Lemma resolvePaths_walkFn_ok skipPath seen p i err dirs w :
  (i = None → is_Some err) → dirs_invariant skipPath seen dirs →
  ∃ r dirs' w',
    resolvePaths_walkFn skipPath p i err dirs w = (Ret (r, dirs'), w')
    ∧ dirs_invariant skipPath seen dirs' ∧ quiet_step w w'.
Proof.
  intros Hi Hinv. unfold resolvePaths_walkFn.
  destruct err as [e|].
  - destruct (warning_quiet "invalid path %q: %s" [p; e] w) as (w' & E & Q).
    eexists _, _, _. rewrite (bind_Ret _ _ _ _ _ E).
    split; [reflexivity|]. done.
  - destruct i as [isDir|]; [|by destruct Hi].
    destruct (isDir && skipPath p).
    { eexists _, _, _. split; [reflexivity|].
      split; [done|apply quiet_step_refl]. }
    destruct (negb isDir && negb (skipPath p) && strings.HasSuffix p ".go")
      eqn:E.
    2:{ eexists _, _, _. split; [reflexivity|].
        split; [done|apply quiet_step_refl]. }
    eexists _, _, _. split; [reflexivity|].
    split; [|apply quiet_step_refl].
    apply andb_true_iff in E as [E Hgo].
    apply andb_true_iff in E as [_ Hskip].
    apply negb_true_iff in Hskip.
    destruct Hinv as [Hl Hd]. unfold stringSet_add. split.
    + intros d Hld. apply elem_of_union. right. by apply Hl.
    + intros d [->%elem_of_singleton|Hin]%elem_of_union.
      * right. by exists p.
      * by apply Hd.
Qed.

Lemma listed_snoc seen p d :
  listed (seen ++ [p]) d ↔
  listed seen d ∨ (strings.HasSuffix p "/..." = false ∧ d = filepath.Clean p).
Proof.
  unfold listed. split.
  - intros (q & [Hq| ->%list_elem_of_singleton]%elem_of_app & Hs & ->).
    + left. by exists q.
    + by right.
  - intros [(q & Hq & Hs & ->)|[Hs ->]].
    + exists q. rewrite elem_of_app. auto.
    + exists p. rewrite elem_of_app, list_elem_of_singleton. auto.
Qed.

(** [resolvePaths] on a non-empty list: it returns the sorted package
    paths of a set of directories that satisfies the invariant. *)
Lemma resolvePaths_run (paths skip : list string) (w : World) :
  paths ≠ [] →
  ∃ dirs w',
    resolvePaths paths skip w =
      (Ret (sort_Strings (relativePackagePath <$> elements dirs)), w')
    ∧ dirs_invariant (newPathFilter skip) paths dirs
    ∧ quiet_step w w'.
Proof.
  intros Hne. unfold resolvePaths.
  destruct paths as [|p0 paths0] eqn:Hp; [done|].
  rewrite <- Hp. clear Hne.
  replace (length paths =? 0)%nat with false by (by rewrite Hp).
  set (skipPath := newPathFilter skip).
  edestruct (for_fold_invariant (dirs_invariant skipPath)) as
    (dirs & w1 & E1 & I1 & Q1); cycle 1.
  { instantiate (1 := newStringSet). instantiate (1 := []).
    split.
    - intros d (q & Hq & _). by apply elem_of_nil in Hq.
    - intros d Hd. by apply elem_of_empty in Hd. }
  { rewrite (bind_Ret _ _ _ _ _ E1). simpl in I1.
    edestruct (for_each_quiet
      (sort_Strings (relativePackagePath <$> stringSet_asSlice dirs))
      (λ d, debug "linting path %s" [d])) as (w2 & E2 & Q2).
    { intros x w0. apply debug_quiet. }
    rewrite (bind_Ret _ _ _ _ _ E2).
    exists dirs, w2. split; [reflexivity|]. split; [exact I1|].
    by eapply quiet_step_trans. }
  intros seen x s w0 Hs. cbn beta.
  destruct (strings.HasSuffix x "/...") eqn:Hx.
  - destruct (filepath_Walk_invariant (resolvePaths_walkFn skipPath)
                (dirs_invariant skipPath seen)
                (λ p i err s w, resolvePaths_walkFn_ok skipPath seen p i err s w)
                (filepath.Dir x) s w0 Hs) as (r & s1 & w1 & E & I & Q).
    rewrite (bind_Ret _ _ _ _ _ E).
    eexists _, _. split; [reflexivity|]. split; [|done].
    destruct I as [Il Id]. split.
    + intros d [Hd|[Hs' _]]%listed_snoc; [by apply Il|congruence].
    + intros d Hd. destruct (Id d Hd) as [?|?]; [left|by right].
      apply listed_snoc. by left.
  - eexists _, _. split; [reflexivity|].
    split; [|apply quiet_step_refl].
    destruct Hs as [Il Id]. unfold stringSet_add. split.
    + intros d [Hd|[_ ->]]%listed_snoc; apply elem_of_union.
      * right. by apply Il.
      * left. by apply elem_of_singleton.
    + intros d [->%elem_of_singleton|Hin]%elem_of_union.
      * left. apply listed_snoc. by right.
      * destruct (Id d Hin) as [?|?]; [left|by right].
        apply listed_snoc. by left.
Qed.

Lemma dirs_invariant_cleaned skipPath seen dirs d :
  dirs_invariant skipPath seen dirs → d ∈ dirs →
  strings.HasPrefix d "./" = false.
Proof.
  intros [_ Hd] Hin.
  destruct (Hd d Hin) as [(p & _ & _ & ->)|(f & _ & _ & ->)];
    apply Clean_no_dot_slash.
Qed.

(** C8: [resolvePaths] returns a duplicate-free list in ascending
    order; for an empty path list it returns exactly [["."]]; every
    entry is absolute, begins with ["."], or is prefixed with
    ["./"]. *)
Theorem resolvePaths_sorted_unique (paths skip : list string) (w : World) :
  ∃ out w',
    resolvePaths paths skip w = (Ret out, w')
    ∧ NoDup out
    ∧ StronglySorted String.le out
    ∧ match paths with [] => out = ["."] | _ => True end
    ∧ Forall (λ d, filepath.IsAbs d = true
                   ∨ strings.HasPrefix d "." = true
                   ∨ strings.HasPrefix d "./" = true) out.
Proof.
  destruct paths as [|p0 paths0].
  { exists ["."], w. split; [reflexivity|].
    split; [apply NoDup_singleton|].
    split; [by repeat constructor|]. split; [done|].
    constructor; [|done]. right. by left. }
  destruct (resolvePaths_run (p0 :: paths0) skip w)
    as (dirs & w' & E & I & _); [done|].
  eexists _, w'. split; [exact E|].
  unfold sort_Strings.
  split.
  { rewrite merge_sort_Permutation.
    apply NoDup_fmap_2_strong; [|apply NoDup_elements].
    intros d1 d2 H1%elem_of_elements H2%elem_of_elements.
    apply relativePackagePath_inj; by eapply dirs_invariant_cleaned. }
  split; [apply StronglySorted_merge_sort; apply _|].
  split; [done|].
  apply Forall_forall. intros d Hd.
  rewrite merge_sort_Permutation in Hd.
  apply list_elem_of_fmap in Hd as (d0 & -> & _).
  apply relativePackagePath_shape.
Qed.

(** C9: a path listed without the ["/..."] suffix is always in the
    output of [resolvePaths] (as its cleaned package path), whatever
    the skip list says and whatever its base name is; the path
    filter only decides which of the directories found by the
    recursive expansion are added. *)
Theorem listed_paths_not_filtered (paths skip : list string) (w : World)
    (p : string) :
  p ∈ paths →
  strings.HasSuffix p "/..." = false →
  ∃ out w',
    resolvePaths paths skip w = (Ret out, w')
    ∧ relativePackagePath (filepath.Clean p) ∈ out
    ∧ ∀ d, d ∈ out →
        (∃ q, q ∈ paths ∧ strings.HasSuffix q "/..." = false
              ∧ d = relativePackagePath (filepath.Clean q))
        ∨ (∃ f, newPathFilter skip f = false
                ∧ strings.HasSuffix f ".go" = true
                ∧ d = relativePackagePath
                        (filepath.Clean (filepath.Dir f))).
Proof.
  intros Hin Hsuf.
  destruct (resolvePaths_run paths skip w) as (dirs & w' & E & [Il Id] & _).
  { intros ->. by apply elem_of_nil in Hin. }
  eexists _, w'. split; [exact E|].
  unfold sort_Strings. split.
  - rewrite merge_sort_Permutation. apply list_elem_of_fmap_2.
    apply elem_of_elements. apply Il. by exists p.
  - intros d Hd. rewrite merge_sort_Permutation in Hd.
    apply list_elem_of_fmap in Hd as (d0 & -> & Hd0%elem_of_elements).
    destruct (Id d0 Hd0) as [(q & ? & ? & ->)|(f & ? & ? & ->)].
    + left. by exists q.
    + right. by exists f.
Qed.
End Paths.

Section RunProps.
Context `{Externals}.

Lemma bind_Exit {A B} (m : M A) (k : A → M B) w n w' :
  m w = (Exit n, w') → (m ≫= k) w = (Exit n, w').
Proof. intros E. unfold mbind, M_bind, bind. by rewrite E. Qed.

Lemma bind_Panic {A B} (m : M A) (k : A → M B) w s w' :
  m w = (Panic s, w') → (m ≫= k) w = (Panic s, w').
Proof. intros E. unfold mbind, M_bind, bind. by rewrite E. Qed.

Lemma quiet_step_emit w e :
  jobs_started [e] = false →
  quiet_step w (with_trace (trace w ++ [e]) w).
Proof. intros J. split; [done|]. by exists [e]. Qed.

Lemma quiet_step_environ w env : quiet_step w (with_environ env w).
Proof. split; [done|]. exists []. simpl. by rewrite app_nil_r. Qed.

Lemma setEnv_quiet key value w :
  ∃ w', setEnv key value w = (Ret tt, w') ∧ quiet_step w w'.
Proof.
  unfold setEnv, warning. go_unfold.
  destruct (_ || _).
  - eexists. split; [reflexivity|]. by apply quiet_step_emit.
  - eexists. split; [reflexivity|]. apply quiet_step_environ.
Qed.

Lemma debugPrintEnv_quiet w :
  ∃ w', debugPrintEnv w = (Ret tt, w') ∧ quiet_step w w'.
Proof.
  unfold debugPrintEnv.
  set (m1 := os_Getenv "PATH"). set (m2 := os_Getenv "GOPATH").
  set (m3 := os_Getenv "GOBIN").
  destruct (debug_quiet "PATH=%s" [default "" (environ w !! "PATH")] w)
    as (w1 & E1 & Q1).
  destruct (debug_quiet "GOPATH=%s" [default "" (environ w1 !! "GOPATH")] w1)
    as (w2 & E2 & Q2).
  destruct (debug_quiet "GOBIN=%s" [default "" (environ w2 !! "GOBIN")] w2)
    as (w3 & E3 & Q3).
  exists w3. split; [|eauto using quiet_step_trans].
  subst m1 m2 m3.
  rewrite bind_Getenv, (bind_Ret _ _ _ _ _ E1).
  rewrite bind_Getenv, (bind_Ret _ _ _ _ _ E2).
  rewrite bind_Getenv. exact E3.
Qed.

Lemma getGoPath_run w :
  match gopath_error w with
  | Some err =>
      getGoPath w = (Exit 1, with_trace (trace w ++ [EvFatal "" [err]]) w)
  | None => ∃ path, getGoPath w = (Ret path, w)
  end.
Proof.
  unfold gopath_error, getGoPath. go_unfold. cbn beta iota.
  destruct (String.eqb _ ""); [|by eexists].
  destruct (current_user w); [by eexists|done].
Qed.

Lemma getGoPathList_run w :
  match gopath_error w with
  | Some err =>
      getGoPathList w =
        (Exit 1, with_trace (trace w ++ [EvFatal "" [err]]) w)
  | None => ∃ gopaths, getGoPathList w = (Ret gopaths, w)
  end.
Proof.
  pose proof (getGoPath_run w) as Hg. unfold getGoPathList.
  destruct (gopath_error w) as [err|].
  - by apply bind_Exit.
  - destruct Hg as [path Hg]. rewrite (bind_Ret _ _ _ _ _ Hg). by eexists.
Qed.

Lemma configureEnvironment_run w :
  match gopath_error w with
  | Some err =>
      configureEnvironment w =
        (Exit 1, with_trace (trace w ++ [EvFatal "" [err]]) w)
  | None => ∃ w', configureEnvironment w = (Ret tt, w') ∧ quiet_step w w'
  end.
Proof.
  pose proof (getGoPathList_run w) as Hg.
  unfold configureEnvironment.
  destruct (gopath_error w) as [err|].
  - by apply bind_Exit.
  - destruct Hg as [gopaths Hg].
    rewrite (bind_Ret _ _ _ _ _ Hg).
    unfold addGoBinsToPath.
    erewrite (bind_Ret _ _ w) by (rewrite !bind_Getenv; reflexivity).
    match goal with
    | |- context [setEnv "PATH" ?v] =>
        destruct (setEnv_quiet "PATH" v w) as (w1 & E1 & Q1)
    end.
    rewrite (bind_Ret _ _ _ _ _ E1).
    destruct (debugPrintEnv_quiet w1) as (w2 & E2 & Q2).
    exists w2. split; [exact E2|by eapply quiet_step_trans].
Qed.

Lemma resolvePaths_returns (paths skip : list string) (w : World) :
  ∃ out w', resolvePaths paths skip w = (Ret out, w') ∧ quiet_step w w'.
Proof.
  destruct paths as [|p0 paths0].
  - exists ["."], w. split; [reflexivity|apply quiet_step_refl].
  - destruct (resolvePaths_run (p0 :: paths0) skip w)
      as (dirs & w' & E & _ & Q); [done|].
    by eexists _, w'.
Qed.

Lemma Run_startup_result (paths : list string) (w : World) :
  startup_result paths w (Run_startup paths w).1 (Run_startup paths w).2.
Proof.
  unfold Run_startup.
  pose proof (configureEnvironment_run w) as Hc.
  destruct (gopath_error w) as [err|] eqn:Hg.
  { rewrite (bind_Exit _ _ _ _ _ Hc). by apply startup_gopath. }
  destruct Hc as (w1 & E1 & Q1).
  rewrite (bind_Ret _ _ _ _ _ E1).
  destruct (processConfig w1) as [[[include exclude]|n|s] w2] eqn:E2.
  2:{ rewrite (bind_Exit _ _ _ _ _ E2).
      by apply (startup_processConfig paths w w1 (Exit n) w2). }
  2:{ rewrite (bind_Panic _ _ _ _ _ E2).
      by apply (startup_processConfig paths w w1 (Panic s) w2). }
  rewrite (bind_Ret _ _ _ _ _ E2). rewrite bind_config.
  destruct (resolvePaths_returns paths (Skip (Configuration w2)) w2)
    as (resolved & w3 & E3 & Q3).
  rewrite (bind_Ret _ _ _ _ _ E3).
  destruct (lintersFromConfig_run w3) as (evs & E4 & J4).
  rewrite (bind_Ret _ _ _ _ _ E4). rewrite bind_config.
  match type of E4 with _ = (Ret ?l, ?v) =>
    pose proof (startup_validate paths w w1 include exclude w2 resolved w3
                  l v E1 Q1 E2 E3 Q3 E4) as R;
    set (linters := l) in *; set (w4 := v) in *
  end.
  change (id (Configuration w4)) with (Configuration w4).
  unfold kingpin_FatalIfError.
  destruct (validateLinters linters (Configuration w4)) as [err|]; exact R.
Qed.

Lemma Run_unfold (paths : list string) (w : World) :
  Install (Configuration w) = false →
  Run paths w = (Run_startup paths ≫= Run_report) w.
Proof. intros Hi. unfold Run. rewrite bind_config, Hi. reflexivity. Qed.

Lemma trace_step_fatal w w' format args :
  trace_step w w' →
  trace_step w (with_trace (trace w' ++ [EvFatal format args]) w').
Proof.
  intros Q. eapply trace_step_trans; [exact Q|]. by exists [EvFatal format args].
Qed.

(** *** Rendering and the exit status *)

Lemma bind_emit {B} e (k : unit → M B) w :
  (emit e ≫= k) w = k tt (with_trace (trace w ++ [e]) w).
Proof. reflexivity. Qed.

Lemma bind_warning {B} format args (k : unit → M B) w :
  (warning format args ≫= k) w =
  k tt (with_trace (trace w ++ [EvWarning format args]) w).
Proof. reflexivity. Qed.

Lemma bind_assoc {A B C} (m : M A) (f : A → M B) (g : B → M C) w :
  ((m ≫= f) ≫= g) w = (m ≫= (λ x, f x ≫= g)) w.
Proof. unfold mbind, M_bind, bind. by destruct (m w) as [[]]. Qed.

Lemma bind_ret_l {A B} (a : A) (k : A → M B) w : (ret a ≫= k) w = k a w.
Proof. reflexivity. Qed.

Lemma with_trace_id w : with_trace (trace w ++ []) w = w.
Proof. destruct w. unfold with_trace. simpl. by rewrite app_nil_r. Qed.

Lemma report_errors (errs : list string) (status : Z) (w : World) :
  for_fold errs (λ status err, warning "%s" [err];; ret (Z.lor status 2))
           status w =
  (Ret (Z.lor status (diagnostics_bit errs)),
   with_trace (trace w ++ error_warnings errs) w).
Proof.
  revert status w. induction errs as [|err errs IH]; intros status w.
  - simpl. by rewrite Z.lor_0_r, with_trace_id.
  - cbn [for_fold]. rewrite bind_assoc, bind_warning. cbn beta. rewrite bind_ret_l, IH. f_equal.
    + f_equal. rewrite <- Z.lor_assoc. f_equal. by destruct errs.
    + unfold with_trace. simpl. by rewrite <- app_assoc.
Qed.

Lemma console_loop (issues : list Issue) (status : Z) (w : World) :
  for_fold issues (λ status issue,
    errors ← config Errors;
    if errors && negb (Severity_eqb (issue_Severity issue) Error)
    then ret status
    else emit (EvStdout (Issue_String issue +:+ LF));; ret 1) status w =
  (Ret (if existsb (shown (Configuration w)) issues then 1 else status),
   with_trace (trace w ++ console_lines (Configuration w) issues) w).
Proof.
  revert status w. induction issues as [|issue issues IH]; intros status w.
  - simpl. by rewrite with_trace_id.
  - cbn [for_fold]. rewrite bind_assoc, bind_config.
    unfold console_lines. cbn [existsb List.filter]. unfold shown at 1 3.
    destruct (Errors (Configuration w) && _); cbn [negb orb].
    + rewrite bind_ret_l. apply IH.
    + rewrite bind_assoc, bind_emit. cbn beta. rewrite bind_ret_l, IH.
      f_equal.
      * f_equal. by destruct (existsb _ _).
      * unfold with_trace. simpl. by rewrite <- app_assoc.
Qed.

Lemma outputToConsole_run (issues : list Issue) (w : World) :
  outputToConsole issues w =
  (Ret (rendered_bit (Configuration w) issues),
   with_trace (trace w ++ console_lines (Configuration w) issues) w).
Proof. unfold outputToConsole, rendered_bit. apply console_loop. Qed.

Lemma json_loop (issues : list Issue) (status : Z) (w : World) r w' :
  for_fold issues (λ status issue,
    errors ← config Errors;
    if errors && negb (Severity_eqb (issue_Severity issue) Error)
    then ret status
    else
      (if negb (status =? 0)%Z then emit (EvStdout ("," +:+ LF)) else ret tt);;
      match json_Marshal issue with
      | inr err => kingpin_Fatalf "" [err]
      | inl d => emit (EvStdout ("  " +:+ d));; ret 1
      end) status w = (Ret r, w') →
  r = (if existsb (shown (Configuration w)) issues then 1 else status)
  ∧ Configuration w' = Configuration w.
Proof.
  match goal with |- context [for_fold _ ?b] => set (body := b) end.
  revert status w. induction issues as [|issue issues IH]; intros status w.
  - simpl. by intros [= <- <-].
  - cbn [for_fold existsb]. unfold body at 2. cbn beta.
    rewrite bind_assoc, bind_config. unfold shown at 1.
    destruct (Errors (Configuration w) && _); cbn [negb orb].
    + rewrite bind_ret_l. apply IH.
    + rewrite !bind_assoc.
      destruct (json_Marshal issue) as [d|err].
      * destruct (negb (status =? 0)%Z).
        -- rewrite bind_emit, bind_assoc, bind_emit. cbn beta.
           rewrite bind_ret_l. intros [-> C]%IH. split; [|exact C].
           by destruct (existsb _ _).
        -- rewrite bind_ret_l, bind_assoc, bind_emit. cbn beta.
           rewrite bind_ret_l. intros [-> C]%IH. split; [|exact C].
           by destruct (existsb _ _).
      * destruct (negb (status =? 0)%Z).
        -- rewrite bind_emit. cbn beta. unfold kingpin_Fatalf.
           rewrite !bind_assoc, bind_emit. done.
        -- rewrite bind_ret_l. unfold kingpin_Fatalf.
           rewrite !bind_assoc, bind_emit. done.
Qed.

(** [outputToJSON] returns 1 exactly when it printed an issue. *)
Lemma outputToJSON_status (issues : list Issue) (w : World) r w' :
  outputToJSON issues w = (Ret r, w') →
  r = rendered_bit (Configuration w) issues.
Proof.
  unfold outputToJSON. rewrite bind_emit.
  match goal with |- context [for_fold _ ?b] => set (body := b) end.
  destruct (for_fold issues body 0 (with_trace (trace w ++ [EvStdout ("[" +:+ LF)]) w))
    as [[s|n|m] w1] eqn:E.
  - rewrite (bind_Ret _ _ _ _ _ E), bind_emit. cbn beta.
    intros [= <- _]. by apply json_loop in E as [-> _].
  - by rewrite (bind_Exit _ _ _ _ _ E).
  - by rewrite (bind_Panic _ _ _ _ _ E).
Qed.

(** C3: the linter errors are read after the issues were rendered;
    each becomes a warning, apart from the issues; they do not keep
    the issues from being rendered, and only add bit 2 to the exit
    status, to which the rendered issues contribute bit 1. *)
Theorem diagnostics_follow_issues (paths : list string) (w : World)
    linters resolved exclude include w1 issues errs rendered w2 :
  Install (Configuration w) = false →
  Run_startup paths w = (Ret (linters, resolved, exclude, include), w1) →
  runLinters linters resolved (Concurrency (Configuration w1))
             exclude include (started linters resolved w1)
    = (issues, errs) →
  renderer (Configuration w1) issues (started linters resolved w1)
    = (Ret rendered, w2) →
  Run paths w =
    (Exit (Z.lor rendered (diagnostics_bit errs)),
     with_trace
       (trace w2 ++ error_warnings errs ++
        (if Debug (Configuration w2)
         then [EvDebug "total elapsed time %s" []] else []))
       w2)
  ∧ (JSON (Configuration w1) = true ∨ Checkstyle (Configuration w1) = false →
     rendered = rendered_bit (Configuration w1) issues
     ∧ Z.testbit (Z.lor rendered (diagnostics_bit errs)) 0
       = existsb (shown (Configuration w1)) issues
     ∧ Z.testbit (Z.lor rendered (diagnostics_bit errs)) 1
       = negb (bool_decide (errs = [])))
  ∧ (JSON (Configuration w1) = false → Checkstyle (Configuration w1) = false →
     trace w2 = trace w1 ++ [EvRunLinters linters resolved]
                ++ console_lines (Configuration w1) issues).
Proof.
  intros Hinstall Hstart Hjobs Hrender.
  split; [|split].
  - rewrite (Run_unfold paths w Hinstall), (bind_Ret _ _ _ _ _ Hstart).
    unfold Run_report. cbn beta iota. rewrite bind_config, bind_emit.
    cbn beta.
    fold (started linters resolved w1).
    erewrite (bind_Ret _ _ (started linters resolved w1))
      by (rewrite Hjobs; reflexivity).
    cbn beta iota. rewrite !bind_config. cbn beta.
    change (Configuration (started linters resolved w1))
      with (Configuration w1).
    fold (renderer (Configuration w1) issues).
    rewrite (bind_Ret _ _ _ _ _ Hrender). cbn zeta.
    erewrite bind_Ret by apply report_errors.
    rewrite Z.lor_0_l. unfold debug. rewrite bind_assoc, bind_config.
    cbn [Configuration with_trace].
    destruct (Debug (Configuration w2)).
    + rewrite bind_emit. unfold os_Exit, with_trace. simpl.
      by rewrite <- app_assoc.
    + rewrite bind_ret_l. unfold os_Exit, with_trace. simpl.
      by rewrite app_nil_r.
  - intros Hmode.
    assert (rendered = rendered_bit (Configuration w1) issues) as ->.
    { unfold renderer in Hrender.
      destruct (JSON (Configuration w1)).
      - by apply outputToJSON_status in Hrender.
      - destruct Hmode as [?|Hc]; [done|]. rewrite Hc in Hrender.
        rewrite outputToConsole_run in Hrender. by injection Hrender. }
    split; [done|]. unfold rendered_bit.
    by destruct (existsb _ _), errs.
  - intros Hj Hc. unfold renderer in Hrender. rewrite Hj, Hc in Hrender.
    rewrite outputToConsole_run in Hrender. injection Hrender as _ <-.
    simpl. by rewrite <- app_assoc.
Qed.
End RunProps.

Section CommandLine.
Context `{Externals}.

Lemma enums_Set_unknown options value target :
  value ∉ options → ∃ err, Main.enums_Set options value target = inr err.
Proof.
  intros Hout. unfold Main.enums_Set.
  destruct (existsb (String.eqb value) options) eqn:E; [|by eexists].
  apply existsb_exists in E as (x & Hin & ->%String.eqb_eq).
  by apply list_elem_of_In in Hin.
Qed.

Lemma enums_Set_known options value target keys :
  Main.enums_Set options value target = inl keys →
  value ∈ options ∧ keys = target ++ [value].
Proof.
  unfold Main.enums_Set.
  destruct (existsb (String.eqb value) options) eqn:E; [|done].
  intros [= <-]. split; [|done].
  apply existsb_exists in E as (x & Hin & ->%String.eqb_eq).
  by apply list_elem_of_In.
Qed.

(** A value of [--sort] outside [sortKeys] makes the flags fail. *)
Lemma set_values_rejects (flags : list Main.Flag) (c : Config) (v : string) :
  Main.flag_sort v ∈ flags → v ∉ Main.sortKeys →
  ∃ err, Main.set_values flags c = inr err.
Proof.
  intros Hin Hout. revert c.
  induction flags as [|f flags IH]; intros c; [by apply elem_of_nil in Hin|].
  cbn [Main.set_values].
  destruct (Main.set_value f c) as [c'|err] eqn:E; [|by eexists].
  apply elem_of_cons in Hin as [<-|Hin]; [|by apply IH].
  cbn [Main.set_value] in E.
  destruct (enums_Set_unknown Main.sortKeys v (Sort c) Hout) as [err Herr].
  by rewrite Herr in E.
Qed.

(** The flag path: a sort key outside [sortKeys] given with [--sort]
    is rejected when the command line is parsed, and [main] exits
    before [Run] is called. *)
Lemma unknown_sort_flag_rejected (args : list Main.Arg) (w : World)
    (v : string) :
  Main.arg_flag (Main.flag_sort v) ∈ args → v ∉ Main.sortKeys →
  ∃ err,
    Main.Parse args w = (Ret (Some err), w)
    ∧ Main.main args w =
        (Exit 1, with_trace (trace w ++ [EvFatal "%s, try --help" [err]]) w).
Proof.
  intros Hin Hout.
  assert (Main.flag_sort v ∈ Main.flags_of args) as Hf.
  { unfold Main.flags_of. apply list_elem_of_omap.
    by exists (Main.arg_flag (Main.flag_sort v)). }
  destruct (set_values_rejects _ (Configuration w) v Hf Hout) as [err E].
  exists err.
  assert (Main.Parse args w = (Ret (Some err), w)) as EP.
  { unfold Main.Parse. rewrite bind_config.
    change (id (Configuration w)) with (Configuration w). by rewrite E. }
  split; [exact EP|].
  unfold Main.main. by rewrite (bind_Ret _ _ _ _ _ EP).
Qed.

(** Storing flag values keeps the sort keys inside [sortKeys]. *)
Lemma set_values_sort_keys (flags : list Main.Flag) (c c' : Config) :
  Forall (λ key, key ∈ Main.sortKeys) (Sort c) →
  Main.set_values flags c = inl c' →
  Forall (λ key, key ∈ Main.sortKeys) (Sort c').
Proof.
  revert c. induction flags as [|f flags IH]; intros c Hc; cbn [Main.set_values].
  - by intros [= <-].
  - destruct (Main.set_value f c) as [c1|] eqn:E; [|done].
    apply IH. destruct f; cbn [Main.set_value] in E;
      try (injection E as <-; exact Hc).
    + destruct (_ || _); [|done]. by injection E as <-.
    + injection E as <-. by destruct f.
    + destruct (Main.enums_Set _ _ _) as [keys|] eqn:Ek; [|done].
      injection E as <-. apply enums_Set_known in Ek as [Hv ->].
      cbn. apply Forall_app. split; [exact Hc|by constructor].
Qed.

End CommandLine.

Section CommandLineSort.
Context `{Externals}.

Lemma for_each_enable_sort (names : list string) (w : World) :
  ∃ w', for_each names (λ linter,
          enable ← config Enable;
          assign (set_Enable (enable ++ [linter]))) w = (Ret tt, w')
        ∧ Sort (Configuration w') = Sort (Configuration w).
Proof.
  revert w. induction names as [|name names IH]; intros w.
  - by exists w.
  - cbn [for_each]. rewrite bind_assoc, bind_config.
    match goal with
    | |- context [(assign ?u ≫= ?k) w] =>
        change ((assign u ≫= k) w)
          with (k tt (with_Configuration (u (Configuration w)) w))
    end.
    cbn beta.
    destruct (IH (with_Configuration
                    (set_Enable (Enable (Configuration w) ++ [name])
                       (Configuration w)) w)) as (w' & E & S).
    exists w'. split; [exact E|]. by rewrite S.
Qed.

(** No action but [loadConfig] touches the sort keys. *)
Lemma action_keeps_sort (f : Main.Flag) (w : World) :
  (∀ file, f ≠ Main.flag_config file) →
  ∃ err w', Main.action f w = (Ret err, w')
            ∧ Sort (Configuration w') = Sort (Configuration w).
Proof.
  intros Hf. destruct f; try (by eexists _, _).
  - by destruct (Hf file).
  - cbn [Main.action]. unfold Main.cliLinterOverrides.
    destruct (_ <? _)%nat; [by eexists _, _|].
    destruct (ParseLinterConfigSpec _ _); by eexists _, _.
  - cbn [Main.action]. unfold Main.enableAllAction.
    destruct (for_each_enable_sort DefaultLinters w) as (w' & E & S).
    rewrite (bind_Ret _ _ _ _ _ E). eexists _, _.
    split; [reflexivity|exact S].
Qed.

Lemma run_actions_keep_sort (flags : list Main.Flag) (w : World) :
  (∀ file, Main.flag_config file ∉ flags) →
  ∃ err w', Main.run_actions flags w = (Ret err, w')
            ∧ Sort (Configuration w') = Sort (Configuration w).
Proof.
  revert w. induction flags as [|f flags IH]; intros w Hf.
  - by exists None, w.
  - cbn [Main.run_actions].
    destruct (action_keeps_sort f w) as (err1 & w1 & E1 & S1).
    { intros file ->. apply (Hf file). left. }
    rewrite (bind_Ret _ _ _ _ _ E1).
    destruct err1 as [e|]; [by exists (Some e), w1|].
    destruct (IH w1) as (err2 & w2 & E2 & S2).
    { intros file Hin. apply (Hf file). by right. }
    exists err2, w2. split; [exact E2|congruence].
Qed.

(** Without a configuration file, a command line that is parsed
    without an error leaves only keys of [sortKeys] in
    [Configuration.Sort]. *)
Lemma parsed_sort_keys (args : list Main.Arg) (w : World) err w' :
  (∀ file, Main.arg_flag (Main.flag_config file) ∉ args) →
  Forall (λ key, key ∈ Main.sortKeys) (Sort (Configuration w)) →
  Main.Parse args w = (Ret err, w') →
  err = None →
  Forall (λ key, key ∈ Main.sortKeys) (Sort (Configuration w')).
Proof.
  intros Hf Hs. unfold Main.Parse. rewrite bind_config.
  change (id (Configuration w)) with (Configuration w).
  destruct (Main.set_values _ _) as [c'|e] eqn:E.
  2:{ by intros [= <- <-]. }
  apply (set_values_sort_keys _ _ _ Hs) in E.
  change ((assign (λ _, c') ≫= ?k) w) with (k tt (with_Configuration c' w)).
  cbn beta.
  destruct (run_actions_keep_sort (Main.flags_of args)
              (with_Configuration c' w)) as (err2 & w2 & E2 & S2).
  { intros file Hin. apply (Hf file).
    apply list_elem_of_omap in Hin as ([f|p] & Hin & Heq); [|done].
    by injection Heq as ->. }
  rewrite E2. intros [= <- <-] _. by rewrite S2.
Qed.
End CommandLineSort.

#[local] Existing Instance Scenario.externals.

(** C4 at the failing input: the configuration file conf.json holds
    [{"Sort": ["bogus"]}]; the command line [--config conf.json .]
    is parsed without an error, leaves the key ["bogus"], which is
    not in [sortKeys], in [Configuration.Sort], and the linters
    run. *)
Theorem sort_key_from_config_file_unchecked :
  ("bogus" ∉ Main.sortKeys)
  ∧ (Main.Parse Scenario.command_line Scenario.plain).1 = Ret None
  ∧ Sort (Configuration (Main.Parse Scenario.command_line Scenario.plain).2)
    = ["bogus"]
  ∧ (Main.main Scenario.command_line Scenario.plain).1 = Exit 3
  ∧ jobs_started (trace (Main.main Scenario.command_line Scenario.plain).2)
    = true.
Proof.
  split.
  { intros Hin. unfold Main.sortKeys in Hin.
    repeat (apply elem_of_cons in Hin as [Hin|Hin]; [discriminate Hin|]).
    by apply elem_of_nil in Hin. }
  split; [by vm_compute|]. split; [by vm_compute|].
  split; by vm_compute.
Qed.

(** ** The repository's tests, run on the model *)

(** The test vectors of Go's [path/filepath] for [Clean], [Dir] and
    [Base]. *)
Example Clean_vectors :
  filepath.Clean <$>
    [""; "abc"; "abc/def"; "."; ".."; "../.."; "../../abc"; "/abc"; "/";
     "abc/"; "./"; "../"; "/abc/"; "abc//def//ghi"; "//abc"; "abc/./def";
     "/./abc/def"; "abc/."; "abc/def/ghi/../jkl"; "abc/def/../.."; 
     "/abc/def/../../.."; "abc/def/../../../ghi/jkl/../../../mno";
     "/../abc"; "abc/./../def"; "abc/../../././../def"]
  = ["."; "abc"; "abc/def"; "."; ".."; "../.."; "../../abc"; "/abc"; "/";
     "abc"; "."; ".."; "/abc"; "abc/def/ghi"; "/abc"; "abc/def";
     "/abc/def"; "abc"; "abc/def/jkl"; "."; "/"; "../../mno";
     "/abc"; "def"; "../../def"].
Proof. vm_compute. reflexivity. Qed.

Example Dir_vectors :
  filepath.Dir <$> [""; "."; "/."; "/"; "////"; "/foo"; "x/"; "abc";
                    "abc/def"; "a/b/.x"; "a/b/c."; "a/b/c.x"]
  = ["."; "."; "/"; "/"; "/"; "/"; "x"; "."; "abc"; "a/b"; "a/b"; "a/b"].
Proof. vm_compute. reflexivity. Qed.

Example Base_vectors :
  filepath.Base <$> [""; "."; "/."; "/"; "////"; "x/"; "abc"; "abc/def";
                     "a/b/.x"; "a/b/c."; "a/b/c.x"]
  = ["."; "."; "."; "/"; "/"; "x"; "abc"; "def"; ".x"; "c."; "c.x"].
Proof. vm_compute. reflexivity. Qed.

Example TestRelativePackagePath :
  relativePackagePath <$> ["/abs/path"; "."; "./foo"; "relative/path"]
  = ["/abs/path"; "."; "./foo"; "./relative/path"].
Proof. vm_compute. reflexivity. Qed.

Example TestResolvePathsNoPaths :
  (resolvePaths [] [] Scenario.plain).1 = Ret ["."].
Proof. reflexivity. Qed.

Example TestResolvePathsNoExpands :
  (resolvePaths ["."; "foo"; "foo/bar"] ["foo/bar"] Scenario.plain).1
  = Ret ["."; "./foo"; "./foo/bar"].
Proof. vm_compute. reflexivity. Qed.

Example TestResolvePathsWithExpands :
  (resolvePaths ["./..."; "foo"; "duplicate"] ["exclude"; "other/exclude"]
                Scenario.plain).1
  = Ret ["."; "./duplicate"; "./foo"; "./include"; "./include/foo"].
Proof. vm_compute. reflexivity. Qed.

Example TestPathFilter :
  newPathFilter ["exclude"; "skip.go"] <$>
    ["exclude"; "something/skip.go"; "skip.go"; ".git"; "_ignore";
     "include.go"; "."; ".."]
  = [true; true; true; true; true; false; false; false].
Proof. vm_compute. reflexivity. Qed.

Example TestAddPath :
  addPath ["existing"] "existing" = ["existing"]
  ∧ addPath ["existing"] "new" = ["existing"; "new"].
Proof. split; reflexivity. Qed.

(** [--linter a:b:c] defines the linter [a] with command [b] and
    pattern [c]; a value without a colon is refused by the action. *)
Example TestSetupFlagsLinterFlag :
  (Main.Parse [Main.arg_flag (Main.flag_linter "a:b:c")] Scenario.plain).1
    = Ret None
  ∧ Linters (Configuration
      (Main.Parse [Main.arg_flag (Main.flag_linter "a:b:c")]
                  Scenario.plain).2) !! "a"
    = Some {| Command := "b"; Pattern := "c"; InstallFrom := "";
              IsFast := false |}
  ∧ Main.Parse [Main.arg_flag (Main.flag_linter "a=b")] Scenario.plain
    = (Ret (Some "incorrectly formatted input: a=b"), Scenario.plain).
Proof. split; [|split]; vm_compute; reflexivity. Qed.

(** ** The properties on the concrete installation *)

(** C1, as stated, fails when JSON output is selected as well: the
    sort keys stay as configured. *)
Lemma checkstyle_with_json_keeps_sort :
  Checkstyle (Configuration Scenario.checkstyle_json) = true
  ∧ ∃ r w', processConfig Scenario.checkstyle_json = (Ret r, w')
            ∧ Sort (Configuration w') = ["severity"]
            ∧ Sort (Configuration w') ≠ ["path"].
Proof.
  split; [reflexivity|].
  eexists _, _. split; [vm_compute; reflexivity|].
  split; [reflexivity|discriminate].
Qed.

Lemma checkstyle_forces_path_sort_witness :
  Checkstyle (Configuration Scenario.checkstyle_only) = true
  ∧ JSON (Configuration Scenario.checkstyle_only) = false
  ∧ ∃ r w', processConfig Scenario.checkstyle_only = (Ret r, w')
            ∧ Sort (Configuration w') = ["path"].
Proof.
  split; [reflexivity|]. split; [reflexivity|].
  refine (proj2 (checkstyle_forces_path_sort _ _ _) _ _ _ _);
    reflexivity.
Defined.

(** C2, as stated, fails: without GOPATH and without a current user
    [Run] ends with status 1 before any linter is started, although
    the format parses, there are no patterns and every linter set is
    accepted. *)
Lemma run_aborts_without_configuration_error :
  Install (Configuration Scenario.homeless) = false
  ∧ (∃ tmpl, @template_Parse Scenario.lenient
               (Format (Configuration Scenario.homeless)) = inl tmpl)
  ∧ @pattern_ok Scenario.lenient (Exclude (Configuration Scenario.homeless))
    = true
  ∧ @pattern_ok Scenario.lenient (Include (Configuration Scenario.homeless))
    = true
  ∧ (∀ linters c, @validateLinters Scenario.lenient linters c = None)
  ∧ @Run Scenario.lenient ["."] Scenario.homeless =
      (Exit 1,
       with_trace
         [EvFatal "" ["user: Current not implemented on linux/amd64"]]
         Scenario.homeless).
Proof.
  split; [reflexivity|]. split; [by eexists|].
  split; [reflexivity|]. split; [reflexivity|]. split; [done|].
  reflexivity.
Qed.

Lemma diagnostics_follow_issues_witness :
  Install (Configuration Scenario.plain) = false
  ∧ ∃ w', Run ["."] Scenario.plain = (Exit 3, w').
Proof.
  split; [reflexivity|].
  edestruct (diagnostics_follow_issues ["."] Scenario.plain) as (E & _);
    [reflexivity
    |vm_compute; reflexivity
    |vm_compute; reflexivity
    |vm_compute; reflexivity
    |].
  eexists. exact E.
Defined.

Lemma patterns_compiled_once_witness :
  ∃ include exclude w' evs,
    processConfig Scenario.with_patterns = (Ret (include, exclude), w')
    ∧ trace w' = trace Scenario.with_patterns ++ evs
    ∧ regexp_compilations evs = ["comment|generated"; "unreachable"]
    ∧ exclude = Some {| regexp_text := "comment|generated" |}
    ∧ include = Some {| regexp_text := "unreachable" |}.
Proof.
  edestruct (patterns_compiled_once Scenario.with_patterns)
    as (include & exclude & w' & evs & E & T & R & (re1 & C1 & ->)
        & (re2 & C2 & ->));
    [reflexivity|reflexivity|reflexivity|].
  exists (Some re2), (Some re1), w', evs.
  split; [exact E|]. split; [exact T|]. split; [exact R|].
  injection C1 as <-. injection C2 as <-. split; reflexivity.
Defined.

Lemma fast_only_linters_witness :
  Fast (Configuration Scenario.fast_only) = true
  ∧ ∃ out w',
      lintersFromConfig Scenario.fast_only = (Ret out, w')
      ∧ out !! "errcheck" = None
      ∧ ∀ name linter,
          out !! name = Some linter → IsFast (linterConfig linter) = true.
Proof.
  split; [reflexivity|].
  destruct (fast_only_linters Scenario.fast_only eq_refl)
    as (out & w' & E & Hfast & Hslow).
  exists out, w'. split; [exact E|]. split; [|exact Hfast].
  apply Hslow. reflexivity.
Defined.

Lemma disable_takes_precedence_witness :
  "vet" ∈ Enable (Configuration Scenario.vet_disabled)
  ∧ "vet" ∈ Disable (Configuration Scenario.vet_disabled)
  ∧ ∃ out w',
      lintersFromConfig Scenario.vet_disabled = (Ret out, w')
      ∧ out !! "vet" = None.
Proof.
  split; [apply list_elem_of_further, list_elem_of_here|].
  split; [apply list_elem_of_here|].
  apply (disable_takes_precedence Scenario.vet_disabled "vet").
  apply list_elem_of_here.
Defined.

Lemma listed_paths_not_filtered_witness :
  newPathFilter ["foo/bar"] "foo/bar" = true
  ∧ newPathFilter ["foo/bar"] ".git" = true
  ∧ ∃ out w',
      resolvePaths ["."; "foo"; "foo/bar"; ".git"] ["foo/bar"] Scenario.plain
        = (Ret out, w')
      ∧ "./foo/bar" ∈ out.
Proof.
  split; [by vm_compute|]. split; [by vm_compute|].
  destruct (listed_paths_not_filtered
              ["."; "foo"; "foo/bar"; ".git"] ["foo/bar"] Scenario.plain
              "foo/bar")
    as (out & w' & E & Hin & _).
  - do 2 apply list_elem_of_further. apply list_elem_of_here.
  - reflexivity.
  - exists out, w'. split; [exact E|].
    assert (relativePackagePath (filepath.Clean "foo/bar") = "./foo/bar")
      as <- by (vm_compute; reflexivity).
    exact Hin.
Defined.

(** ** Further properties: the search path *)

Section SearchPath.

Lemma existsb_eqb_elem_of (x : string) (l : list string) :
  existsb (String.eqb x) l = true ↔ x ∈ l.
Proof.
  rewrite existsb_exists. split.
  - intros (y & Hin & ->%String.eqb_eq). by apply list_elem_of_In.
  - intros Hin. exists x. split; [by apply list_elem_of_In|apply String.eqb_refl].
Qed.

Lemma Join_Split (s : string) (sep : ascii) :
  strings.Join (strings.Split s sep) (String sep "") = s.
Proof.
  unfold strings.Join. induction s as [|c s IH]; [done|].
  cbn [strings.Split]. destruct (Ascii.eqb_spec c sep) as [->|Hne].
  - cbn [String.concat].
    pose proof (Split_nonempty s sep) as Hn.
    destruct (strings.Split s sep) as [|x xs] eqn:E; [done|].
    rewrite IH. done.
  - pose proof (Split_nonempty s sep) as Hn.
    destruct (strings.Split s sep) as [|x xs] eqn:E; [done|].
    cbn [String.concat] in *. destruct xs.
    + by rewrite IH.
    + by rewrite <- IH.
Qed.

Lemma addPath_cases (paths : list string) (path : string) :
  (path ∈ paths ∧ addPath paths path = paths)
  ∨ ((path ∉ paths) ∧ addPath paths path = paths ++ [path]).
Proof.
  unfold addPath. destruct (existsb _ _) eqn:E.
  - left. by apply existsb_eqb_elem_of in E.
  - right. split; [|done]. intros Hin%existsb_eqb_elem_of. congruence.
Qed.

Lemma addPath_facts (paths : list string) (path : string) :
  paths `prefix_of` addPath paths path
  ∧ (∀ q, q ∈ addPath paths path ↔ q ∈ paths ∨ q = path)
  ∧ (NoDup paths → NoDup (addPath paths path)).
Proof.
  destruct (addPath_cases paths path) as [[Hin E]|[Hout E]]; rewrite !E.
  - repeat split; try done.
    + by left.
    + by intros [?| ->].
  - repeat split.
    + by exists [path].
    + rewrite elem_of_app, list_elem_of_singleton. tauto.
    + rewrite elem_of_app, list_elem_of_singleton. tauto.
    + intros Hnd. apply NoDup_app. split; [done|].
      split; [|apply NoDup_singleton].
      intros x Hx ->%list_elem_of_singleton. done.
Qed.

(** X1: [addPath] keeps the list as it is when the path is in it, and
    appends the path otherwise: the path is in the result, the old
    entries stay in front in their order, nothing else is added, no
    duplicate is introduced, and adding the same path again changes
    nothing. *)
Theorem addPath_appends_once (paths : list string) (path : string) :
  path ∈ addPath paths path
  ∧ paths `prefix_of` addPath paths path
  ∧ (∀ q, q ∈ addPath paths path ↔ q ∈ paths ∨ q = path)
  ∧ (NoDup paths → NoDup (addPath paths path))
  ∧ addPath (addPath paths path) path = addPath paths path.
Proof.
  destruct (addPath_facts paths path) as (P & M & N).
  assert (path ∈ addPath paths path) as Hin by (apply M; by right).
  split; [done|]. split; [done|]. split; [done|]. split; [done|].
  by destruct (addPath_cases (addPath paths path) path) as [[_ E]|[Hout _]].
Qed.

Lemma addPath_fold (gopaths paths : list string) :
  let result :=
    fold_left (λ paths p, addPath paths (filepath.Join [p; "bin"]))
              gopaths paths in
  paths `prefix_of` result
  ∧ (∀ q, q ∈ result ↔
          q ∈ paths ∨ ∃ p, p ∈ gopaths ∧ q = filepath.Join [p; "bin"])
  ∧ (NoDup paths → NoDup result).
Proof.
  revert paths. induction gopaths as [|p gopaths IH]; intros paths; simpl.
  - split; [done|]. split; [|done].
    intros q. split; [by left|]. intros [?|(p & Hp & _)]; [done|].
    by apply elem_of_nil in Hp.
  - destruct (IH (addPath paths (filepath.Join [p; "bin"]))) as (P & M & N).
    destruct (addPath_facts paths (filepath.Join [p; "bin"]))
      as (P1 & M1 & N1).
    split; [by etrans|]. split; [|auto].
    intros q. rewrite M, M1. split.
    + intros [[?| ->]|(p' & Hp' & ->)]; [by left|..].
      * right. exists p. split; [left|done].
      * right. exists p'. split; [by right|done].
    + intros [?|(p' & [->|Hp']%elem_of_cons & ->)].
      * by left; left.
      * by left; right.
      * right. by exists p'.
Qed.

Lemma addGoBinsToPath_run (gopaths : list string) (w : World) :
  ∃ paths, addGoBinsToPath gopaths w = (Ret paths, w).
Proof.
  unfold addGoBinsToPath. rewrite bind_Getenv. cbn zeta.
  rewrite bind_Getenv. by eexists.
Qed.

(** X2: [addGoBinsToPath] keeps the entries of $PATH in front, in
    their order, adds the [bin] directory of every GOPATH entry and,
    when it is set, $GOBIN, and adds nothing else; it introduces no
    duplicate and changes nothing in the process. *)
Theorem addGoBinsToPath_result (gopaths : list string) (w : World) :
  let old := strings.Split (default "" (environ w !! "PATH"))
                           PathListSeparator in
  let gobin := default "" (environ w !! "GOBIN") in
  ∃ paths,
    addGoBinsToPath gopaths w = (Ret paths, w)
    ∧ old `prefix_of` paths
    ∧ (∀ q, q ∈ paths ↔
            q ∈ old
            ∨ (∃ p, p ∈ gopaths ∧ q = filepath.Join [p; "bin"])
            ∨ (gobin ≠ "" ∧ q = gobin))
    ∧ (NoDup old → NoDup paths).
Proof.
  intros old gobin. unfold addGoBinsToPath.
  rewrite bind_Getenv. fold old. cbn zeta.
  destruct (addPath_fold gopaths old) as (P & M & N). cbn zeta in P, M, N.
  set (bins := fold_left _ gopaths old) in *.
  rewrite bind_Getenv. fold gobin.
  eexists. split; [reflexivity|].
  destruct (String.eqb_spec gobin "") as [E|E]; cbn [negb].
  - split; [done|]. split; [|done].
    intros q. rewrite M. split; [intros [?|?]; auto|].
    intros [?|[?|[? _]]]; auto. done.
  - destruct (addPath_facts bins gobin) as (P1 & M1 & N1).
    split; [by etrans|]. split; [|auto].
    intros q. rewrite M1, M. split.
    + intros [[?|?]| ->]; auto.
    + intros [?|[?|[_ ->]]]; auto.
Qed.

(** X3: the list of GOPATH entries is never empty, and reading it
    changes nothing: [gopaths[0]] in
    [configureEnvironmentForInstall] is always in range. *)
Theorem getGoPathList_nonempty (w : World) gopaths w' :
  getGoPathList w = (Ret gopaths, w') →
  gopaths ≠ [] ∧ w' = w
  ∧ strings.Join gopaths ":" =
      (if String.eqb (default "" (environ w !! "GOPATH")) ""
       then match current_user w with
            | inl home => filepath.Join [home; "go"]
            | inr _ => ""
            end
       else default "" (environ w !! "GOPATH")).
Proof.
  unfold getGoPathList, getGoPath. rewrite bind_assoc, bind_Getenv.
  destruct (String.eqb _ "") eqn:E.
  - rewrite bind_assoc.
    change ((user_Current ≫= ?k) w) with (k (current_user w) w). cbn beta.
    destruct (current_user w) as [home|err].
    + rewrite bind_ret_l. intros [= <- <-].
      split; [apply Split_nonempty|]. split; [done|].
      apply Join_Split.
    + unfold kingpin_Fatalf. rewrite !bind_assoc, bind_emit. done.
  - rewrite bind_ret_l. intros [= <- <-].
    split; [apply Split_nonempty|]. split; [done|apply Join_Split].
Qed.
End SearchPath.

(** ** Further properties: the environment *)

Section Environment.

Lemma same_but_trace_refl w : same_but_trace w w.
Proof. by repeat split. Qed.

Lemma same_but_trace_trans w1 w2 w3 :
  same_but_trace w1 w2 → same_but_trace w2 w3 → same_but_trace w1 w3.
Proof.
  intros (A1 & A2 & A3 & A4 & A5) (B1 & B2 & B3 & B4 & B5).
  repeat split; congruence.
Qed.

Lemma debug_same format args w :
  ∃ w', debug format args w = (Ret tt, w') ∧ same_but_trace w w'.
Proof.
  unfold debug. rewrite bind_config. destruct (Debug (Configuration w)).
  - eexists. split; [reflexivity|]. by repeat split.
  - eexists. split; [reflexivity|]. apply same_but_trace_refl.
Qed.

Lemma debugPrintEnv_same w :
  ∃ w', debugPrintEnv w = (Ret tt, w') ∧ same_but_trace w w'.
Proof.
  unfold debugPrintEnv.
  destruct (debug_same "PATH=%s" [default "" (environ w !! "PATH")] w)
    as (w1 & E1 & Q1).
  destruct (debug_same "GOPATH=%s" [default "" (environ w1 !! "GOPATH")] w1)
    as (w2 & E2 & Q2).
  destruct (debug_same "GOBIN=%s" [default "" (environ w2 !! "GOBIN")] w2)
    as (w3 & E3 & Q3).
  exists w3. split; [|eauto using same_but_trace_trans].
  rewrite bind_Getenv, (bind_Ret _ _ _ _ _ E1).
  rewrite bind_Getenv, (bind_Ret _ _ _ _ _ E2).
  rewrite bind_Getenv. exact E3.
Qed.

(** [setEnv] sets the variable, or warns and leaves the environment
    as it is. *)
Lemma setEnv_environ key value w :
  ∃ w', setEnv key value w = (Ret tt, w')
        ∧ Configuration w' = Configuration w ∧ fs w' = fs w
        ∧ ((environ w' = <[key := value]> (environ w) ∧ trace w' = trace w)
           ∨ (environ w' = environ w
              ∧ ∃ err, trace w' =
                         trace w ++ [EvWarning "setenv %s: %s" [key; err]])).
Proof.
  unfold setEnv, warning. go_unfold.
  destruct (_ || _).
  - eexists. split; [reflexivity|]. split; [done|]. split; [done|].
    right. split; [done|]. by eexists.
  - eexists. split; [reflexivity|]. split; [done|]. split; [done|].
    by left.
Qed.

(** X4: [configureEnvironment] changes no environment variable but
    PATH and leaves [Configuration] alone. PATH becomes the list of
    [addGoBinsToPath], joined by the list separator; when that value
    cannot be set, a warning is printed and PATH stays as it is. *)
Theorem configureEnvironment_sets_PATH (w w' : World) :
  configureEnvironment w = (Ret tt, w') →
  Configuration w' = Configuration w
  ∧ (∀ key, key ≠ "PATH" → environ w' !! key = environ w !! key)
  ∧ ∃ gopaths paths,
      getGoPathList w = (Ret gopaths, w)
      ∧ addGoBinsToPath gopaths w = (Ret paths, w)
      ∧ (environ w' !! "PATH" = Some (strings.Join paths ":")
         ∨ (environ w' !! "PATH" = environ w !! "PATH"
            ∧ ∃ err, EvWarning "setenv %s: %s" ["PATH"; err] ∈ trace w')).
Proof.
  unfold configureEnvironment.
  pose proof (getGoPathList_run w) as Hg.
  destruct (gopath_error w) as [err|].
  { by rewrite (bind_Exit _ _ _ _ _ Hg). }
  destruct Hg as [gopaths Hg]. rewrite (bind_Ret _ _ _ _ _ Hg).
  destruct (addGoBinsToPath_run gopaths w) as [paths Ha].
  rewrite (bind_Ret _ _ _ _ _ Ha).
  destruct (setEnv_environ "PATH" (strings.Join paths ":") w)
    as (w1 & E1 & C1 & _ & Henv).
  rewrite (bind_Ret _ _ _ _ _ E1).
  destruct (debugPrintEnv_same w1) as (w2 & E2 & C2 & V2 & _).
  rewrite E2. intros [= <-].
  split; [congruence|]. rewrite V2.
  destruct (debugPrintEnv_quiet w1) as (w2' & E2' & _ & evs & T2 & _).
  rewrite E2 in E2'. injection E2' as <-.
  split.
  - intros key Hkey. destruct Henv as [[-> _]|[-> _]]; [|done].
    by rewrite lookup_insert_ne.
  - exists gopaths, paths. split; [done|]. split; [done|].
    destruct Henv as [[-> _]|[-> [err T1]]].
    + left. by rewrite lookup_insert_eq.
    + right. split; [done|]. exists err. rewrite T2, T1.
      apply elem_of_app. left. apply elem_of_app. right.
      apply list_elem_of_here.
Qed.
End Environment.

(** ** Further properties: vendored linters *)

Section Vendored.

Lemma concat_nonempty (e : string) (l : list string) :
  e ≠ "" → String.concat "/" (e :: l) ≠ "".
Proof.
  intros He. destruct e as [|c e]; [done|]. simpl. by destruct l.
Qed.

Lemma Clean_nonempty (path : string) : filepath.Clean path ≠ "".
Proof.
  unfold filepath.Clean.
  destruct (String.eqb path ""); [done|].
  set (rooted := strings.HasPrefix path "/").
  pose proof (clean_fold_ok rooted (strings.Split path filepath.Separator) []
                (Forall_nil_2 _) (Split_no_separator _ _)) as Hok.
  destruct rooted; [done|].
  destruct (fold_left _ _ _) as [|top rest] eqn:E; [done|].
  apply Forall_rev in Hok.
  destruct (rev (top :: rest)) as [|e l] eqn:R.
  { apply (f_equal length) in R. rewrite length_rev in R. done. }
  apply concat_nonempty. inversion Hok as [|? ? [He _]]. done.
Qed.

Lemma vendor_candidates_nonempty (gopaths : list string) (c : string) :
  c ∈ vendor_candidates gopaths → c ≠ "".
Proof.
  unfold vendor_candidates.
  intros Hc. apply list_elem_of_In, in_concat in Hc as (l & Hl & Hc).
  apply in_map_iff in Hl as (home & <- & Hhome).
  apply in_map_iff in Hc as (p & <- & _).
  unfold filepath.Join. cbn [app filepath.drop_empty].
  destruct (String.eqb p ""); cbn [String.eqb Ascii.eqb Bool.eqb];
    apply Clean_nonempty.
Qed.

Lemma first_existing_find (candidates : list string) (w : World) :
  first_existing candidates w =
  (Ret (default "" (List.find (exists_in w) candidates)), w).
Proof.
  induction candidates as [|c rest IH]; [done|].
  cbn [first_existing List.find]. unfold os_Stat_ok.
  rewrite bind_assoc.
  change ((os_Lstat c ≫= ?k) w) with (k (fs w c) w). cbn beta.
  rewrite bind_ret_l. unfold exists_in at 1.
  destruct (fs w c); [reflexivity|reflexivity|exact IH].
Qed.

(** X5: [findVendoredLinters] returns the first directory that exists
    among [<gopath>/src/<location>], all GOPATH entries being tried
    for the first location before the second; it returns the empty
    string exactly when none of them exists, and changes nothing. *)
Theorem findVendoredLinters_first_existing (w : World) root w' :
  findVendoredLinters w = (Ret root, w') →
  w' = w
  ∧ ∃ gopaths,
      getGoPathList w = (Ret gopaths, w)
      ∧ (root = ""
         ↔ ∀ c, c ∈ vendor_candidates gopaths → exists_in w c = false)
      ∧ (root ≠ "" →
         ∃ before after,
           vendor_candidates gopaths = before ++ root :: after
           ∧ exists_in w root = true
           ∧ ∀ c, c ∈ before → exists_in w c = false).
Proof.
  unfold findVendoredLinters.
  pose proof (getGoPathList_run w) as Hg.
  destruct (gopath_error w) as [err|].
  { by rewrite (bind_Exit _ _ _ _ _ Hg). }
  destruct Hg as [gopaths Hg]. rewrite (bind_Ret _ _ _ _ _ Hg).
  fold (vendor_candidates gopaths).
  rewrite first_existing_find. intros [= <- <-].
  split; [done|]. exists gopaths. split; [done|].
  pose proof (vendor_candidates_nonempty gopaths) as Hne.
  induction (vendor_candidates gopaths) as [|c rest IH]; cbn [List.find].
  - split.
    + split; [|done]. intros _ c Hc. by apply elem_of_nil in Hc.
    + done.
  - destruct (exists_in w c) eqn:Ec; cbn [default from_option id].
    + split.
      * split; [intros ->; by destruct (Hne "" (list_elem_of_here _ _))|].
        intros Hall. rewrite Hall in Ec by left. done.
      * intros _. exists [], rest. split; [done|]. split; [done|].
        intros c' Hc'. by apply elem_of_nil in Hc'.
    + destruct IH as [IH1 IH2].
      { intros c' Hc'. apply Hne. by right. }
      split.
      * rewrite IH1. split.
        -- intros Hall c' [->|Hc']%elem_of_cons; auto.
        -- intros Hall c' Hc'. apply Hall. by right.
      * intros Hroot. destruct (IH2 Hroot) as (before & after & Hl & Er & Hb).
        exists (c :: before), after.
        split; [simpl; f_equal; exact Hl|]. split; [done|].
        intros c' [->|Hc']%elem_of_cons; auto.
Qed.

Lemma findVendoredLinters_run (w : World) gopaths :
  getGoPathList w = (Ret gopaths, w) →
  findVendoredLinters w =
    (Ret (default "" (List.find (exists_in w) (vendor_candidates gopaths))), w).
Proof.
  intros Hg. unfold findVendoredLinters. rewrite (bind_Ret _ _ _ _ _ Hg).
  apply first_existing_find.
Qed.

Lemma find_none_all (w : World) (candidates : list string) :
  (∀ c, c ∈ candidates → exists_in w c = false) →
  List.find (exists_in w) candidates = None.
Proof.
  induction candidates as [|c rest IH]; intros Hall; [done|].
  cbn [List.find]. rewrite Hall by left. apply IH.
  intros c' Hc'. apply Hall. by right.
Qed.

Lemma getGoPath_of_list (w : World) gopaths :
  getGoPathList w = (Ret gopaths, w) →
  ∃ gopath, getGoPath w = (Ret gopath, w).
Proof.
  intros Hg.
  pose proof (getGoPath_run w) as Hp. pose proof (getGoPathList_run w) as Hl.
  destruct (gopath_error w) as [err|]; [by rewrite Hl in Hg|exact Hp].
Qed.

Lemma configureEnvironmentForInstall_fatal (w : World) gopaths gopath :
  getGoPathList w = (Ret gopaths, w) →
  getGoPath w = (Ret gopath, w) →
  List.find (exists_in w) (vendor_candidates gopaths) = None →
  configureEnvironmentForInstall w =
    (Exit 1,
     with_trace
       (trace w ++
        [EvFatal "could not find vendored linters in GOPATH=%q" [gopath]])
       w).
Proof.
  intros Hg Hp Hnone. unfold configureEnvironmentForInstall.
  rewrite (bind_Ret _ _ _ _ _ Hg).
  rewrite (bind_Ret _ _ _ _ _ (findVendoredLinters_run w gopaths Hg)).
  rewrite Hnone. cbn [default from_option String.eqb].
  apply bind_Exit. rewrite (bind_Ret _ _ _ _ _ Hp). reflexivity.
Qed.

(** X6: when none of the vendored locations exists,
    [configureEnvironmentForInstall] is fatal: it reports the GOPATH
    and exits with status 1, leaving the environment as it is. *)
Theorem configureEnvironmentForInstall_not_found (w : World) gopaths :
  getGoPathList w = (Ret gopaths, w) →
  (∀ c, c ∈ vendor_candidates gopaths → exists_in w c = false) →
  ∃ gopath,
    getGoPath w = (Ret gopath, w)
    ∧ configureEnvironmentForInstall w =
        (Exit 1,
         with_trace
           (trace w ++
            [EvFatal "could not find vendored linters in GOPATH=%q" [gopath]])
           w).
Proof.
  intros Hg Hnone.
  destruct (getGoPath_of_list w gopaths Hg) as [gopath Hp].
  exists gopath. split; [exact Hp|].
  apply (configureEnvironmentForInstall_fatal w gopaths gopath Hg Hp).
  by apply find_none_all.
Qed.

Lemma configureEnvironmentForInstall_returns (w : World) gopaths root :
  getGoPathList w = (Ret gopaths, w) →
  List.find (exists_in w) (vendor_candidates gopaths) = Some root →
  ∃ w1, configureEnvironmentForInstall w = (Ret tt, w1).
Proof.
  intros Hg Efind. unfold configureEnvironmentForInstall.
  rewrite (bind_Ret _ _ _ _ _ Hg).
  rewrite (bind_Ret _ _ _ _ _ (findVendoredLinters_run w gopaths Hg)).
  rewrite Efind. cbn [default from_option id].
  apply find_some in Efind as [Hin Hex].
  assert (root ≠ "") as Hroot
    by (by apply (vendor_candidates_nonempty gopaths), list_elem_of_In).
  destruct (String.eqb_spec root ""); [done|].
  rewrite bind_ret_l.
  destruct (debug_same "found vendored linters at %s, updating environment"
              [root] w) as (w1 & E1 & _).
  rewrite (bind_Ret _ _ _ _ _ E1), bind_Getenv. cbn zeta.
  match goal with |- context [setEnv "GOBIN" ?v] => set (gobin := v) end.
  destruct (setEnv_environ "GOBIN" gobin w1) as (w2 & E2 & _).
  rewrite (bind_Ret _ _ _ _ _ E2).
  destruct (setEnv_environ "GOPATH" root w2) as (w3 & E3 & _).
  rewrite (bind_Ret _ _ _ _ _ E3).
  destruct (debugPrintEnv_same w3) as (w4 & E4 & _).
  by exists w4.
Qed.

(** X7: when [configureEnvironmentForInstall] returns, GOPATH is the
    vendored location that [findVendoredLinters] found (or a warning
    says that it could not be set), a GOBIN that was set is kept, no
    other variable is touched but GOBIN and GOPATH, and
    [Configuration] is unchanged. *)
Theorem configureEnvironmentForInstall_sets_GOPATH (w w' : World) :
  configureEnvironmentForInstall w = (Ret tt, w') →
  Configuration w' = Configuration w
  ∧ (∀ key, key ≠ "GOBIN" → key ≠ "GOPATH" →
            environ w' !! key = environ w !! key)
  ∧ (default "" (environ w !! "GOBIN") ≠ "" →
     environ w' !! "GOBIN" = environ w !! "GOBIN")
  ∧ ∃ root,
      findVendoredLinters w = (Ret root, w) ∧ root ≠ ""
      ∧ exists_in w root = true
      ∧ (environ w' !! "GOPATH" = Some root
         ∨ ∃ err, EvWarning "setenv %s: %s" ["GOPATH"; err] ∈ trace w').
Proof.
  unfold configureEnvironmentForInstall.
  pose proof (getGoPathList_run w) as Hl. pose proof (getGoPath_run w) as Hp.
  destruct (gopath_error w) as [err|].
  { by rewrite (bind_Exit _ _ _ _ _ Hl). }
  destruct Hl as [gopaths Hg]. destruct Hp as [gopath Hp].
  rewrite (bind_Ret _ _ _ _ _ Hg).
  pose proof (findVendoredLinters_run w gopaths Hg) as Hf.
  rewrite (bind_Ret _ _ _ _ _ Hf).
  destruct (List.find (exists_in w) (vendor_candidates gopaths))
    as [root|] eqn:Efind; cbn [default from_option id] in *.
  2:{ cbn [String.eqb]. rewrite bind_assoc, (bind_Ret _ _ _ _ _ Hp).
      unfold kingpin_Fatalf. rewrite !bind_assoc, bind_emit. done. }
  apply find_some in Efind as [Hin Hex].
  assert (root ≠ "") as Hroot
    by (by apply (vendor_candidates_nonempty gopaths), list_elem_of_In).
  destruct (String.eqb_spec root ""); [done|].
  rewrite bind_ret_l.
  destruct (debug_same "found vendored linters at %s, updating environment"
              [root] w) as (w1 & E1 & C1 & V1 & F1 & _).
  rewrite (bind_Ret _ _ _ _ _ E1), bind_Getenv. cbn zeta. rewrite V1.
  set (gobin := if String.eqb (default "" (environ w !! "GOBIN")) "" then _
                else _).
  destruct (setEnv_environ "GOBIN" gobin w1) as (w2 & E2 & C2 & F2 & V2).
  rewrite (bind_Ret _ _ _ _ _ E2).
  destruct (setEnv_environ "GOPATH" root w2) as (w3 & E3 & C3 & F3 & V3).
  rewrite (bind_Ret _ _ _ _ _ E3).
  destruct (debugPrintEnv_same w3) as (w4 & E4 & C4 & V4 & _).
  destruct (debugPrintEnv_quiet w3) as (w4' & E4' & _ & evs & T4 & _).
  rewrite E4 in E4'. injection E4' as <-.
  rewrite E4. intros [= <-].
  split; [congruence|].
  assert (∀ key, key ≠ "GOBIN" → environ w2 !! key = environ w !! key) as K2.
  { intros key Hk. destruct V2 as [[-> _]|[-> _]]; rewrite ?V1; [|done].
    by rewrite lookup_insert_ne. }
  assert (∀ key, key ≠ "GOPATH" → environ w4 !! key = environ w2 !! key) as K4.
  { intros key Hk. rewrite V4. destruct V3 as [[-> _]|[-> _]]; [|done].
    by rewrite lookup_insert_ne. }
  split; [intros key H1 H2; rewrite K4, K2; done|].
  split.
  - intros Hset. rewrite K4 by done.
    destruct V2 as [[-> _]|[-> _]]; rewrite V1; [|done].
    rewrite lookup_insert_eq. subst gobin.
    destruct (String.eqb_spec (default "" (environ w !! "GOBIN")) "");
      [done|].
    destruct (environ w !! "GOBIN"); [done|]. by destruct Hset.
  - exists root. split; [done|]. split; [done|]. split; [done|].
    rewrite V4. destruct V3 as [[-> _]|[_ [err T3]]].
    + left. by rewrite lookup_insert_eq.
    + right. exists err. rewrite T4, T3.
      apply elem_of_app. left. apply elem_of_app. right.
      apply list_elem_of_here.
Qed.
End Vendored.

(** ** Further properties: paths *)

Section MorePaths.

Lemma filter_map_lookup (skip : list string) (m : gmap string bool) key :
  default false
    (fold_left (λ filter name, <[name := true]> filter) skip m !! key) = true
  ↔ key ∈ skip ∨ default false (m !! key) = true.
Proof.
  revert m. induction skip as [|name skip IH]; intros m; cbn [fold_left].
  - rewrite elem_of_nil. tauto.
  - rewrite IH, elem_of_cons. destruct (decide (name = key)) as [->|Hne].
    + rewrite lookup_insert_eq. cbn. tauto.
    + rewrite lookup_insert_ne by done. intuition congruence.
Qed.

Lemma drop_empty_head (l : list string) x rest :
  filepath.drop_empty l = x :: rest → x ≠ "".
Proof.
  induction l as [|y l IH]; cbn [filepath.drop_empty]; [done|].
  destruct (String.eqb_spec y ""); [exact IH|]. by intros [= <- _].
Qed.

Lemma Base_nonempty (path : string) : filepath.Base path ≠ "".
Proof.
  unfold filepath.Base. destruct (String.eqb path ""); [done|].
  destruct (filepath.drop_empty _) as [|x rest] eqn:E; [done|].
  by apply drop_empty_head in E.
Qed.

(** X8: [filepath.Base] never returns the empty string, so the slice
    [base[0:1]] in the path filter is always in range and holds
    exactly one byte. *)
Theorem path_filter_slice_in_range (path : string) :
  filepath.Base path ≠ ""
  ∧ String.length (String.substring 0 1 (filepath.Base path)) = 1%nat.
Proof.
  pose proof (Base_nonempty path) as Hne.
  split; [done|].
  destruct (filepath.Base path) as [|c base]; [done|]. simpl.
  by destruct base.
Qed.

(** X9: the path filter skips a path exactly when its base name or
    the path itself is in the skip list, or its base name begins with
    ["_"] or ["."] without being ["."] or [".."]. *)
Theorem newPathFilter_skips (skip : list string) (path : string) :
  newPathFilter skip path = true
  ↔ filepath.Base path ∈ skip
    ∨ path ∈ skip
    ∨ (filepath.Base path ≠ "." ∧ filepath.Base path ≠ ".."
       ∧ ∃ rest, filepath.Base path = String "_" rest
                 ∨ filepath.Base path = String "." rest).
Proof.
  unfold newPathFilter. cbn zeta.
  pose proof (filter_map_lookup skip ∅ (filepath.Base path)) as Hb.
  pose proof (filter_map_lookup skip ∅ path) as Hp.
  rewrite lookup_empty in Hb, Hp. cbn [default from_option] in Hb, Hp.
  set (filter := fold_left _ skip ∅) in *.
  destruct (default false (filter !! filepath.Base path)) eqn:Eb.
  { cbn [orb]. split; [intros _|done].
    destruct (proj1 Hb eq_refl) as [?|?]; [by left|done]. }
  destruct (default false (filter !! path)) eqn:Ep.
  { cbn [orb]. split; [intros _|done].
    destruct (proj1 Hp eq_refl) as [?|?]; [by right; left|done]. }
  cbn [orb].
  assert (filepath.Base path ∉ skip) as Nb by (intros ?; intuition congruence).
  assert (path ∉ skip) as Np by (intros ?; intuition congruence).
  destruct (String.eqb_spec (filepath.Base path) ".") as [E1|N1]; cbn [negb andb].
  { split; [done|]. intros [?|[?|(? & _)]]; done. }
  destruct (String.eqb_spec (filepath.Base path) "..") as [E2|N2]; cbn [negb andb].
  { split; [done|]. intros [?|[?|(_ & ? & _)]]; done. }
  destruct (filepath.Base path) as [|c base] eqn:E.
  { by destruct (Base_nonempty path). }
  assert (String.substring 0 1 (String c base) = String c "") as ->
    by (simpl; by destruct base).
  cbn [strings.ContainsAny strings.contains_byte orb].
  rewrite orb_false_r.
  destruct (Ascii.eqb_spec c "_") as [->|Nu]; cbn [orb].
  { split; [|done]. intros _. do 2 right. split; [done|]. split; [done|].
    exists base. by left. }
  destruct (Ascii.eqb_spec c ".") as [->|Nd].
  { split; [|done]. intros _. do 2 right. split; [done|]. split; [done|].
    exists base. by right. }
  split; [done|].
  intros [?|[?|(_ & _ & rest & [[= ? _]|[= ? _]])]]; done.
Qed.

(** X10: [relativePackagePath] is idempotent and never returns the
    empty string; it leaves an absolute path and a path that begins
    with ["."] as they are. *)
Theorem relativePackagePath_idempotent (dir : string) :
  relativePackagePath (relativePackagePath dir) = relativePackagePath dir
  ∧ relativePackagePath dir ≠ ""
  ∧ (filepath.IsAbs dir = true ∨ strings.HasPrefix dir "." = true →
     relativePackagePath dir = dir).
Proof.
  assert (relativePackagePath dir =
          if filepath.IsAbs dir || strings.HasPrefix dir "." then dir
          else "./" +:+ dir) as Hr by reflexivity.
  destruct (filepath.IsAbs dir || strings.HasPrefix dir ".") eqn:E.
  - rewrite Hr. split; [|split; [|done]].
    + unfold relativePackagePath. by rewrite E.
    + intros ->. done.
  - rewrite Hr. split; [|split].
    + unfold relativePackagePath.
      assert (strings.HasPrefix ("./" +:+ dir) "." = true) as ->
        by (by destruct dir).
      by rewrite orb_true_r.
    + done.
    + intros [H|H]; rewrite H in E; [done|]. by rewrite orb_true_r in E.
Qed.
End MorePaths.

Section ListedPaths.

Lemma for_fold_listed (skipPath : string → bool) (paths : list string)
    (dirs : gset string) (w : World) :
  Forall (λ p, strings.HasSuffix p "/..." = false) paths →
  for_fold paths (λ dirs path,
    if strings.HasSuffix path "/..."
    then
      let root := filepath.Dir path in
      '(_, dirs) ← filepath_Walk (resolvePaths_walkFn skipPath) root dirs;
      ret dirs
    else ret (stringSet_add dirs (filepath.Clean path))) dirs w =
  (Ret (list_to_set (filepath.Clean <$> paths) ∪ dirs), w).
Proof.
  intros Hall. revert dirs.
  induction Hall as [|p paths Hp Hall IH]; intros dirs.
  - cbn [for_fold fmap list_fmap list_to_set].
    by rewrite (left_id_L ∅ (∪)).
  - cbn [for_fold]. rewrite Hp, bind_ret_l, IH.
    unfold stringSet_add. rewrite fmap_cons, list_to_set_cons.
    do 2 f_equal. apply set_eq. intros y. rewrite !elem_of_union. tauto.
Qed.

(** X11: when no path ends in ["/..."], [resolvePaths] consults
    neither the file system nor the skip list: the result is the
    sorted list of the package paths of the cleaned paths, each once,
    the same for every skip list and every file tree. *)
Theorem resolvePaths_listed_only (paths skip : list string) (w : World) :
  paths ≠ [] →
  Forall (λ p, strings.HasSuffix p "/..." = false) paths →
  (resolvePaths paths skip w).1 =
    Ret (sort_Strings
           (relativePackagePath <$>
              elements (list_to_set (filepath.Clean <$> paths) : gset string)))
  ∧ ∀ skip' w', (resolvePaths paths skip' w').1 = (resolvePaths paths skip w).1.
Proof.
  intros Hne Hall.
  assert (∀ skip0 w0,
    (resolvePaths paths skip0 w0).1 =
    Ret (sort_Strings
           (relativePackagePath <$>
              elements (list_to_set (filepath.Clean <$> paths) : gset string))))
    as Hres.
  { intros skip0 w0. unfold resolvePaths.
    destruct paths as [|p0 paths0] eqn:Hp; [done|]. rewrite <- Hp in *.
    replace (length paths =? 0)%nat with false by (by rewrite Hp).
    cbn zeta.
    rewrite (bind_Ret _ _ _ _ _
               (for_fold_listed (newPathFilter skip0) paths newStringSet w0 Hall)).
    unfold newStringSet, stringSet_asSlice.
    rewrite (right_id_L ∅ (∪)).
    edestruct (for_each_quiet
      (sort_Strings (relativePackagePath <$>
         elements (list_to_set (filepath.Clean <$> paths) : gset string)))
      (λ d, debug "linting path %s" [d])) as (w2 & E2 & _).
    { intros x w1. apply debug_quiet. }
    rewrite (bind_Ret _ _ _ _ _ E2). reflexivity. }
  split; [apply Hres|]. intros skip' w'. by rewrite !Hres.
Qed.
End ListedPaths.

(** ** Further properties: rendering *)

Section MoreRendering.
Context `{Externals}.

Lemma append_assoc (a b c : string) : (a +:+ b) +:+ c = a +:+ b +:+ c.
Proof.
  induction a as [|x a IH]; [done|].
  change (String x ((a +:+ b) +:+ c) = String x (a +:+ b +:+ c)).
  by rewrite IH.
Qed.

Lemma append_nil_r (a : string) : a +:+ "" = a.
Proof.
  induction a as [|x a IH]; [done|].
  change (String x (a +:+ "") = String x a). by rewrite IH.
Qed.

Lemma stdout_text_app (a b : list Event) :
  stdout_text (a ++ b) = stdout_text a +:+ stdout_text b.
Proof.
  unfold stdout_text. rewrite omap_app, foldr_app.
  induction (omap _ a) as [|x l IH]; [done|].
  cbn [foldr]. by rewrite IH, append_assoc.
Qed.

(** X12: [outputToConsole] never fails and prints one line per shown
    issue, in order, and nothing else. Without the errors-only option
    every issue is printed and the status is 0 exactly for no issues;
    with it only the issues of severity Error are printed and the
    status is 1 exactly when there is one. *)
Theorem outputToConsole_lines (issues : list Issue) (w : World) :
  ∃ status evs,
    outputToConsole issues w = (Ret status, with_trace (trace w ++ evs) w)
    ∧ evs = (λ issue, EvStdout (Issue_String issue +:+ LF))
              <$> List.filter (shown (Configuration w)) issues
    ∧ (Errors (Configuration w) = false →
       length evs = length issues ∧ (status = 0 ↔ issues = []))
    ∧ (Errors (Configuration w) = true →
       List.filter (shown (Configuration w)) issues
         = List.filter (λ issue, Severity_eqb (issue_Severity issue) Error)
                       issues
       ∧ (status = 1 ↔ ∃ issue, issue ∈ issues ∧ issue_Severity issue = Error)).
Proof.
  eexists _, _. split; [apply outputToConsole_run|].
  unfold console_lines, rendered_bit. split; [done|].
  unfold shown. split.
  - intros ->. cbn [andb negb]. split.
    + rewrite length_fmap. f_equal.
      induction issues as [|i l IH]; [done|]. cbn. by rewrite IH.
    + destruct issues; cbn; split; done.
  - intros ->. cbn [andb]. split.
    + apply filter_ext. intros issue. by rewrite negb_involutive.
    + destruct (existsb _ issues) eqn:E.
      * split; [intros _|done].
        apply existsb_exists in E as (issue & Hin & Hs).
        exists issue. split; [by apply list_elem_of_In|].
        rewrite negb_involutive in Hs. by destruct (issue_Severity issue).
      * split; [done|]. intros (issue & Hin & Hs).
        assert (existsb (λ issue, negb (negb (Severity_eqb (issue_Severity issue) Error))) issues = true) as E'.
        { apply existsb_exists. exists issue.
          split; [by apply list_elem_of_In|]. by rewrite Hs. }
        congruence.
Qed.

Lemma bind_Fatalf {A B} format args (k : A → M B) w :
  (kingpin_Fatalf format args ≫= k) w =
  (Exit 1, with_trace (trace w ++ [EvFatal format args]) w).
Proof. reflexivity. Qed.

Lemma json_items_cons (c : Config) (issue : Issue) (issues : list Issue) :
  json_items c (issue :: issues) =
  if shown c issue
  then ("  " +:+ marshalled issue) :: json_items c issues
  else json_items c issues.
Proof.
  unfold json_items. cbn [List.filter]. by destruct (shown c issue).
Qed.

Lemma json_loop_ok (issues : list Issue) (status : Z) (w : World) :
  Forall (λ issue, shown (Configuration w) issue = true →
                   ∃ d, json_Marshal issue = inl d) issues →
  ∃ evs,
    for_fold issues (λ status issue,
      errors ← config Errors;
      if errors && negb (Severity_eqb (issue_Severity issue) Error)
      then ret status
      else
        (if negb (status =? 0)%Z then emit (EvStdout ("," +:+ LF)) else ret tt);;
        match json_Marshal issue with
        | inr err => kingpin_Fatalf "" [err]
        | inl d => emit (EvStdout ("  " +:+ d));; ret 1
        end) status w =
    (Ret (if existsb (shown (Configuration w)) issues then 1 else status),
     with_trace (trace w ++ evs) w)
    ∧ stdout_text evs =
        match json_items (Configuration w) issues with
        | [] => ""
        | items => (if (status =? 0)%Z then "" else "," +:+ LF)
                   +:+ String.concat ("," +:+ LF) items
        end.
Proof.
  match goal with |- context [for_fold _ ?b] => set (body := b) end.
  intros Hall. revert status w Hall.
  induction issues as [|issue issues IH]; intros status w Hall.
  - exists []. split; [|done]. cbn. by rewrite with_trace_id.
  - inversion Hall as [|? ? Hhead Htail]; subst.
    cbn [for_fold existsb]. unfold body at 2. cbn beta.
    rewrite bind_assoc, bind_config.
    rewrite json_items_cons.
    assert (Errors (Configuration w)
            && negb (Severity_eqb (issue_Severity issue) Error)
            = negb (shown (Configuration w) issue)) as ->
      by (unfold shown; by rewrite negb_involutive).
    destruct (shown (Configuration w) issue) eqn:Eshown; cbn [negb orb].
    2:{ rewrite bind_ret_l. apply IH, Htail. }
    + destruct (Hhead eq_refl) as [d Hd]. rewrite !bind_assoc.
      unfold marshalled at 1. rewrite Hd.
      destruct (status =? 0)%Z eqn:Es; cbn [negb].
      * rewrite bind_ret_l, bind_assoc, bind_emit. cbn beta.
        rewrite bind_ret_l.
        destruct (IH 1 (with_trace (trace w ++ [EvStdout ("  " +:+ d)]) w))
          as (evs & E & T); [exact Htail|].
        exists (EvStdout ("  " +:+ d) :: evs). split.
        -- rewrite E. cbn [Configuration with_trace]. f_equal.
           ++ f_equal. by destruct (existsb _ _).
           ++ unfold with_trace. cbn. by rewrite <- app_assoc.
        -- change (stdout_text (EvStdout ("  " +:+ d) :: evs))
             with (("  " +:+ d) +:+ stdout_text evs).
           rewrite T. cbn [Configuration with_trace String.concat Z.eqb].
           destruct (json_items (Configuration w) issues) as [|x l].
           ++ by rewrite append_nil_r.
           ++ by rewrite ?append_assoc.
      * rewrite bind_emit, bind_assoc, bind_emit. cbn beta.
        rewrite bind_ret_l.
        destruct (IH 1 (with_trace
                     (trace (with_trace (trace w ++ [EvStdout ("," +:+ LF)]) w)
                      ++ [EvStdout ("  " +:+ d)])
                     (with_trace (trace w ++ [EvStdout ("," +:+ LF)]) w)))
          as (evs & E & T); [exact Htail|].
        exists (EvStdout ("," +:+ LF) :: EvStdout ("  " +:+ d) :: evs). split.
        -- rewrite E. cbn [Configuration with_trace]. f_equal.
           ++ f_equal. by destruct (existsb _ _).
           ++ unfold with_trace. cbn. by rewrite <- !app_assoc.
        -- change (stdout_text (EvStdout ("," +:+ LF)
                                  :: EvStdout ("  " +:+ d) :: evs))
             with (("," +:+ LF) +:+ ("  " +:+ d) +:+ stdout_text evs).
           rewrite T. cbn [Configuration with_trace String.concat Z.eqb].
           destruct (json_items (Configuration w) issues) as [|x l].
           ++ by rewrite append_nil_r.
           ++ by rewrite ?append_assoc.
Qed.

(** X13: when every issue to print can be marshalled, [outputToJSON]
    prints a well-formed array: an opening bracket, the marshalled
    issues indented by two spaces and separated by a comma and a line
    feed (none before the first, none after the last), and a closing
    bracket; it returns 1 exactly when it printed an issue. *)
Theorem outputToJSON_array (issues : list Issue) (w : World) :
  Forall (λ issue, shown (Configuration w) issue = true →
                   ∃ d, json_Marshal issue = inl d) issues →
  ∃ evs,
    outputToJSON issues w =
      (Ret (if existsb (shown (Configuration w)) issues then 1 else 0),
       with_trace (trace w ++ evs) w)
    ∧ stdout_text evs =
        "[" +:+ LF +:+
        String.concat ("," +:+ LF) (json_items (Configuration w) issues)
        +:+ LF +:+ "]" +:+ LF.
Proof.
  intros Hall. unfold outputToJSON. rewrite bind_emit.
  destruct (json_loop_ok issues 0
              (with_trace (trace w ++ [EvStdout ("[" +:+ LF)]) w) Hall)
    as (evs & E & T).
  rewrite (bind_Ret _ _ _ _ _ E), bind_emit. cbn beta.
  cbn [Configuration with_trace trace] in *.
  exists ([EvStdout ("[" +:+ LF)] ++ evs ++ [EvStdout (LF +:+ "]" +:+ LF)]).
  split.
  - unfold ret, with_trace. cbn. by rewrite <- !app_assoc.
  - rewrite !stdout_text_app, T.
    change (stdout_text [EvStdout ("[" +:+ LF)]) with (("[" +:+ LF) +:+ "").
    change (stdout_text [EvStdout (LF +:+ "]" +:+ LF)])
      with ((LF +:+ "]" +:+ LF) +:+ "").
    rewrite !append_nil_r, !append_assoc.
    by destruct (json_items (Configuration w) issues).
Qed.
Lemma for_fold_app_Ret {A S} (a b : list A) (body : S → A → M S)
    (s s' : S) (w w' : World) :
  for_fold a body s w = (Ret s', w') →
  for_fold (a ++ b) body s w = for_fold b body s' w'.
Proof.
  revert s w. induction a as [|x a IH]; intros s w E.
  - injection E as -> ->. done.
  - cbn [for_fold app] in *.
    destruct (body s x w) as [[s1|n|msg] w1] eqn:E1.
    + rewrite (bind_Ret _ _ _ _ _ E1) in E.
      rewrite (bind_Ret _ _ _ _ _ E1). by apply IH.
    + rewrite (bind_Exit _ _ _ _ _ E1) in E. discriminate.
    + rewrite (bind_Panic _ _ _ _ _ E1) in E. discriminate.
Qed.

(** X14: when [json.Marshal] fails on an issue to print, [outputToJSON]
    ends the process with status 1 and the error of [json.Marshal];
    what it has printed by then is the opening bracket, the issues
    before the failing one and, if there is such an issue, the
    separator for the next element: the array is left unclosed, and
    the issues after the failing one are not looked at. *)
Theorem outputToJSON_marshal_failure (good rest : list Issue) (bad : Issue)
    (err : string) (w : World) :
  Forall (λ issue, shown (Configuration w) issue = true →
                   ∃ d, json_Marshal issue = inl d) good →
  shown (Configuration w) bad = true →
  json_Marshal bad = inr err →
  ∃ evs,
    outputToJSON (good ++ bad :: rest) w =
      (Exit 1, with_trace (trace w ++ evs ++ [EvFatal "" [err]]) w)
    ∧ stdout_text evs =
        "[" +:+ LF +:+
        String.concat ("," +:+ LF) (json_items (Configuration w) good)
        +:+ (if existsb (shown (Configuration w)) good
             then "," +:+ LF else "").
Proof.
  intros Hall Hshown Hbad. unfold outputToJSON. rewrite bind_emit.
  destruct (json_loop_ok good 0
              (with_trace (trace w ++ [EvStdout ("[" +:+ LF)]) w) Hall)
    as (evs & E & T).
  cbn [Configuration with_trace trace] in *.
  match goal with |- context [for_fold _ ?b] => set (body := b) in * end.
  assert (∃ sep,
    for_fold (bad :: rest) body
      (if existsb (shown (Configuration w)) good then 1 else 0)
      (with_trace ((trace w ++ [EvStdout ("[" +:+ LF)]) ++ evs)
         (with_trace (trace w ++ [EvStdout ("[" +:+ LF)]) w)) =
    (Exit 1,
     with_trace (trace w ++ ([EvStdout ("[" +:+ LF)] ++ evs ++ sep)
                         ++ [EvFatal "" [err]]) w)
    ∧ stdout_text sep =
        if existsb (shown (Configuration w)) good then "," +:+ LF else "")
    as (sep & E' & T').
  { cbn [for_fold]. unfold body at 2. cbn beta.
    rewrite bind_assoc, bind_config. cbn [Configuration with_trace].
    assert (Errors (Configuration w)
            && negb (Severity_eqb (issue_Severity bad) Error) = false) as ->.
    { unfold shown in Hshown. by apply negb_true_iff in Hshown. }
    rewrite Hbad, !bind_assoc.
    destruct (existsb (shown (Configuration w)) good).
    - exists [EvStdout ("," +:+ LF)]. split; [|done].
      cbn [Z.eqb negb]. rewrite bind_emit, bind_Fatalf.
      unfold with_trace. cbn. by rewrite <- !app_assoc.
    - exists []. split; [|done].
      cbn [Z.eqb negb]. rewrite bind_ret_l, bind_Fatalf.
      unfold with_trace. cbn. by rewrite <- !app_assoc. }
  exists ([EvStdout ("[" +:+ LF)] ++ evs ++ sep). split.
  - erewrite bind_Exit; [reflexivity|].
    rewrite (for_fold_app_Ret _ _ _ _ _ _ _ E). exact E'.
  - rewrite !stdout_text_app, T, T'.
    change (stdout_text [EvStdout ("[" +:+ LF)]) with (("[" +:+ LF) +:+ "").
    rewrite !append_nil_r, !append_assoc.
    by destruct (json_items (Configuration w) good).
Qed.
End MoreRendering.

(** ** Further properties: the linters to run *)

Section MoreLinters.
Context `{Externals}.

Lemma add_linter_fold_lookup overrides fast (l : list string)
    (m : gmap string Linter) name :
  let linter := getLinterByName name (Linters_at overrides name) in
  fold_left (add_linter overrides fast) l m !! name =
  if decide (name ∈ l)
  then (if fast && negb (IsFast (linterConfig linter))
        then m !! name else Some linter)
  else m !! name.
Proof.
  intros linter. revert m.
  induction l as [|x l IH]; intros m; cbn [fold_left].
  - case_decide as Hin; [by apply elem_of_nil in Hin|done].
  - rewrite IH.
    assert (add_linter overrides fast m x !! name =
            if decide (x = name)
            then (if fast && negb (IsFast (linterConfig linter))
                  then m !! name else Some linter)
            else m !! name) as ->.
    { unfold add_linter. cbv zeta.
      destruct (decide (x = name)) as [->|Hne].
      - fold linter. destruct (fast && _); [done|].
        by rewrite lookup_insert_eq.
      - destruct (fast && negb (IsFast (linterConfig (getLinterByName x _))));
          [done|]. by rewrite lookup_insert_ne. }
    destruct (fast && negb (IsFast (linterConfig linter)));
      repeat case_decide; try done; exfalso;
        rewrite elem_of_cons in *; intuition congruence.
Qed.

(** X15: the map that [lintersFromConfig] returns, exactly: a name is a
    key if and only if it is in the enabled list after the megacheck
    substitution, is not in the disabled list and, with the fast-only
    option, its definition is marked fast; its value is the definition
    that [getLinterByName] gives for the name and the override of the
    configuration. *)
Theorem lintersFromConfig_exact (w : World) :
  ∃ out w',
    lintersFromConfig w = (Ret out, w')
    ∧ ∀ name linter,
        out !! name = Some linter ↔
        name ∈ megacheck_revision (Enable (Configuration w))
        ∧ (name ∉ Disable (Configuration w))
        ∧ linter = getLinterByName name
                     (Linters_at (Linters (Configuration w)) name)
        ∧ (Fast (Configuration w) = true →
           IsFast (linterConfig linter) = true).
Proof.
  destruct (lintersFromConfig_run w) as (evs & E & _).
  eexists _, _. split; [exact E|].
  intros name linter. rewrite delete_fold, add_linter_fold_lookup.
  rewrite lookup_empty.
  destruct (Fast (Configuration w)); cbn [andb].
  - destruct (IsFast (linterConfig (getLinterByName name _))) eqn:F;
      cbn [negb]; repeat case_decide; split;
      try done; try (intros (? & ? & ? & ?); done).
    + intros [= <-]. by rewrite F.
    + intros (_ & _ & -> & _). done.
    + intros (_ & _ & -> & Hf). rewrite F in Hf. by specialize (Hf eq_refl).
  - repeat case_decide; split;
      try done; try (intros (? & ? & ? & ?); done).
    + intros [= <-]. done.
    + intros (_ & _ & -> & _). done.
Qed.

Lemma replaceWithMegacheck_events (enabled : list string)
    (enableAll : bool) (w : World) :
  replaceWithMegacheck enabled enableAll w =
    (Ret (megacheck_revision enabled),
     with_trace
       (trace w ++
        if decide ("staticcheck" ∈ enabled ∧ "gosimple" ∈ enabled
                   ∧ "unused" ∈ enabled)
        then (if enableAll then []
              else [EvWarning
                      "staticcheck, gosimple and unused are all set, using megacheck instead"
                      []])
        else []) w).
Proof.
  unfold replaceWithMegacheck, megacheck_revision.
  pose proof (megacheck_scan enabled
    {| staticcheck := false; gosimple := false; unused := false;
       revised := [] |}) as (H1 & H2 & H3 & H4).
  cbn [staticcheck gosimple unused revised app] in *.
  set (v := fold_left _ _ _) in *.
  destruct (decide _) as [(I1 & I2 & I3)|N].
  - assert (staticcheck v = true) as -> by tauto.
    assert (gosimple v = true) as -> by tauto.
    assert (unused v = true) as -> by tauto.
    rewrite H4.
    cbn [andb]. destruct enableAll; cbn [negb].
    + rewrite bind_ret_l. by rewrite with_trace_id.
    + unfold warning. rewrite bind_emit. done.
  - assert (staticcheck v && gosimple v && unused v = false) as ->.
    { destruct (staticcheck v) eqn:E1, (gosimple v) eqn:E2,
        (unused v) eqn:E3; cbn; try reflexivity.
      exfalso. apply N. intuition congruence. }
    by rewrite with_trace_id.
Qed.

(** X16: [replaceWithMegacheck] always returns and writes at most one
    line: the warning about the substitution, exactly when
    staticcheck, gosimple and unused are all enabled and the linters
    were not enabled by [--enable-all]. *)
Theorem replaceWithMegacheck_warning (enabled : list string)
    (enableAll : bool) (w : World) :
  ∃ result evs,
    replaceWithMegacheck enabled enableAll w =
      (Ret result, with_trace (trace w ++ evs) w)
    ∧ evs =
        if decide ("staticcheck" ∈ enabled ∧ "gosimple" ∈ enabled
                   ∧ "unused" ∈ enabled)
        then (if enableAll then []
              else [EvWarning
                      "staticcheck, gosimple and unused are all set, using megacheck instead"
                      []])
        else [].
Proof.
  eexists _, _. split; [apply replaceWithMegacheck_events|done].
Qed.

Lemma megacheck_revision_final (enabled : list string) :
  ¬ ("staticcheck" ∈ megacheck_revision enabled
     ∧ "gosimple" ∈ megacheck_revision enabled
     ∧ "unused" ∈ megacheck_revision enabled).
Proof.
  unfold megacheck_revision.
  destruct (decide _) as [Hall|Hno]; [|done].
  intros (Hs & _ & _). apply elem_of_app in Hs as [Hs|Hs].
  - apply list_elem_of_filter in Hs as [Hs _]. apply Hs.
    unfold megacheck_family. left.
  - apply list_elem_of_singleton in Hs. discriminate.
Qed.

Lemma megacheck_revision_idempotent (enabled : list string) :
  megacheck_revision (megacheck_revision enabled)
  = megacheck_revision enabled.
Proof.
  unfold megacheck_revision at 1.
  by rewrite decide_False by apply megacheck_revision_final.
Qed.

Lemma set_Enable_same (c : Config) : set_Enable (Enable c) c = c.
Proof. by destruct c. Qed.

Lemma with_Configuration_same (w : World) :
  with_Configuration (Configuration w) w = w.
Proof. by destruct w. Qed.

(** X17: [lintersFromConfig] is idempotent: called again on the
    process it leaves, it returns the same linters, changes nothing
    and writes nothing; in particular the warning about megacheck is
    given by the first call only. *)
Theorem lintersFromConfig_idempotent (w : World) :
  ∃ out w',
    lintersFromConfig w = (Ret out, w')
    ∧ lintersFromConfig w' = (Ret out, w').
Proof.
  destruct (lintersFromConfig_run w) as (evs & E & _).
  eexists _, _. split; [exact E|].
  match type of E with _ = (_, ?v) => set (w1 := v) end.
  assert (Enable (Configuration w1)
          = megacheck_revision (Enable (Configuration w))) as He
    by (by destruct w as [[]]).
  assert (Linters (Configuration w1) = Linters (Configuration w)
          ∧ Fast (Configuration w1) = Fast (Configuration w)
          ∧ Disable (Configuration w1) = Disable (Configuration w)
          ∧ EnableAll (Configuration w1) = EnableAll (Configuration w))
    as (Hl & Hf & Hd & Ha) by (by destruct w as [[]]).
  unfold lintersFromConfig.
  rewrite bind_config, bind_config.
  pose proof (replaceWithMegacheck_events (Enable (Configuration w1))
                (EnableAll (Configuration w1)) w1) as E1.
  rewrite decide_False in E1
    by (rewrite He; apply megacheck_revision_final).
  rewrite with_trace_id in E1.
  assert (megacheck_revision (Enable (Configuration w1))
          = Enable (Configuration w1)) as Hfix
    by (rewrite He; apply megacheck_revision_idempotent).
  rewrite Hfix in E1.
  erewrite bind_Ret; [|exact E1].
  go_unfold. cbn [fst snd].
  rewrite set_Enable_same, with_Configuration_same.
  by rewrite Hl, Hf, Hd, He.
Qed.
End MoreLinters.

(** ** Further properties: the configuration at start-up *)

Section MoreProcessConfig.
Context `{Externals}.

Ltac split_world w :=
  destruct w as [c env fs0 user files tr];
  destruct c as [fmt ft gc vl ins upd cs js srt vnd skp exc inc conc
                 en ena lnt fst0 dis dbg errs];
  cbn [Configuration Format Exclude Include Checkstyle JSON Sort environ
       EnableGC VendoredLinters Install Update Vendor Skip trace] in *.

Ltac run_processConfig :=
  unfold processConfig, after_processConfig, regexp_MustCompile, warning;
  go_unfold;
  cbn -[strings.Join lookup insert];
  match goal with
  | Ht : template_Parse _ = _ |- _ => rewrite Ht
  end;
  cbn -[strings.Join lookup insert];
  try match goal with
    | |- context [if negb ?gc then _ else _] => destruct gc
    end;
  cbn -[strings.Join lookup insert];
  try match goal with
    | |- context [if ?vl && ?ins && ?upd then _ else _] =>
        destruct (vl && ins && upd)
    end;
  cbn -[strings.Join lookup insert];
  try match goal with
    | |- context [if ?cs && negb ?js then _ else _] =>
        destruct (cs && negb js) eqn:?
    end;
  cbn -[strings.Join lookup insert];
  try rewrite lookup_insert_ne by done;
  try match goal with
    | |- context [default "" (?env !! "GO15VENDOREXPERIMENT")] =>
        generalize (default "" (env !! "GO15VENDOREXPERIMENT"));
        intros experiment
    end;
  try match goal with
    | |- context [if String.eqb ?e "1" || ?vnd then _ else _] =>
        destruct (String.eqb e "1" || vnd)
    end;
  cbn -[strings.Join lookup insert].

Ltac use_compile_results :=
  repeat (go_unfold; cbn -[strings.Join lookup insert];
          match goal with
          | H : regexp_Compile _ = _ |- _ => rewrite H
          end);
  go_unfold; cbn -[strings.Join lookup insert].

Ltac split_pattern_ok :=
  repeat match goal with
    | H : match ?x with inl _ => _ | inr _ => _ end = true |- _ =>
        destruct x eqn:?; [|discriminate]
    end.

(** The environment and the warnings of a successful
    [processConfig]. *)
Lemma processConfig_effects (w : World) (tmpl : Template) :
  let c := Configuration w in
  template_Parse (Format c) = inl tmpl →
  pattern_ok (Exclude c) = true →
  pattern_ok (Include c) = true →
  ∃ r w' evs,
    processConfig w = (Ret r, w')
    ∧ environ w' =
        (if String.eqb (default "" (environ w !! "GO15VENDOREXPERIMENT")) "1"
            || Vendor c
         then <["GO15VENDOREXPERIMENT" := "1"]>
                (if EnableGC c then environ w
                 else <["GOGC" := "off"]> (environ w))
         else if EnableGC c then environ w
              else <["GOGC" := "off"]> (environ w))
    ∧ trace w' = trace w ++ evs
    ∧ warnings_of evs =
        (if VendoredLinters c && Install c && Update c
         then [(update_ignored, [])] else []).
Proof.
  split_world w. intros Ht He Hi.
  run_processConfig.
  all: destruct exc as [|e0 exc]; cbn -[strings.Join lookup insert] in *.
  all: destruct inc as [|i0 inc]; cbn -[strings.Join lookup insert] in *.
  all: split_pattern_ok.
  all: use_compile_results.
  all: eexists _, _, _; split; [reflexivity|].
  all: cbn -[lookup insert]; split; [reflexivity|].
  all: split; [rewrite <- ?app_assoc; reflexivity|reflexivity].
Qed.

Lemma processConfig_full (w : World) (tmpl : Template) :
  let c := Configuration w in
  let experiment := default "" (environ w !! "GO15VENDOREXPERIMENT") in
  template_Parse (Format c) = inl tmpl →
  pattern_ok (Exclude c) = true →
  pattern_ok (Include c) = true →
  ∃ r w' evs,
    processConfig w = (Ret r, w')
    ∧ Configuration w' = after_processConfig tmpl experiment c
    ∧ environ w' =
        (if String.eqb experiment "1" || Vendor c
         then <["GO15VENDOREXPERIMENT" := "1"]>
                (if EnableGC c then environ w
                 else <["GOGC" := "off"]> (environ w))
         else if EnableGC c then environ w
              else <["GOGC" := "off"]> (environ w))
    ∧ trace w' = trace w ++ evs
    ∧ warnings_of evs =
        (if VendoredLinters c && Install c && Update c
         then [(update_ignored, [])] else []).
Proof.
  intros c experiment Ht He Hi.
  destruct (processConfig_ok w tmpl Ht He Hi) as (w1 & evs1 & E1 & C & _).
  destruct (processConfig_effects w tmpl Ht He Hi)
    as (r & w' & evs & E & Henv & T & W).
  rewrite E in E1. injection E1 as _ <-.
  by exists r, w', evs.
Qed.

(** X18: vendoring support. A successful [processConfig] turns it on
    exactly when GO15VENDOREXPERIMENT is 1 or [config.Vendor] is set:
    then vendor is appended to [config.Skip], [config.Vendor] is set
    and GO15VENDOREXPERIMENT is 1 afterwards; otherwise [config.Skip],
    [config.Vendor] and the variable are left as they were. *)
Theorem processConfig_vendor_support (w : World) (tmpl : Template) :
  let c := Configuration w in
  template_Parse (Format c) = inl tmpl →
  pattern_ok (Exclude c) = true →
  pattern_ok (Include c) = true →
  ∃ r w',
    processConfig w = (Ret r, w')
    ∧ if String.eqb (default "" (environ w !! "GO15VENDOREXPERIMENT")) "1"
         || Vendor c
      then Skip (Configuration w') = Skip c ++ ["vendor"]
           ∧ Vendor (Configuration w') = true
           ∧ environ w' !! "GO15VENDOREXPERIMENT" = Some "1"
      else Skip (Configuration w') = Skip c
           ∧ Vendor (Configuration w') = false
           ∧ environ w' !! "GO15VENDOREXPERIMENT"
             = environ w !! "GO15VENDOREXPERIMENT".
Proof.
  intros c Ht He Hi.
  destruct (processConfig_full w tmpl Ht He Hi)
    as (r & w' & evs & E & C & Henv & _).
  exists r, w'. split; [exact E|].
  rewrite C, Henv. clear E C Henv. subst c.
  unfold after_processConfig.
  generalize (default "" (environ w !! "GO15VENDOREXPERIMENT")).
  intros experiment.
  destruct w as [c env fs0 user files tr]. cbn [Configuration environ].
  destruct c as [fmt ft gc vl ins upd cs js srt vnd skp exc inc conc
                 en ena lnt fst0 dis dbg errs].
  cbn -[lookup insert].
  destruct (vl && ins && upd); cbn -[lookup insert].
  all: destruct (cs && negb js); cbn -[lookup insert].
  all: destruct (String.eqb experiment "1" || vnd) eqn:Ev;
    cbn -[lookup insert]; [by rewrite lookup_insert_eq|].
  all: apply orb_false_iff in Ev as [_ ->].
  all: split; [done|split; [done|]].
  all: destruct gc; [done|by rewrite lookup_insert_ne].
Qed.

(** X19: the garbage collector of the linters. A successful
    [processConfig] sets GOGC to off unless [config.EnableGC] is set,
    in which case GOGC is left alone; no variable other than GOGC and
    GO15VENDOREXPERIMENT is changed. *)
Theorem processConfig_disables_gc (w : World) (tmpl : Template) :
  let c := Configuration w in
  template_Parse (Format c) = inl tmpl →
  pattern_ok (Exclude c) = true →
  pattern_ok (Include c) = true →
  ∃ r w',
    processConfig w = (Ret r, w')
    ∧ environ w' !! "GOGC" =
        (if EnableGC c then environ w !! "GOGC" else Some "off")
    ∧ ∀ key, key ≠ "GOGC" → key ≠ "GO15VENDOREXPERIMENT" →
             environ w' !! key = environ w !! key.
Proof.
  intros c Ht He Hi.
  destruct (processConfig_full w tmpl Ht He Hi)
    as (r & w' & evs & E & _ & Henv & _).
  exists r, w'. split; [exact E|].
  rewrite Henv. clear E Henv.
  split.
  - subst c. destruct (_ || _), (EnableGC (Configuration w));
      rewrite ?lookup_insert_ne by done;
      try done; by rewrite lookup_insert_eq.
  - intros key Hg Hv.
    subst c. destruct (_ || _), (EnableGC (Configuration w));
      by rewrite ?lookup_insert_ne by done.
Qed.

(** X20: the option [--update] with vendored linters. A successful
    [processConfig] warns once that the update is ignored, and clears
    [config.Update], exactly when [config.VendoredLinters],
    [config.Install] and [config.Update] are all set; otherwise it
    gives no warning and leaves [config.Update] alone. [Run] calls
    [processConfig] only with [config.Install] unset, where neither
    happens. *)
Theorem processConfig_update_ignored (w : World) (tmpl : Template) :
  let c := Configuration w in
  template_Parse (Format c) = inl tmpl →
  pattern_ok (Exclude c) = true →
  pattern_ok (Include c) = true →
  ∃ r w' evs,
    processConfig w = (Ret r, w')
    ∧ trace w' = trace w ++ evs
    ∧ (if VendoredLinters c && Install c && Update c
       then warnings_of evs = [(update_ignored, [])]
            ∧ Update (Configuration w') = false
       else warnings_of evs = []
            ∧ Update (Configuration w') = Update c)
    ∧ (Install c = false →
       warnings_of evs = [] ∧ Update (Configuration w') = Update c).
Proof.
  intros c Ht He Hi.
  destruct (processConfig_full w tmpl Ht He Hi)
    as (r & w' & evs & E & C & _ & T & W).
  exists r, w', evs. split; [exact E|]. split; [exact T|].
  assert (if VendoredLinters c && Install c && Update c
          then warnings_of evs = [(update_ignored, [])]
               ∧ Update (Configuration w') = false
          else warnings_of evs = []
               ∧ Update (Configuration w') = Update c) as Hmain.
  { rewrite C, W. clear E C T W. subst c.
    unfold after_processConfig.
    generalize (default "" (environ w !! "GO15VENDOREXPERIMENT")).
    intros experiment.
    destruct w as [c env fs0 user files tr]. cbn [Configuration].
    destruct c as [fmt ft gc vl ins upd cs js srt vnd skp exc inc conc
                   en ena lnt fst0 dis dbg errs].
    cbn.
    destruct (vl && ins && upd); cbn.
    all: destruct (cs && negb js); cbn.
    all: by destruct (String.eqb experiment "1" || vnd). }
  split; [exact Hmain|].
  intros Hins. rewrite Hins, andb_false_r in Hmain. exact Hmain.
Qed.
End MoreProcessConfig.

(** ** Further properties: how a run ends *)

Section RunEnds.
Context `{Externals}.

Lemma Run_report_ends args (w : World) : ends_process (Run_report args w).1.
Proof.
  destruct args as [[[linters resolved] exclude] include].
  unfold Run_report. rewrite bind_config, bind_emit. cbn beta.
  set (w1 := with_trace _ w).
  destruct (runLinters linters resolved (Concurrency (Configuration w))
              exclude include w1) as [issues errch] eqn:Hjobs.
  erewrite (bind_Ret _ _ w1) by (rewrite Hjobs; reflexivity).
  cbn beta iota. rewrite !bind_config. cbn beta.
  match goal with |- context [(?m ≫= _) w1] =>
    destruct (m w1) as [[rendered|n|s] w2] eqn:Hrender
  end.
  - rewrite (bind_Ret _ _ _ _ _ Hrender). cbn zeta.
    erewrite bind_Ret by apply report_errors.
    unfold debug. rewrite bind_assoc, bind_config.
    by destruct (Debug _).
  - by rewrite (bind_Exit _ _ _ _ _ Hrender).
  - by rewrite (bind_Panic _ _ _ _ _ Hrender).
Qed.

(** X21: unless it installs linters, [Run] never returns to its
    caller: whatever the paths, the configuration, the linters and
    their issues, it ends the process, by [os.Exit], by a fatal error
    or by a panic. *)
Theorem Run_never_returns (paths : list string) (w : World) :
  Install (Configuration w) = false →
  ends_process (Run paths w).1.
Proof.
  intros Hinstall. rewrite (Run_unfold paths w Hinstall).
  destruct (Run_startup paths w) as [[args|n|s] w1] eqn:Hstart.
  - rewrite (bind_Ret _ _ _ _ _ Hstart). apply Run_report_ends.
  - by rewrite (bind_Exit _ _ _ _ _ Hstart).
  - by rewrite (bind_Panic _ _ _ _ _ Hstart).
Qed.

(** X22: an installation of vendored linters that cannot find them
    installs nothing: with [config.Install] and
    [config.VendoredLinters] set and none of the vendored locations
    present, [Run] ends with status 1 and the fatal error that names
    the GOPATH, before [installLinters] is called. *)
Theorem Run_install_needs_vendored_linters (paths : list string) (w : World)
    gopaths :
  Install (Configuration w) = true →
  VendoredLinters (Configuration w) = true →
  getGoPathList w = (Ret gopaths, w) →
  (∀ c, c ∈ vendor_candidates gopaths → exists_in w c = false) →
  ∃ gopath,
    getGoPath w = (Ret gopath, w)
    ∧ Run paths w =
        (Exit 1,
         with_trace
           (trace w ++
            [EvFatal "could not find vendored linters in GOPATH=%q" [gopath]])
           w).
Proof.
  intros Hinstall Hvendored Hg Hnone.
  destruct (getGoPath_of_list w gopaths Hg) as [gopath Hp].
  exists gopath. split; [exact Hp|].
  unfold Run. rewrite bind_config, Hinstall, bind_config, Hvendored.
  erewrite bind_Exit; [reflexivity|].
  apply (configureEnvironmentForInstall_fatal w gopaths gopath Hg Hp).
  by apply find_none_all.
Qed.
End RunEnds.

(** ** Further properties: the command line *)

Section CommandLineSwitches.
Context `{Externals}.

Lemma for_each_enable (names : list string) (w : World) :
  for_each names (λ linter,
    enable ← config Enable;
    assign (set_Enable (enable ++ [linter]))) w =
  (Ret tt,
   with_Configuration
     (set_Enable (Enable (Configuration w) ++ names) (Configuration w)) w).
Proof.
  revert w. induction names as [|name names IH]; intros w.
  - rewrite app_nil_r, set_Enable_same, with_Configuration_same. done.
  - cbn [for_each]. rewrite bind_assoc, bind_config.
    match goal with
    | |- context [(assign ?u ≫= ?k) w] =>
        change ((assign u ≫= k) w)
          with (k tt (with_Configuration (u (Configuration w)) w))
    end.
    cbn beta. rewrite IH. destruct w as [[]]. cbn.
    by rewrite <- app_assoc.
Qed.

(** What one action other than [loadConfig] does to the enabled and
    the disabled linters, unless it is a [--linter] that fails. *)
Lemma action_switch (f : Main.Flag) (v : string) (w : World) :
  is_config f = false →
  linter_flag_ok f = true →
  ∃ w', Main.action f w = (Ret None, w')
        ∧ (v ∈ Enable (Configuration w') ↔
           match mention v f with
           | Some b => b = true
           | None => v ∈ Enable (Configuration w)
           end)
        ∧ Disable (Configuration w') = Disable (Configuration w).
Proof.
  intros Hf Hok. destruct f; try discriminate; cbn [Main.action mention].
  - (* --disable *)
    eexists. split; [reflexivity|]. split; [|by destruct w as [[]]].
    assert (Enable (Configuration
              (with_Configuration
                 (set_Enable (filter (λ x, x ≠ linter)
                                (Enable (Configuration w)))
                    (Configuration w)) w))
            = filter (λ x, x ≠ linter) (Enable (Configuration w))) as ->
      by (by destruct w as [[]]).
    rewrite list_elem_of_filter.
    destruct (String.eqb_spec linter v) as [->|Hne]; [|intuition congruence].
    split; [by intros [? _]|done].
  - (* --enable *)
    eexists. split; [reflexivity|]. split; [|by destruct w as [[]]].
    assert (Enable (Configuration
              (with_Configuration
                 (set_Enable (Enable (Configuration w) ++ [linter])
                    (Configuration w)) w))
            = Enable (Configuration w) ++ [linter]) as ->
      by (by destruct w as [[]]).
    rewrite elem_of_app, list_elem_of_singleton.
    destruct (String.eqb_spec linter v) as [->|Hne]; [|intuition congruence].
    split; [done|by right].
  - (* --linter *)
    unfold Main.cliLinterOverrides, strings.SplitN2.
    cbn [linter_flag_ok] in Hok.
    destruct (strings.Cut value ":") as [[name spec]|]; [|done].
    cbn [length Nat.ltb Nat.leb nth].
    destruct (ParseLinterConfigSpec name spec) as [conf|]; [|done].
    eexists. split; [reflexivity|]. by destruct w as [[]].
  - (* --disable-all *)
    eexists. split; [reflexivity|]. split; [|by destruct w as [[]]].
    assert (Enable (Configuration
              (with_Configuration (set_Enable [] (Configuration w)) w)) = [])
      as -> by (by destruct w as [[]]).
    split; [by intros ?%elem_of_nil|done].
  - (* --enable-all *)
    unfold Main.enableAllAction.
    rewrite (bind_Ret _ _ _ _ _ (for_each_enable DefaultLinters w)).
    eexists. split; [reflexivity|]. split; [|by destruct w as [[]]].
    assert (Enable (Configuration
              (with_Configuration
                 (set_EnableAll true
                    (Configuration
                       (with_Configuration
                          (set_Enable (Enable (Configuration w) ++ DefaultLinters)
                             (Configuration w)) w)))
                 (with_Configuration
                    (set_Enable (Enable (Configuration w) ++ DefaultLinters)
                       (Configuration w)) w)))
            = Enable (Configuration w) ++ DefaultLinters) as ->
      by (by destruct w as [[]]).
    rewrite elem_of_app. case_bool_decide; [|tauto].
    split; [done|by right].
  - by exists w.
  - by exists w.
  - by exists w.
  - by exists w.
  - by exists w.
  - by exists w.
  - by exists w.
Qed.

(** A [--linter] whose value is malformed: its action returns the
    error and changes nothing. *)
Lemma cliLinterOverrides_error (value : string) (w : World) :
  linter_flag_ok (Main.flag_linter value) = false →
  Main.cliLinterOverrides value w =
    (Ret (Some ("incorrectly formatted input: " +:+ value)), w).
Proof.
  unfold Main.cliLinterOverrides, strings.SplitN2. cbn [linter_flag_ok].
  destruct (strings.Cut value ":") as [[name spec]|]; [|done].
  cbn [length Nat.ltb Nat.leb nth].
  by destruct (ParseLinterConfigSpec name spec).
Qed.

Lemma run_actions_switches (flags : list Main.Flag) (v : string) (w : World) :
  forallb (λ f, negb (is_config f)) flags = true →
  forallb linter_flag_ok flags = true →
  ∃ w', Main.run_actions flags w = (Ret None, w')
        ∧ (v ∈ Enable (Configuration w') ↔
           match last_mention v flags with
           | Some b => b = true
           | None => v ∈ Enable (Configuration w)
           end)
        ∧ Disable (Configuration w') = Disable (Configuration w).
Proof.
  revert w. induction flags as [|f flags IH]; intros w Hf Hok.
  - by exists w.
  - cbn [forallb] in Hf, Hok.
    apply andb_true_iff in Hf as [Hf Hrest].
    apply andb_true_iff in Hok as [Hok Hokrest].
    apply negb_true_iff in Hf.
    cbn [Main.run_actions last_mention].
    destruct (action_switch f v w Hf Hok) as (w1 & E1 & S1 & D1).
    rewrite (bind_Ret _ _ _ _ _ E1).
    destruct (IH w1 Hrest Hokrest) as (w2 & E2 & S2 & D2).
    exists w2. split; [exact E2|]. split; [|congruence].
    rewrite S2. destruct (last_mention v flags); [done|exact S1].
Qed.

Lemma run_actions_app (before rest : list Main.Flag) (w w1 : World) :
  Main.run_actions before w = (Ret None, w1) →
  Main.run_actions (before ++ rest) w = Main.run_actions rest w1.
Proof.
  revert w. induction before as [|f before IH]; intros w E.
  - by injection E as ->.
  - cbn [Main.run_actions app] in *.
    destruct (Main.action f w) as [[[e|]|n|msg] w0] eqn:E0.
    + rewrite (bind_Ret _ _ _ _ _ E0) in E. discriminate.
    + rewrite (bind_Ret _ _ _ _ _ E0) in E.
      rewrite (bind_Ret _ _ _ _ _ E0). by apply IH.
    + rewrite (bind_Exit _ _ _ _ _ E0) in E. discriminate.
    + rewrite (bind_Panic _ _ _ _ _ E0) in E. discriminate.
Qed.

(** X23: on a command line without [--config], the last flag that
    mentions a linter decides whether it is enabled. When every
    [--linter] value is well formed, the actions of all flags run, in
    order, without an error, and afterwards the linter is in
    [config.Enable] if and only if the last of [--enable],
    [--disable], [--enable-all] (for a default linter) and
    [--disable-all] that applies to it is an enabling one or, when no
    flag applies, it was enabled before. At the first [--linter]
    whose value is malformed the actions stop with the error of
    [cliLinterOverrides], and the same holds for the flags before it.
    No action ever changes [config.Disable]. *)
Theorem last_switch_wins (flags : list Main.Flag) (v : string) (w : World) :
  forallb (λ f, negb (is_config f)) flags = true →
  (forallb linter_flag_ok flags = true →
   ∃ w', Main.run_actions flags w = (Ret None, w')
         ∧ (v ∈ Enable (Configuration w') ↔
            match last_mention v flags with
            | Some b => b = true
            | None => v ∈ Enable (Configuration w)
            end)
         ∧ Disable (Configuration w') = Disable (Configuration w))
  ∧ (∀ before value after,
       flags = before ++ Main.flag_linter value :: after →
       forallb linter_flag_ok before = true →
       linter_flag_ok (Main.flag_linter value) = false →
       ∃ w', Main.run_actions flags w =
               (Ret (Some ("incorrectly formatted input: " +:+ value)), w')
             ∧ (v ∈ Enable (Configuration w') ↔
                match last_mention v before with
                | Some b => b = true
                | None => v ∈ Enable (Configuration w)
                end)
             ∧ Disable (Configuration w') = Disable (Configuration w)).
Proof.
  intros Hf. split; [by apply run_actions_switches|].
  intros before value after -> Hok Hbad.
  rewrite forallb_app in Hf. apply andb_true_iff in Hf as [Hf _].
  destruct (run_actions_switches before v w Hf Hok) as (w1 & E1 & S1 & D1).
  exists w1. split; [|by split].
  rewrite (run_actions_app _ _ _ _ E1). cbn [Main.run_actions Main.action].
  by rewrite (bind_Ret _ _ _ _ _ (cliLinterOverrides_error value w1 Hbad)).
Qed.

Lemma occurrences_remove_first (x name : string) (l : list string) :
  occurrences name (Main.remove_first x l) =
  if decide (x = name) then pred (occurrences name l)
  else occurrences name l.
Proof.
  unfold occurrences. induction l as [|y l IH]; cbn [Main.remove_first].
  - by case_decide.
  - destruct (String.eqb_spec y x) as [->|Hne].
    + case_decide as Hx.
      * subst. by rewrite filter_cons_True.
      * by rewrite filter_cons_False.
    + destruct (decide (y = name)) as [->|Hy].
      * rewrite !filter_cons_True by done. cbn [length]. rewrite IH.
        by rewrite !decide_False by congruence.
      * rewrite !filter_cons_False by done. exact IH.
Qed.

Lemma remove_first_sublist (x : string) (l : list string) :
  Main.remove_first x l `sublist_of` l.
Proof.
  induction l as [|y l IH]; cbn [Main.remove_first]; [done|].
  destruct (String.eqb y x).
  - by apply sublist_cons.
  - by apply sublist_skip.
Qed.

Lemma occurrences_cons (name d : string) (l : list string) :
  occurrences name (d :: l) =
  ((if decide (d = name) then 1 else 0) + occurrences name l)%nat.
Proof.
  unfold occurrences. case_decide.
  - by rewrite filter_cons_True.
  - by rewrite filter_cons_False.
Qed.

Lemma remove_disabled (disable enable : list string) :
  let result := fold_left (λ enable disable, Main.remove_first disable enable)
                          disable enable in
  result `sublist_of` enable
  ∧ ∀ name, occurrences name result =
            (occurrences name enable - occurrences name disable)%nat.
Proof.
  revert enable. induction disable as [|d disable IH]; intros enable.
  - cbn [fold_left]. split; [done|]. intros name.
    change (occurrences name []) with 0%nat. by rewrite Nat.sub_0_r.
  - cbn [fold_left]. destruct (IH (Main.remove_first d enable)) as [S C].
    split.
    + etrans; [exact S|apply remove_first_sublist].
    + intros name. cbv zeta in C.
      rewrite C, occurrences_remove_first, occurrences_cons.
      case_decide; lia.
Qed.

(** X24: a configuration file that is read and decoded. [loadConfig]
    returns no error; for every name, each occurrence in the
    [Disable] list of the decoded configuration removes one
    occurrence of the name, the first, from its [Enable] list, so
    that a name stays enabled if it is enabled more often than it is
    disabled; the order of the remaining names is kept, and no other
    field of the decoded configuration is changed. *)
Theorem loadConfig_removes_disabled (file : string) (doc : ConfigDocument)
    (w : World) :
  config_file w file = Decoded doc →
  let decoded := json_Decode doc (Configuration w) in
  ∃ w',
    Main.loadConfig file w = (Ret None, w')
    ∧ Enable (Configuration w') `sublist_of` Enable decoded
    ∧ (∀ name, occurrences name (Enable (Configuration w')) =
               (occurrences name (Enable decoded)
                - occurrences name (Disable decoded))%nat)
    ∧ Configuration w' = set_Enable (Enable (Configuration w')) decoded.
Proof.
  intros Hfile decoded. unfold Main.loadConfig. rewrite Hfile.
  eexists. split; [reflexivity|].
  fold decoded.
  destruct (remove_disabled (Disable decoded) (Enable decoded)) as [S C].
  assert (∀ l, Enable (Configuration
                 (with_Configuration (set_Enable l decoded) w)) = l) as HE
    by (intros; by destruct w, decoded).
  rewrite HE. split; [exact S|]. split; [exact C|].
  by destruct w.
Qed.
End CommandLineSwitches.

(** ** Errors that end a run at start-up *)

Section StartupErrors.
Context `{Externals}.

(** C2 (amended): in a lint run ([config.Install] unset),
    configuration errors - a format that does not parse, an include
    or exclude pattern that does not compile, a linter set that
    [validateLinters] rejects - are fatal at start-up: [Run] ends
    through [processConfig] or [validateLinters] before any linter is
    started. They are not the only errors that end the run: it also
    ends, before any linter is started, when GOPATH is unset and the
    current user cannot be determined. Nothing else ends a lint run
    before the linters start: when the start-up of this run does not
    return, GOPATH cannot be determined, or the format or a pattern
    list of this configuration is invalid, or [validateLinters]
    rejects the linters that this run built.

    With [config.Install] set, [Run] calls neither [processConfig]
    nor [validateLinters] nor [runLinters]: without
    [config.VendoredLinters] it is [installLinters]; with it, [Run]
    ends with status 1 when GOPATH cannot be determined or no vendored
    location exists, and otherwise is [installLinters] after
    [configureEnvironmentForInstall]. A format or pattern that is
    invalid is not fatal there. *)
Theorem configuration_errors_are_fatal (paths : list string) (w : World) :
  (Install (Configuration w) = false →
   (∀ err, gopath_error w = None →
      template_Parse (Format (Configuration w)) = inr err →
      ends_before_jobs w (Run paths w) (Exit 1))
   ∧ (∀ tmpl err, gopath_error w = None →
        template_Parse (Format (Configuration w)) = inl tmpl →
        Exclude (Configuration w) ≠ [] →
        regexp_Compile (strings.Join (Exclude (Configuration w)) "|")
          = inr err →
        ends_before_jobs w (Run paths w) (Panic err))
   ∧ (∀ tmpl err, gopath_error w = None →
        template_Parse (Format (Configuration w)) = inl tmpl →
        pattern_ok (Exclude (Configuration w)) = true →
        Include (Configuration w) ≠ [] →
        regexp_Compile (strings.Join (Include (Configuration w)) "|")
          = inr err →
        ends_before_jobs w (Run paths w) (Panic err))
   ∧ (∀ w1 r w2 resolved w3 linters w4 err,
        configureEnvironment w = (Ret tt, w1) →
        processConfig w1 = (Ret r, w2) →
        resolvePaths paths (Skip (Configuration w2)) w2 = (Ret resolved, w3) →
        lintersFromConfig w3 = (Ret linters, w4) →
        validateLinters linters (Configuration w4) = Some err →
        ends_before_jobs w (Run paths w) (Exit 1))
   ∧ (∀ err, gopath_error w = Some err →
        ends_before_jobs w (Run paths w) (Exit 1))
   ∧ (∀ out w', Run_startup paths w = (out, w') → (∀ args, out ≠ Ret args) →
        gopath_error w ≠ None
        ∨ (∃ err, template_Parse (Format (Configuration w)) = inr err)
        ∨ pattern_ok (Exclude (Configuration w)) = false
        ∨ pattern_ok (Include (Configuration w)) = false
        ∨ (∃ w1 r w2 resolved w3 linters w4 err,
             configureEnvironment w = (Ret tt, w1)
             ∧ processConfig w1 = (Ret r, w2)
             ∧ resolvePaths paths (Skip (Configuration w2)) w2
               = (Ret resolved, w3)
             ∧ lintersFromConfig w3 = (Ret linters, w4)
             ∧ validateLinters linters (Configuration w4) = Some err)))
  ∧ (Install (Configuration w) = true →
     (VendoredLinters (Configuration w) = false →
      Run paths w = installLinters w)
     ∧ (VendoredLinters (Configuration w) = true →
        match gopath_error w with
        | Some err =>
            Run paths w =
              (Exit 1, with_trace (trace w ++ [EvFatal "" [err]]) w)
        | None =>
            ∃ gopaths gopath,
              getGoPathList w = (Ret gopaths, w)
              ∧ getGoPath w = (Ret gopath, w)
              ∧ match List.find (exists_in w) (vendor_candidates gopaths) with
                | None =>
                    Run paths w =
                      (Exit 1,
                       with_trace
                         (trace w ++
                          [EvFatal
                             "could not find vendored linters in GOPATH=%q"
                             [gopath]])
                         w)
                | Some root =>
                    ∃ w1, configureEnvironmentForInstall w = (Ret tt, w1)
                          ∧ Run paths w = installLinters w1
                end
        end)).
Proof.
  split.
  - intros Hinstall.
    pose proof (Run_unfold paths w Hinstall) as HR.
    pose proof (configureEnvironment_run w) as Hc.
    repeat split.
    + (* the format *)
      intros err Hg Ht. rewrite Hg in Hc. destruct Hc as (w1 & E1 & C1 & Q1).
      rewrite <- C1 in Ht.
      pose proof (processConfig_bad_template w1 err Ht) as E2.
      eexists. split; [|by apply trace_step_fatal, Q1].
      rewrite HR. apply bind_Exit. unfold Run_startup.
      rewrite (bind_Ret _ _ _ _ _ E1). by apply bind_Exit.
    + (* the exclude patterns *)
      intros tmpl err Hg Ht Hne He. rewrite Hg in Hc.
      destruct Hc as (w1 & E1 & C1 & Q1).
      rewrite <- C1 in Ht, Hne, He.
      destruct (processConfig_bad_exclude w1 tmpl err Ht Hne He)
        as (w2 & evs & E2 & T2 & J2).
      exists w2. split.
      * rewrite HR. apply bind_Panic. unfold Run_startup.
        rewrite (bind_Ret _ _ _ _ _ E1). by apply bind_Panic.
      * eapply trace_step_trans; [exact Q1|by exists evs].
    + (* the include patterns *)
      intros tmpl err Hg Ht He Hne Hi. rewrite Hg in Hc.
      destruct Hc as (w1 & E1 & C1 & Q1).
      rewrite <- C1 in Ht, He, Hne, Hi.
      destruct (processConfig_bad_include w1 tmpl err Ht He Hne Hi)
        as (w2 & evs & E2 & T2 & J2).
      exists w2. split.
      * rewrite HR. apply bind_Panic. unfold Run_startup.
        rewrite (bind_Ret _ _ _ _ _ E1). by apply bind_Panic.
      * eapply trace_step_trans; [exact Q1|by exists evs].
    + (* the linters *)
      intros w1 [include exclude] w2 resolved w3 linters w4 err E1 E2 E3 E4 Hv.
      destruct (gopath_error w) as [e|]; [rewrite Hc in E1; discriminate|].
      destruct Hc as (w1' & E1' & C1 & Q1).
      rewrite E1 in E1'. injection E1' as <-.
      destruct (processConfig_returns w1 _ _ E2) as (tmpl & Ht & He & Hi).
      destruct (processConfig_ok w1 tmpl Ht He Hi)
        as (w2' & evs2 & E2' & _ & T2 & _ & J2).
      rewrite E2 in E2'. injection E2' as _ _ <-.
      destruct (resolvePaths_returns paths (Skip (Configuration w2)) w2)
        as (resolved' & w3' & E3' & _ & Q3).
      rewrite E3 in E3'. injection E3' as <- <-.
      destruct (lintersFromConfig_run w3) as (evs4 & E4' & J4).
      rewrite E4 in E4'. injection E4' as L4 W4.
      eexists. split.
      * rewrite HR. apply bind_Exit. unfold Run_startup.
        rewrite (bind_Ret _ _ _ _ _ E1), (bind_Ret _ _ _ _ _ E2), bind_config,
          (bind_Ret _ _ _ _ _ E3), (bind_Ret _ _ _ _ _ E4), bind_config.
        change (id (Configuration w4)) with (Configuration w4).
        rewrite Hv. apply bind_Exit. reflexivity.
      * apply trace_step_fatal.
        eapply trace_step_trans; [exact Q1|].
        eapply trace_step_trans; [by exists evs2|].
        eapply trace_step_trans; [exact Q3|].
        exists evs4. by rewrite W4.
    + (* GOPATH *)
      intros err Hg. rewrite Hg in Hc.
      eexists. split.
      * rewrite HR. apply bind_Exit. unfold Run_startup. by apply bind_Exit.
      * by exists [EvFatal "" [err]].
    + (* nothing else *)
      intros out w' E0 Hout.
      pose proof (Run_startup_result paths w) as HS.
      rewrite E0 in HS. cbn [fst snd] in HS.
      inversion HS as [err Hg|w1 out1 w2 E1 [C1 _] E2 Hn|
                       w1 inc exc w2 resolved w3 linters w4 E1 Q1 E2 E3 Q3 E4].
      * left. by rewrite Hg.
      * right.
        destruct (template_Parse (Format (Configuration w))) as [tmpl|err]
          eqn:Ht; [|left; by exists err].
        right.
        destruct (pattern_ok (Exclude (Configuration w))) eqn:He; [|by left].
        right.
        destruct (pattern_ok (Include (Configuration w))) eqn:Hi; [|by left].
        exfalso. rewrite <- C1 in Ht, He, Hi.
        destruct (processConfig_ok w1 tmpl Ht He Hi) as (? & ? & E2' & _).
        rewrite E2 in E2'. injection E2' as -> _. by eapply Hn.
      * do 4 right.
        destruct (validateLinters linters (Configuration w4)) as [err|] eqn:Hv.
        -- by exists w1, (pair inc exc), w2, resolved, w3, linters, w4, err.
        -- exfalso. by eapply Hout.
  - intros Hinstall. unfold Run. rewrite bind_config, Hinstall.
    rewrite bind_config. split.
    + intros ->. reflexivity.
    + intros ->. pose proof (getGoPathList_run w) as Hl.
      destruct (gopath_error w) as [err|].
      * apply bind_Exit. unfold configureEnvironmentForInstall.
        by apply bind_Exit.
      * destruct Hl as [gopaths Hg].
        destruct (getGoPath_of_list w gopaths Hg) as [gopath Hp].
        exists gopaths, gopath. split; [exact Hg|]. split; [exact Hp|].
        destruct (List.find _ _) as [root|] eqn:Efind.
        -- destruct (configureEnvironmentForInstall_returns w gopaths root
                       Hg Efind) as [w1 E].
           exists w1. split; [exact E|].
           by rewrite (bind_Ret _ _ _ _ _ E).
        -- apply bind_Exit.
           by apply (configureEnvironmentForInstall_fatal w gopaths).
Qed.
End StartupErrors.

Lemma configuration_errors_are_fatal_witness :
  (Install (Configuration Scenario.bad_format) = false
   ∧ ends_before_jobs Scenario.bad_format
       (Run ["./..."] Scenario.bad_format) (Exit 1))
  ∧ (Install (Configuration installing_bad_format) = true
     ∧ VendoredLinters (Configuration installing_bad_format) = false
     ∧ Run ["./..."] installing_bad_format = (Ret tt, installing_bad_format)).
Proof.
  split.
  - split; [reflexivity|].
    refine (proj1 (proj1 (configuration_errors_are_fatal _ _) _) _ _ _);
      reflexivity.
  - split; [reflexivity|]. split; [reflexivity|].
    refine (proj1 (proj2 (configuration_errors_are_fatal _ _) _) _);
      reflexivity.
Defined.

(** ** The further properties on the concrete installation *)

Lemma getGoPathList_nonempty_witness :
  let w := Scenario.plain in
  let gopaths := ["/go"] in
  getGoPathList w = (Ret gopaths, w)
  ∧ (gopaths ≠ [] ∧ w = w
     ∧ strings.Join gopaths ":" =
         (if String.eqb (default "" (environ w !! "GOPATH")) ""
          then match current_user w with
               | inl home => filepath.Join [home; "go"]
               | inr _ => ""
               end
          else default "" (environ w !! "GOPATH"))).
Proof.
  assert (getGoPathList Scenario.plain = (Ret ["/go"], Scenario.plain)) as E
    by (vm_compute; reflexivity).
  exact (conj E (getGoPathList_nonempty _ _ _ E)).
Defined.

Lemma configureEnvironment_sets_PATH_witness :
  let w := Scenario.plain in
  ∃ w',
    configureEnvironment w = (Ret tt, w')
    ∧ (Configuration w' = Configuration w
       ∧ (∀ key, key ≠ "PATH" → environ w' !! key = environ w !! key)
       ∧ ∃ gopaths paths,
           getGoPathList w = (Ret gopaths, w)
           ∧ addGoBinsToPath gopaths w = (Ret paths, w)
           ∧ (environ w' !! "PATH" = Some (strings.Join paths ":")
              ∨ (environ w' !! "PATH" = environ w !! "PATH"
                 ∧ ∃ err,
                     EvWarning "setenv %s: %s" ["PATH"; err] ∈ trace w'))).
Proof.
  assert (configureEnvironment Scenario.plain
          = (Ret tt, (configureEnvironment Scenario.plain).2)) as E
    by (vm_compute; reflexivity).
  exists (configureEnvironment Scenario.plain).2.
  exact (conj E (configureEnvironment_sets_PATH _ _ E)).
Defined.

Lemma findVendoredLinters_first_existing_witness :
  let w := vendored_world in
  let root := "/go/src/gopkg.in/alecthomas/gometalinter.v1/_linters" in
  findVendoredLinters w = (Ret root, w)
  ∧ (w = w
     ∧ ∃ gopaths,
         getGoPathList w = (Ret gopaths, w)
         ∧ (root = ""
            ↔ ∀ c, c ∈ vendor_candidates gopaths → exists_in w c = false)
         ∧ (root ≠ "" →
            ∃ before after,
              vendor_candidates gopaths = before ++ root :: after
              ∧ exists_in w root = true
              ∧ ∀ c, c ∈ before → exists_in w c = false)).
Proof.
  assert (findVendoredLinters vendored_world
          = (Ret "/go/src/gopkg.in/alecthomas/gometalinter.v1/_linters",
             vendored_world)) as E
    by (vm_compute; reflexivity).
  exact (conj E (findVendoredLinters_first_existing _ _ _ E)).
Defined.

Lemma configureEnvironmentForInstall_not_found_witness :
  let w := Scenario.plain in
  let gopaths := ["/go"] in
  getGoPathList w = (Ret gopaths, w)
  ∧ (∀ c, c ∈ vendor_candidates gopaths → exists_in w c = false)
  ∧ ∃ gopath,
      getGoPath w = (Ret gopath, w)
      ∧ configureEnvironmentForInstall w =
          (Exit 1,
           with_trace
             (trace w ++
              [EvFatal "could not find vendored linters in GOPATH=%q"
                       [gopath]])
             w).
Proof.
  assert (getGoPathList Scenario.plain = (Ret ["/go"], Scenario.plain)) as E
    by (vm_compute; reflexivity).
  assert (∀ c, c ∈ vendor_candidates ["/go"] →
               exists_in Scenario.plain c = false) as Hnone.
  { intros c Hc. apply list_elem_of_In in Hc. vm_compute in Hc.
    destruct Hc as [<-|[<-|[]]]; vm_compute; reflexivity. }
  exact (conj E (conj Hnone
           (configureEnvironmentForInstall_not_found _ _ E Hnone))).
Defined.

Lemma configureEnvironmentForInstall_sets_GOPATH_witness :
  let w := vendored_world in
  ∃ w',
    configureEnvironmentForInstall w = (Ret tt, w')
    ∧ (Configuration w' = Configuration w
       ∧ (∀ key, key ≠ "GOBIN" → key ≠ "GOPATH" →
                 environ w' !! key = environ w !! key)
       ∧ (default "" (environ w !! "GOBIN") ≠ "" →
          environ w' !! "GOBIN" = environ w !! "GOBIN")
       ∧ ∃ root,
           findVendoredLinters w = (Ret root, w) ∧ root ≠ ""
           ∧ exists_in w root = true
           ∧ (environ w' !! "GOPATH" = Some root
              ∨ ∃ err,
                  EvWarning "setenv %s: %s" ["GOPATH"; err] ∈ trace w')).
Proof.
  assert (configureEnvironmentForInstall vendored_world
          = (Ret tt, (configureEnvironmentForInstall vendored_world).2)) as E
    by (vm_compute; reflexivity).
  exists (configureEnvironmentForInstall vendored_world).2.
  exact (conj E (configureEnvironmentForInstall_sets_GOPATH _ _ E)).
Defined.

Lemma resolvePaths_listed_only_witness :
  let paths := ["foo"; "foo/bar"] in
  let skip := ["foo"] in
  let w := Scenario.plain in
  paths ≠ []
  ∧ Forall (λ p, strings.HasSuffix p "/..." = false) paths
  ∧ (resolvePaths paths skip w).1 =
      Ret (sort_Strings
             (relativePackagePath <$>
                elements (list_to_set (filepath.Clean <$> paths)
                          : gset string)))
  ∧ ∀ skip' w',
      (resolvePaths paths skip' w').1 = (resolvePaths paths skip w).1.
Proof.
  assert (["foo"; "foo/bar"] ≠ []) as Hne by discriminate.
  assert (Forall (λ p, strings.HasSuffix p "/..." = false)
            ["foo"; "foo/bar"]) as Hall
    by (repeat constructor).
  exact (conj Hne (conj Hall
           (resolvePaths_listed_only _ ["foo"] Scenario.plain Hne Hall))).
Defined.

Lemma outputToJSON_array_witness :
  let issues := [issue_vet; issue_nowhere] in
  let w := Scenario.plain in
  Forall (λ issue, shown (Configuration w) issue = true →
                   ∃ d, json_Marshal issue = inl d) issues
  ∧ ∃ evs,
      outputToJSON issues w =
        (Ret (if existsb (shown (Configuration w)) issues then 1 else 0),
         with_trace (trace w ++ evs) w)
      ∧ stdout_text evs =
          "[" +:+ LF +:+
          String.concat ("," +:+ LF) (json_items (Configuration w) issues)
          +:+ LF +:+ "]" +:+ LF.
Proof.
  assert (Forall (λ issue, shown (Configuration Scenario.plain) issue = true →
                           ∃ d, json_Marshal issue = inl d)
            [issue_vet; issue_nowhere]) as Hall
    by (repeat constructor; intros _; eexists; reflexivity).
  exact (conj Hall (outputToJSON_array _ _ Hall)).
Defined.

Lemma outputToJSON_marshal_failure_witness :
  let w := Scenario.plain in
  let err := "json: error calling MarshalJSON for type *gometalinter.Issue" in
  Forall (λ issue, shown (Configuration w) issue = true →
                   ∃ d, @json_Marshal strict_json issue = inl d) [issue_vet]
  ∧ shown (Configuration w) issue_nowhere = true
  ∧ @json_Marshal strict_json issue_nowhere = inr err
  ∧ ∃ evs,
      @outputToJSON strict_json ([issue_vet] ++ issue_nowhere :: [issue_vet]) w =
        (Exit 1, with_trace (trace w ++ evs ++ [EvFatal "" [err]]) w)
      ∧ stdout_text evs =
          "[" +:+ LF +:+
          String.concat ("," +:+ LF)
            (@json_items strict_json (Configuration w) [issue_vet])
          +:+ (if existsb (shown (Configuration w)) [issue_vet]
               then "," +:+ LF else "").
Proof.
  assert (Forall (λ issue, shown (Configuration Scenario.plain) issue = true →
                           ∃ d, @json_Marshal strict_json issue = inl d)
            [issue_vet]) as Hall
    by (repeat constructor; intros _; eexists; reflexivity).
  assert (shown (Configuration Scenario.plain) issue_nowhere = true) as Hs
    by reflexivity.
  assert (@json_Marshal strict_json issue_nowhere
          = inr "json: error calling MarshalJSON for type *gometalinter.Issue")
    as Hbad by reflexivity.
  exact (conj Hall (conj Hs (conj Hbad
           (@outputToJSON_marshal_failure strict_json _ [issue_vet] _ _
              Scenario.plain Hall Hs Hbad)))).
Defined.

Lemma processConfig_vendor_support_witness :
  let w := vendoring in
  let c := Configuration w in
  let tmpl := {| template_text := Format c |} in
  template_Parse (Format c) = inl tmpl
  ∧ pattern_ok (Exclude c) = true
  ∧ pattern_ok (Include c) = true
  ∧ ∃ r w',
      processConfig w = (Ret r, w')
      ∧ if String.eqb (default "" (environ w !! "GO15VENDOREXPERIMENT")) "1"
           || Vendor c
        then Skip (Configuration w') = Skip c ++ ["vendor"]
             ∧ Vendor (Configuration w') = true
             ∧ environ w' !! "GO15VENDOREXPERIMENT" = Some "1"
        else Skip (Configuration w') = Skip c
             ∧ Vendor (Configuration w') = false
             ∧ environ w' !! "GO15VENDOREXPERIMENT"
               = environ w !! "GO15VENDOREXPERIMENT".
Proof.
  assert (template_Parse (Format (Configuration vendoring))
          = inl {| template_text := Format (Configuration vendoring) |}) as Ht
    by reflexivity.
  assert (pattern_ok (Exclude (Configuration vendoring)) = true) as He
    by reflexivity.
  assert (pattern_ok (Include (Configuration vendoring)) = true) as Hi
    by reflexivity.
  exact (conj Ht (conj He (conj Hi
           (processConfig_vendor_support vendoring _ Ht He Hi)))).
Defined.

Lemma processConfig_disables_gc_witness :
  let w := Scenario.plain in
  let c := Configuration w in
  let tmpl := {| template_text := Format c |} in
  template_Parse (Format c) = inl tmpl
  ∧ pattern_ok (Exclude c) = true
  ∧ pattern_ok (Include c) = true
  ∧ ∃ r w',
      processConfig w = (Ret r, w')
      ∧ environ w' !! "GOGC" =
          (if EnableGC c then environ w !! "GOGC" else Some "off")
      ∧ ∀ key, key ≠ "GOGC" → key ≠ "GO15VENDOREXPERIMENT" →
               environ w' !! key = environ w !! key.
Proof.
  assert (template_Parse (Format (Configuration Scenario.plain))
          = inl {| template_text := Format (Configuration Scenario.plain) |})
    as Ht by reflexivity.
  assert (pattern_ok (Exclude (Configuration Scenario.plain)) = true) as He
    by reflexivity.
  assert (pattern_ok (Include (Configuration Scenario.plain)) = true) as Hi
    by reflexivity.
  exact (conj Ht (conj He (conj Hi
           (processConfig_disables_gc Scenario.plain _ Ht He Hi)))).
Defined.

Lemma processConfig_update_ignored_witness :
  let w := updating in
  let c := Configuration w in
  let tmpl := {| template_text := Format c |} in
  template_Parse (Format c) = inl tmpl
  ∧ pattern_ok (Exclude c) = true
  ∧ pattern_ok (Include c) = true
  ∧ ∃ r w' evs,
      processConfig w = (Ret r, w')
      ∧ trace w' = trace w ++ evs
      ∧ (if VendoredLinters c && Install c && Update c
         then warnings_of evs = [(update_ignored, [])]
              ∧ Update (Configuration w') = false
         else warnings_of evs = []
              ∧ Update (Configuration w') = Update c)
      ∧ (Install c = false →
         warnings_of evs = [] ∧ Update (Configuration w') = Update c).
Proof.
  assert (template_Parse (Format (Configuration updating))
          = inl {| template_text := Format (Configuration updating) |})
    as Ht by reflexivity.
  assert (pattern_ok (Exclude (Configuration updating)) = true) as He
    by reflexivity.
  assert (pattern_ok (Include (Configuration updating)) = true) as Hi
    by reflexivity.
  exact (conj Ht (conj He (conj Hi
           (processConfig_update_ignored updating _ Ht He Hi)))).
Defined.

Lemma Run_never_returns_witness :
  Install (Configuration Scenario.plain) = false
  ∧ ends_process (Run ["."] Scenario.plain).1.
Proof.
  assert (Install (Configuration Scenario.plain) = false) as Hi
    by reflexivity.
  exact (conj Hi (Run_never_returns ["."] Scenario.plain Hi)).
Defined.

Lemma Run_install_needs_vendored_linters_witness :
  let w := installing in
  let gopaths := ["/go"] in
  Install (Configuration w) = true
  ∧ VendoredLinters (Configuration w) = true
  ∧ getGoPathList w = (Ret gopaths, w)
  ∧ (∀ c, c ∈ vendor_candidates gopaths → exists_in w c = false)
  ∧ ∃ gopath,
      getGoPath w = (Ret gopath, w)
      ∧ Run ["."] w =
          (Exit 1,
           with_trace
             (trace w ++
              [EvFatal "could not find vendored linters in GOPATH=%q"
                       [gopath]])
             w).
Proof.
  assert (Install (Configuration installing) = true) as Hi by reflexivity.
  assert (VendoredLinters (Configuration installing) = true) as Hv
    by reflexivity.
  assert (getGoPathList installing = (Ret ["/go"], installing)) as E
    by (vm_compute; reflexivity).
  assert (∀ c, c ∈ vendor_candidates ["/go"] →
               exists_in installing c = false) as Hnone.
  { intros c Hc. apply list_elem_of_In in Hc. vm_compute in Hc.
    destruct Hc as [<-|[<-|[]]]; vm_compute; reflexivity. }
  exact (conj Hi (conj Hv (conj E (conj Hnone
           (Run_install_needs_vendored_linters ["."] _ _ Hi Hv E Hnone))))).
Defined.

Lemma last_switch_wins_witness :
  let w := Scenario.plain in
  let before := [Main.flag_disable "vet"; Main.flag_enable "vet";
                 Main.flag_linter "vet:go tool vet:PATH:LINE:MESSAGE";
                 Main.flag_disable_all; Main.flag_enable "gofmt"] in
  let value := "golint=golint" in
  let after := [Main.flag_enable "vet"] in
  forallb (λ f, negb (is_config f)) switches = true
  ∧ switches = before ++ Main.flag_linter value :: after
  ∧ forallb linter_flag_ok before = true
  ∧ linter_flag_ok (Main.flag_linter value) = false
  ∧ ∃ w', Main.run_actions switches w =
            (Ret (Some ("incorrectly formatted input: " +:+ value)), w')
          ∧ ("vet" ∈ Enable (Configuration w') ↔
             match last_mention "vet" before with
             | Some b => b = true
             | None => "vet" ∈ Enable (Configuration w)
             end)
          ∧ Disable (Configuration w') = Disable (Configuration w).
Proof.
  assert (forallb (λ f, negb (is_config f)) switches = true) as Hf
    by reflexivity.
  split; [exact Hf|]. split; [reflexivity|].
  split; [reflexivity|]. split; [reflexivity|].
  refine (proj2 (last_switch_wins switches "vet" Scenario.plain Hf)
            [Main.flag_disable "vet"; Main.flag_enable "vet";
             Main.flag_linter "vet:go tool vet:PATH:LINE:MESSAGE";
             Main.flag_disable_all; Main.flag_enable "gofmt"]
            "golint=golint" [Main.flag_enable "vet"] _ _ _); reflexivity.
Defined.

Lemma loadConfig_removes_disabled_witness :
  let w := switches_world in
  let decoded := json_Decode switches_document (Configuration w) in
  config_file w "linters.json" = Decoded switches_document
  ∧ ∃ w',
      Main.loadConfig "linters.json" w = (Ret None, w')
      ∧ Enable (Configuration w') `sublist_of` Enable decoded
      ∧ (∀ name, occurrences name (Enable (Configuration w')) =
                 (occurrences name (Enable decoded)
                  - occurrences name (Disable decoded))%nat)
      ∧ Configuration w' = set_Enable (Enable (Configuration w')) decoded.
Proof.
  assert (config_file switches_world "linters.json"
          = Decoded switches_document) as Hfile by reflexivity.
  exact (conj Hfile
           (loadConfig_removes_disabled "linters.json" switches_document
              switches_world Hfile)).
Defined.
